(** * kulasisi-data: entry normalization, fragment merging, export order and
      frequency aggregation

    A shallow embedding of the parsers of the repository

      - [src/dictionaries/gcide/parser.py]            (module [Gcide])
      - [src/dictionaries/pinoy_dictionary/parser.py] (module [Pinoy])
      - [src/freqlists/generate_freqlists.py]         (modules [Freq],
                                                       [FreqOrder], [FreqFiles])
      - [src/wordlists/generate_wordlists.py]         (module [Wordlists])
      - [src/phrasebooks/wikivoyage/parser.py]        (module [Phrasebook])

    together with the pieces of the Python runtime they call: [str] methods
    (module [PyStr]), the backtracking matcher of [re] (module [Re]),
    [html.unescape] (module [Html]), the tree queries of BeautifulSoup
    (module [Dom]), text files (module [TextFile]) and file names (module
    [Path]).

    Text.  A Python [str] whose code points are all below 256 is a [string]
    here, one [ascii] per code point.  [str.lower], [str.isspace], [\s] and
    [\d] are modelled on that range. *)

From Stdlib Require Import ZArith Ascii String List Bool Arith Lia.
From Stdlib Require Import Sorting.Permutation Sorting.Sorted.
From Stdlib Require Import DecimalString DecimalNat.
From stdpp Require Import gmap strings list.

Local Open Scope string_scope.
Local Open Scope list_scope.

(** ** Outcomes of Python code that may raise

    [Ok a] is a normal return, [Raise] an exception, and [Beyond] marks an
    input on which the Python runtime does something this development does
    not model (a regular-expression construct outside the supported
    syntax).  Nothing is claimed about the program on a [Beyond] input. *)

Inductive exc (A : Type) : Type :=
| Ok (a : A)
| Raise
| Beyond.
Arguments Ok {A} a.
Arguments Raise {A}.
Arguments Beyond {A}.

Definition exc_bind {A B : Type} (m : exc A) (k : A -> exc B) : exc B :=
  match m with
  | Ok a => k a
  | Raise => Raise
  | Beyond => Beyond
  end.

(** [try: body / except Exception: handler] *)
Definition try_except {A : Type} (body : exc A) (handler : A) : exc A :=
  match body with
  | Raise => Ok handler
  | other => other
  end.

Declare Scope exc_scope.
Delimit Scope exc_scope with exc.
Notation "'do' x <- m ; k" := (exc_bind m (fun x => k))
  (at level 10, x name, m at level 100, k at level 200,
   format "'[v' 'do'  x  <-  m ; '/' k ']'") : exc_scope.
Notation "'do' ' pat <- m ; k" :=
  (exc_bind m (fun x => match x with pat => k end))
  (at level 10, pat pattern, m at level 100, k at level 200) : exc_scope.
Local Open Scope exc_scope.

(** ** Python [str] methods *)

Module PyStr.

Definition ord (c : ascii) : nat := nat_of_ascii c.

Definition between (lo hi : nat) (c : ascii) : bool :=
  (lo <=? ord c)%nat && (ord c <=? hi)%nat.

(** The characters [c] with [c.isspace()], below 256. *)
Definition isspace_char (c : ascii) : bool :=
  between 9 13 c || between 28 32 c
  || (ord c =? 133)%nat || (ord c =? 160)%nat.

Definition isupper_char (c : ascii) : bool :=
  between 65 90 c || (between 192 222 c && negb (ord c =? 215)%nat).

Definition lower_char (c : ascii) : ascii :=
  if isupper_char c then ascii_of_nat (ord c + 32) else c.

(** [s.lower()] *)
Fixpoint lower (s : string) : string :=
  match s with
  | EmptyString => EmptyString
  | String c s' => String (lower_char c) (lower s')
  end.

(** [c in chars] for a one-character [c] *)
Fixpoint mem_char (c : ascii) (chars : string) : bool :=
  match chars with
  | EmptyString => false
  | String d chars' => Ascii.eqb c d || mem_char c chars'
  end.

Fixpoint all_chars (p : ascii -> bool) (s : string) : bool :=
  match s with
  | EmptyString => true
  | String c s' => p c && all_chars p s'
  end.

Definition nonempty (s : string) : bool :=
  match s with EmptyString => false | String _ _ => true end.

(** [s.isspace()]: at least one character, and all of them whitespace. *)
Definition isspace (s : string) : bool :=
  nonempty s && all_chars isspace_char s.

Fixpoint lstrip_by (p : ascii -> bool) (s : string) : string :=
  match s with
  | EmptyString => EmptyString
  | String c s' => if p c then lstrip_by p s' else s
  end.

Fixpoint rstrip_by (p : ascii -> bool) (s : string) : string :=
  match s with
  | EmptyString => EmptyString
  | String c s' =>
      match rstrip_by p s' with
      | EmptyString => if p c then EmptyString else String c EmptyString
      | r => String c r
      end
  end.

Definition strip_by (p : ascii -> bool) (s : string) : string :=
  lstrip_by p (rstrip_by p s).

(** [s.strip()], [s.strip(chars)], [s.lstrip(chars)], [s.rstrip(chars)] *)
Definition strip (s : string) : string := strip_by isspace_char s.
Definition strip_chars (chars s : string) : string :=
  strip_by (fun c => mem_char c chars) s.
Definition lstrip_chars (chars s : string) : string :=
  lstrip_by (fun c => mem_char c chars) s.
Definition rstrip_chars (chars s : string) : string :=
  rstrip_by (fun c => mem_char c chars) s.

(** [s[n:]] for [n >= 0] *)
Fixpoint drop (n : nat) (s : string) : string :=
  match n, s with
  | O, _ => s
  | S _, EmptyString => EmptyString
  | S n', String _ s' => drop n' s'
  end.

(** [s[:n]] for [n >= 0] *)
Fixpoint take (n : nat) (s : string) : string :=
  match n, s with
  | O, _ => EmptyString
  | S _, EmptyString => EmptyString
  | S n', String c s' => String c (take n' s')
  end.

(** [s.split(sep)] for a one-character separator: always at least one
    piece, empty pieces kept. *)
Fixpoint split_char (sep : ascii) (s : string) : list string :=
  match s with
  | EmptyString => [EmptyString]
  | String c s' =>
      if Ascii.eqb c sep then EmptyString :: split_char sep s'
      else match split_char sep s' with
           | [] => [String c EmptyString]
           | piece :: pieces => String c piece :: pieces
           end
  end.

(** [s.replace(a, b)] for one-character [a] and [b] *)
Fixpoint replace_char (a b : ascii) (s : string) : string :=
  match s with
  | EmptyString => EmptyString
  | String c s' =>
      String (if Ascii.eqb c a then b else c) (replace_char a b s')
  end.

(** [s.replace(old, new)] for a non-empty [old]: the occurrences are
    replaced from the left, without overlap. *)
Fixpoint replace_from (fuel : nat) (old new s : string) : string :=
  match fuel with
  | O => s
  | S fuel' =>
      if String.prefix old s
      then new +:+ replace_from fuel' old new (drop (String.length old) s)
      else match s with
           | EmptyString => EmptyString
           | String c s' => String c (replace_from fuel' old new s')
           end
  end.

Definition replace (old new s : string) : string :=
  replace_from (S (String.length s)) old new s.

(** [int(s)] in base 10: surrounding whitespace, one optional sign,
    digits with single underscores between them.  [None] stands for
    [ValueError].  The whitespace [int] skips is that of [str.isspace]
    without the separators 28 to 31.  A text of more than 4300 digits is
    refused: the default limit of [sys.set_int_max_str_digits]. *)
Definition isdigit_char (c : ascii) : bool := between 48 57 c.

Definition int_space (c : ascii) : bool :=
  between 9 13 c || (ord c =? 32)%nat || (ord c =? 133)%nat || (ord c =? 160)%nat.

Definition digit_value (c : ascii) : Z := Z.of_nat (ord c - 48).

Fixpoint int_digits (acc : Z) (after_digit : bool) (s : string) : option Z :=
  match s with
  | EmptyString => if after_digit then Some acc else None
  | String c s' =>
      if isdigit_char c then int_digits (10 * acc + digit_value c) true s'
      else if Ascii.eqb c "_" && after_digit then
        match s' with
        | String d _ => if isdigit_char d then int_digits acc false s' else None
        | EmptyString => None
        end
      else None
  end.

(** The number of digits of [s], underscores not counted. *)
Fixpoint count_digits (s : string) : Z :=
  match s with
  | EmptyString => 0
  | String c s' => (if isdigit_char c then 1 else 0) + count_digits s'
  end.

Definition int_limited (s : string) : option Z :=
  if (4300 <? count_digits s)%Z then None else int_digits 0 false s.

Definition int (s : string) : option Z :=
  match strip_by int_space s with
  | String "-" s' => option_map Z.opp (int_limited s')
  | String "+" s' => int_limited s'
  | s' => int_limited s'
  end.

End PyStr.

(** ** Python's [re]: pattern syntax and backtracking matcher

    [parse] follows the recursive-descent parser of the standard library
    on the syntax the parsers of this repository use (literals, [.], [^],
    escapes of punctuation, [\d], [\s], bracketed sets with ranges,
    capturing and [(?:...)] groups, [|], the repeats [*], [+], [?] and
    their lazy forms).  It answers [Raise] where Python raises [re.error]
    and [Beyond] on every other construct.  The matcher explores
    alternatives in Python's priority order and returns the first
    success. *)

Module Re.

Inductive item : Type :=
| ILit (c : ascii)            (* a literal character inside a set *)
| IRange (lo hi : ascii)      (* lo-hi *)
| IDigit                      (* \d *)
| ISpace.                     (* \s *)

Inductive regex : Type :=
| Empty                                   (* the empty pattern *)
| Lit (c : ascii)                         (* one literal character *)
| Any                                     (* .  (no DOTALL) *)
| Set_ (negate : bool) (items : list item) (* [...], [^...], \d, \s *)
| Bol                                     (* ^  (no MULTILINE) *)
| Seq (r1 r2 : regex)
| Alt (r1 r2 : regex)
| Rep (lo : nat) (hi : option nat) (greedy : bool) (r : regex)
| Grp (n : option nat) (r : regex).       (* (...) numbered, (?:...) not *)

Definition item_mem (c : ascii) (it : item) : bool :=
  match it with
  | ILit d => Ascii.eqb c d
  | IRange lo hi => (PyStr.ord lo <=? PyStr.ord c)%nat && (PyStr.ord c <=? PyStr.ord hi)%nat
  | IDigit => PyStr.isdigit_char c
  | ISpace => PyStr.isspace_char c
  end.

Definition set_mem (negate : bool) (items : list item) (c : ascii) : bool :=
  xorb negate (existsb (item_mem c) items).

(** *** Matching *)

(** Group spans, most recent binding first. *)
Definition spans := list (nat * (nat * nat)).

Fixpoint span_of (n : nat) (g : spans) : option (nat * nat) :=
  match g with
  | [] => None
  | (m, sp) :: g' => if (m =? n)%nat then Some sp else span_of n g'
  end.

(** A continuation receives the position reached, the text still to be
    read and the groups closed so far. *)
Definition cont := nat -> string -> spans -> option (nat * spans).

Definition or_else {A : Type} (a b : option A) : option A :=
  match a with Some _ => a | None => b end.

Definition below (hi : option nat) (count : nat) : bool :=
  match hi with None => true | Some h => (count <? h)%nat end.

Fixpoint run (r : regex) (i : nat) (s : string) (g : spans) (k : cont)
  {struct r} : option (nat * spans) :=
  match r with
  | Empty => k i s g
  | Lit c =>
      match s with
      | String d s' => if Ascii.eqb d c then k (S i) s' g else None
      | EmptyString => None
      end
  | Any =>
      match s with
      | String d s' => if Ascii.eqb d "010" then None else k (S i) s' g
      | EmptyString => None
      end
  | Set_ negate items =>
      match s with
      | String d s' => if set_mem negate items d then k (S i) s' g else None
      | EmptyString => None
      end
  | Bol => if (i =? 0)%nat then k i s g else None
  | Seq r1 r2 => run r1 i s g (fun i' s' g' => run r2 i' s' g' k)
  | Alt r1 r2 => or_else (run r1 i s g k) (run r2 i s g k)
  | Grp None r1 => run r1 i s g k
  | Grp (Some n) r1 => run r1 i s g (fun i' s' g' => k i' s' ((n, (i, i')) :: g'))
  | Rep lo hi greedy r1 =>
      (fix loop (fuel count i : nat) (s : string) (g : spans) {struct fuel}
         : option (nat * spans) :=
         let stop := if (lo <=? count)%nat then k i s g else None in
         let more :=
           match fuel with
           | O => None
           | S fuel' =>
               if below hi count
               then run r1 i s g
                      (fun i' s' g' =>
                         (* an iteration that reads nothing is not repeated *)
                         if (i' =? i)%nat then None
                         else loop fuel' (S count) i' s' g')
               else None
           end in
         if greedy then or_else more stop else or_else stop more)
        (S (String.length s)) 0%nat i s g
  end.

(** A match object: the subject, the span of group 0 and of the
    numbered groups. *)
Record mobj : Type := Match {
  subject : string;
  start_ : nat;
  end_ : nat;
  groups : spans
}.

(** [m.group(n)] for a group that took part in the match. *)
Definition group (m : mobj) (n : nat) : option string :=
  match n with
  | O => Some (PyStr.take (end_ m - start_ m) (PyStr.drop (start_ m) (subject m)))
  | _ => match span_of n (groups m) with
         | Some (a, b) => Some (PyStr.take (b - a) (PyStr.drop a (subject m)))
         | None => None
         end
  end.

(** One attempt at position [i], where [s] is the subject from [i] on.
    With [must_advance] an empty match is refused. *)
Definition match_at (r : regex) (whole : string) (i : nat) (s : string)
    (must_advance : bool) : option mobj :=
  match run r i s []
          (fun j _ g => if must_advance && (j =? i)%nat then None else Some (j, g))
  with
  | Some (j, g) => Some (Match whole i j g)
  | None => None
  end.

(** The scan of [search]: the leftmost position with a match;
    [must_advance] only constrains the first position tried. *)
Fixpoint scan (r : regex) (whole : string) (i : nat) (s : string)
    (must_advance : bool) : option mobj :=
  match match_at r whole i s must_advance with
  | Some m => Some m
  | None =>
      match s with
      | EmptyString => None
      | String _ s' => scan r whole (S i) s' false
      end
  end.

(** The successive matches that [sub] and [split] iterate over: after a
    match the scan resumes at its end, and after an empty match it must
    advance. *)
Fixpoint matches_from (fuel : nat) (r : regex) (whole : string) (i : nat)
    (must_advance : bool) : list mobj :=
  match fuel with
  | O => []
  | S fuel' =>
      match scan r whole i (PyStr.drop i whole) must_advance with
      | None => []
      | Some m =>
          m :: matches_from fuel' r whole (end_ m)
                 ((end_ m =? start_ m)%nat)
      end
  end.

Definition all_matches (r : regex) (whole : string) : list mobj :=
  matches_from (2 * String.length whole + 2) r whole 0 false.

Definition slice (a b : nat) (s : string) : string :=
  PyStr.take (b - a) (PyStr.drop a s).

(** Compiled [sub] with a replacement function. *)
Fixpoint sub_loop (repl : mobj -> string) (whole : string) (from : nat)
    (ms : list mobj) : string :=
  match ms with
  | [] => PyStr.drop from whole
  | m :: ms' =>
      slice from (start_ m) whole +:+ repl m
        +:+ sub_loop repl whole (end_ m) ms'
  end.

Definition sub_with (r : regex) (repl : mobj -> string) (s : string) : string :=
  sub_loop repl s 0 (all_matches r s).

(** Compiled [split], for a pattern without capturing groups. *)
Fixpoint split_loop (whole : string) (from : nat) (ms : list mobj)
  : list string :=
  match ms with
  | [] => [PyStr.drop from whole]
  | m :: ms' => slice from (start_ m) whole :: split_loop whole (end_ m) ms'
  end.

Definition split_with (r : regex) (s : string) : list string :=
  split_loop s 0 (all_matches r s).

(** *** Pattern syntax *)

Definition isalnum_char (c : ascii) : bool :=
  PyStr.between 48 57 c || PyStr.between 65 90 c || PyStr.between 97 122 c.

(** A backslash escape outside a set. *)
Definition escape (e : ascii) : exc regex :=
  if Ascii.eqb e "d" then Ok (Set_ false [IDigit])
  else if Ascii.eqb e "s" then Ok (Set_ false [ISpace])
  else if isalnum_char e then Beyond
  else Ok (Lit e).

(** A backslash escape inside a set. *)
Definition class_escape (e : ascii) : exc item :=
  if Ascii.eqb e "d" then Ok IDigit
  else if Ascii.eqb e "s" then Ok ISpace
  else if isalnum_char e then Beyond
  else Ok (ILit e).

(** One member of a set: a character or an escape. *)
Definition set_member (s : string) : exc (item * string) :=
  match s with
  | EmptyString => Raise                       (* unterminated character set *)
  | String "\" EmptyString => Raise            (* bad escape (end of pattern) *)
  | String "\" (String e s') => do it <- class_escape e; Ok (it, s')
  | String c s' => Ok (ILit c, s')
  end.

(** The members of a set up to its closing bracket; [acc] holds the
    members read so far, last first.  A bracket that comes first is a
    member. *)
Fixpoint parse_set (fuel : nat) (acc : list item) (s : string)
  : exc (list item * string) :=
  match fuel with
  | O => Beyond
  | S fuel' =>
      match s, acc with
      | EmptyString, _ => Raise                (* unterminated character set *)
      | String "]" s', _ :: _ => Ok (rev acc, s')
      | _, _ =>
          do '(code1, s1) <- set_member s;
          match s1 with
          | String "-" EmptyString => Raise
          | String "-" (String "]" s2) => Ok (rev (ILit "-" :: code1 :: acc), s2)
          | String "-" s2 =>
              do '(code2, s3) <- set_member s2;
              match code1, code2 with
              | ILit lo, ILit hi =>
                  if (PyStr.ord hi <? PyStr.ord lo)%nat then Raise (* bad character range *)
                  else parse_set fuel' (IRange lo hi :: acc) s3
              | _, _ => Raise                  (* bad character range *)
              end
          | _ => parse_set fuel' (code1 :: acc) s1
          end
      end
  end.

Fixpoint seq_of (items : list regex) : regex :=
  match items with
  | [] => Empty
  | [r] => r
  | r :: rs => Seq r (seq_of rs)
  end.

Definition repeat_bounds (c : ascii) : nat * option nat :=
  if Ascii.eqb c "?" then (0, Some 1)%nat
  else if Ascii.eqb c "*" then (0, None)%nat
  else (1, None)%nat.

(** [parse_sub] reads alternatives separated by [|]; [parse_items] reads
    one alternative, [acc] holding its items so far, last first.  Both
    stop in front of [)] and at the end of the pattern; [gc] counts the
    capturing groups opened so far. *)
Fixpoint parse_sub (fuel : nat) (gc : nat) (s : string)
  : exc (regex * nat * string) :=
  match fuel with
  | O => Beyond
  | S fuel' =>
      do '(items, gc1, s1) <- parse_items fuel' gc [] s;
      match s1 with
      | String "|" s2 =>
          do '(r2, gc2, s3) <- parse_sub fuel' gc1 s2;
          Ok (Alt (seq_of items) r2, gc2, s3)
      | _ => Ok (seq_of items, gc1, s1)
      end
  end
with parse_items (fuel : nat) (gc : nat) (acc : list regex) (s : string)
  : exc (list regex * nat * string) :=
  match fuel with
  | O => Beyond
  | S fuel' =>
      match s with
      | EmptyString => Ok (rev acc, gc, s)
      | String c s' =>
          if Ascii.eqb c "|" || Ascii.eqb c ")" then Ok (rev acc, gc, s)
          else if Ascii.eqb c "\" then
            match s' with
            | EmptyString => Raise             (* bad escape (end of pattern) *)
            | String e s'' =>
                do r <- escape e; parse_items fuel' gc (r :: acc) s''
            end
          else if Ascii.eqb c "[" then
            let '(negate, s1) :=
              match s' with
              | String "^" t => (true, t)
              | _ => (false, s')
              end in
            do '(items, s2) <- parse_set fuel' [] s1;
            parse_items fuel' gc (Set_ negate items :: acc) s2
          else if PyStr.mem_char c "*+?" then
            let '(lo, hi) := repeat_bounds c in
            match acc with
            | [] => Raise                      (* nothing to repeat *)
            | Bol :: _ => Raise                (* nothing to repeat *)
            | Rep _ _ _ _ :: _ => Raise        (* multiple repeat *)
            | it :: acc' =>
                match s' with
                | String "?" s'' => parse_items fuel' gc (Rep lo hi false it :: acc') s''
                | String "+" _ => Beyond       (* possessive repeat *)
                | _ => parse_items fuel' gc (Rep lo hi true it :: acc') s'
                end
            end
          else if Ascii.eqb c "{" then Beyond
          else if Ascii.eqb c "." then parse_items fuel' gc (Any :: acc) s'
          else if Ascii.eqb c "(" then
            match s' with
            | String "?" (String ":" s1) =>
                do '(r, gc1, s2) <- parse_sub fuel' gc s1;
                match s2 with
                | String ")" s3 => parse_items fuel' gc1 (Grp None r :: acc) s3
                | _ => Raise                   (* missing ) *)
                end
            | String "?" _ => Beyond
            | _ =>
                do '(r, gc1, s2) <- parse_sub fuel' (S gc) s';
                match s2 with
                | String ")" s3 =>
                    parse_items fuel' gc1 (Grp (Some (S gc)) r :: acc) s3
                | _ => Raise                   (* missing ) *)
                end
            end
          else if Ascii.eqb c "^" then parse_items fuel' gc (Bol :: acc) s'
          else if Ascii.eqb c "$" then Beyond
          else parse_items fuel' gc (Lit c :: acc) s'
      end
  end.

(** The characters that have a meaning of their own in a pattern. *)
Definition special_char (c : ascii) : bool := PyStr.mem_char c ".\[{()*+?^$|".

(** The pattern items of a text read as literal characters. *)
Fixpoint literals (text : string) : list regex :=
  match text with
  | EmptyString => []
  | String c text' => Lit c :: literals text'
  end.

(** A text without special characters. *)
Definition plain (text : string) : Prop :=
  PyStr.all_chars (fun c => negb (special_char c)) text = true.

(** [re.compile(pattern)] *)
Definition parse (pattern : string) : exc regex :=
  do '(r, _, rest) <- parse_sub (2 * String.length pattern + 3) 0 pattern;
  match rest with
  | EmptyString => Ok r
  | _ => Raise                                 (* unbalanced parenthesis *)
  end.

(** [re.match(pattern, s)] *)
Definition re_match (pattern s : string) : exc (option mobj) :=
  do r <- parse pattern; Ok (match_at r s 0 s false).

(** [re.sub(pattern, repl, s)] for a replacement without backslashes *)
Definition re_sub (pattern repl s : string) : exc string :=
  do r <- parse pattern; Ok (sub_with r (fun _ => repl) s).

(** [re.split(pattern, s)] for a pattern without capturing groups *)
Definition re_split (pattern s : string) : exc (list string) :=
  do r <- parse pattern; Ok (split_with r s).

End Re.

(** ** [html.unescape]

    The standard-library function, on the text domain of this file: the
    entries of [html.entities.html5] whose replacement lies below code
    point 256 are listed in [html5].  A reference whose replacement lies
    above code point 255 has no counterpart here: a numeric one is left
    as it stands, a named one is read by its longest listed prefix, if it
    has one, and is left as it stands otherwise.  On a text that holds
    such a reference [unescape] is not the library function, and no
    statement below is about the decoding of such a reference. *)

Module Html.
Import Re.

Definition chars (codes : list nat) : string :=
  fold_right (fun n s => String (ascii_of_nat n) s) EmptyString codes.

Definition html5 : list (string * list nat) :=
 [
  ("AElig", [198]); ("AElig;", [198]); ("AMP", [38]); ("AMP;", [38]);
  ("Aacute", [193]); ("Aacute;", [193]); ("Acirc", [194]);
  ("Acirc;", [194]); ("Agrave", [192]); ("Agrave;", [192]);
  ("Aring", [197]); ("Aring;", [197]); ("Atilde", [195]);
  ("Atilde;", [195]); ("Auml", [196]); ("Auml;", [196]); ("COPY", [169]);
  ("COPY;", [169]); ("Ccedil", [199]); ("Ccedil;", [199]);
  ("Cedilla;", [184]); ("CenterDot;", [183]); ("DiacriticalAcute;", [180]);
  ("DiacriticalGrave;", [96]); ("Dot;", [168]); ("DoubleDot;", [168]);
  ("ETH", [208]); ("ETH;", [208]); ("Eacute", [201]); ("Eacute;", [201]);
  ("Ecirc", [202]); ("Ecirc;", [202]); ("Egrave", [200]);
  ("Egrave;", [200]); ("Euml", [203]); ("Euml;", [203]); ("GT", [62]);
  ("GT;", [62]); ("Hat;", [94]); ("Iacute", [205]); ("Iacute;", [205]);
  ("Icirc", [206]); ("Icirc;", [206]); ("Igrave", [204]);
  ("Igrave;", [204]); ("Iuml", [207]); ("Iuml;", [207]); ("LT", [60]);
  ("LT;", [60]); ("NewLine;", [10]); ("NonBreakingSpace;", [160]);
  ("Ntilde", [209]); ("Ntilde;", [209]); ("Oacute", [211]);
  ("Oacute;", [211]); ("Ocirc", [212]); ("Ocirc;", [212]);
  ("Ograve", [210]); ("Ograve;", [210]); ("Oslash", [216]);
  ("Oslash;", [216]); ("Otilde", [213]); ("Otilde;", [213]);
  ("Ouml", [214]); ("Ouml;", [214]); ("PlusMinus;", [177]); ("QUOT", [34]);
  ("QUOT;", [34]); ("REG", [174]); ("REG;", [174]); ("THORN", [222]);
  ("THORN;", [222]); ("Tab;", [9]); ("Uacute", [218]); ("Uacute;", [218]);
  ("Ucirc", [219]); ("Ucirc;", [219]); ("Ugrave", [217]);
  ("Ugrave;", [217]); ("UnderBar;", [95]); ("Uuml", [220]);
  ("Uuml;", [220]); ("VerticalLine;", [124]); ("Yacute", [221]);
  ("Yacute;", [221]); ("aacute", [225]); ("aacute;", [225]);
  ("acirc", [226]); ("acirc;", [226]); ("acute", [180]); ("acute;", [180]);
  ("aelig", [230]); ("aelig;", [230]); ("agrave", [224]);
  ("agrave;", [224]); ("amp", [38]); ("amp;", [38]); ("angst;", [197]);
  ("apos;", [39]); ("aring", [229]); ("aring;", [229]); ("ast;", [42]);
  ("atilde", [227]); ("atilde;", [227]); ("auml", [228]); ("auml;", [228]);
  ("brvbar", [166]); ("brvbar;", [166]); ("bsol;", [92]);
  ("ccedil", [231]); ("ccedil;", [231]); ("cedil", [184]);
  ("cedil;", [184]); ("cent", [162]); ("cent;", [162]);
  ("centerdot;", [183]); ("circledR;", [174]); ("colon;", [58]);
  ("comma;", [44]); ("commat;", [64]); ("copy", [169]); ("copy;", [169]);
  ("curren", [164]); ("curren;", [164]); ("deg", [176]); ("deg;", [176]);
  ("die;", [168]); ("div;", [247]); ("divide", [247]); ("divide;", [247]);
  ("dollar;", [36]); ("eacute", [233]); ("eacute;", [233]);
  ("ecirc", [234]); ("ecirc;", [234]); ("egrave", [232]);
  ("egrave;", [232]); ("equals;", [61]); ("eth", [240]); ("eth;", [240]);
  ("euml", [235]); ("euml;", [235]); ("excl;", [33]);
  ("fjlig;", [102; 106]); ("frac12", [189]); ("frac12;", [189]);
  ("frac14", [188]); ("frac14;", [188]); ("frac34", [190]);
  ("frac34;", [190]); ("grave;", [96]); ("gt", [62]); ("gt;", [62]);
  ("half;", [189]); ("iacute", [237]); ("iacute;", [237]);
  ("icirc", [238]); ("icirc;", [238]); ("iexcl", [161]); ("iexcl;", [161]);
  ("igrave", [236]); ("igrave;", [236]); ("iquest", [191]);
  ("iquest;", [191]); ("iuml", [239]); ("iuml;", [239]); ("laquo", [171]);
  ("laquo;", [171]); ("lbrace;", [123]); ("lbrack;", [91]);
  ("lcub;", [123]); ("lowbar;", [95]); ("lpar;", [40]); ("lsqb;", [91]);
  ("lt", [60]); ("lt;", [60]); ("macr", [175]); ("macr;", [175]);
  ("micro", [181]); ("micro;", [181]); ("midast;", [42]);
  ("middot", [183]); ("middot;", [183]); ("nbsp", [160]); ("nbsp;", [160]);
  ("not", [172]); ("not;", [172]); ("ntilde", [241]); ("ntilde;", [241]);
  ("num;", [35]); ("oacute", [243]); ("oacute;", [243]); ("ocirc", [244]);
  ("ocirc;", [244]); ("ograve", [242]); ("ograve;", [242]);
  ("ordf", [170]); ("ordf;", [170]); ("ordm", [186]); ("ordm;", [186]);
  ("oslash", [248]); ("oslash;", [248]); ("otilde", [245]);
  ("otilde;", [245]); ("ouml", [246]); ("ouml;", [246]); ("para", [182]);
  ("para;", [182]); ("percnt;", [37]); ("period;", [46]); ("plus;", [43]);
  ("plusmn", [177]); ("plusmn;", [177]); ("pm;", [177]); ("pound", [163]);
  ("pound;", [163]); ("quest;", [63]); ("quot", [34]); ("quot;", [34]);
  ("raquo", [187]); ("raquo;", [187]); ("rbrace;", [125]);
  ("rbrack;", [93]); ("rcub;", [125]); ("reg", [174]); ("reg;", [174]);
  ("rpar;", [41]); ("rsqb;", [93]); ("sect", [167]); ("sect;", [167]);
  ("semi;", [59]); ("shy", [173]); ("shy;", [173]); ("sol;", [47]);
  ("strns;", [175]); ("sup1", [185]); ("sup1;", [185]); ("sup2", [178]);
  ("sup2;", [178]); ("sup3", [179]); ("sup3;", [179]); ("szlig", [223]);
  ("szlig;", [223]); ("thorn", [254]); ("thorn;", [254]); ("times", [215]);
  ("times;", [215]); ("uacute", [250]); ("uacute;", [250]);
  ("ucirc", [251]); ("ucirc;", [251]); ("ugrave", [249]);
  ("ugrave;", [249]); ("uml", [168]); ("uml;", [168]); ("uuml", [252]);
  ("uuml;", [252]); ("verbar;", [124]); ("vert;", [124]);
  ("yacute", [253]); ("yacute;", [253]); ("yen", [165]); ("yen;", [165]);
  ("yuml", [255]); ("yuml;", [255])

 ].

Fixpoint lookup (name : string) (table : list (string * list nat))
  : option string :=
  match table with
  | [] => None
  | (k, v) :: table' =>
      if String.eqb k name then Some (chars v) else lookup name table'
  end.

Definition opt (r : regex) : regex := Rep 0 (Some 1) true r.
Definition some (r : regex) : regex := Rep 1 None true r.

(** [&(#[0-9]+;?|#[xX][0-9a-fA-F]+;?|[^\t\n\f <&#;]{1,32};?)] *)
Definition charref : regex :=
  Seq (Lit "&")
    (Grp (Some 1)
       (Alt (seq_of [Lit "#"; some (Set_ false [IRange "0" "9"]); opt (Lit ";")])
       (Alt (seq_of [Lit "#"; Set_ false [ILit "x"; ILit "X"];
                     some (Set_ false [IRange "0" "9"; IRange "a" "f"; IRange "A" "F"]);
                     opt (Lit ";")])
            (seq_of [Rep 1 (Some 32) true
                       (Set_ true [ILit "009"; ILit "010"; ILit "012"; ILit " ";
                                   ILit "<"; ILit "&"; ILit "#"; ILit ";"]);
                     opt (Lit ";")])))).

Definition hex_value (c : ascii) : N :=
  let n := N.of_nat (PyStr.ord c) in
  if PyStr.between 48 57 c then n - 48
  else if PyStr.between 97 102 c then n - 87
  else n - 55.

(** [int(digits, base)] on text the pattern has already checked *)
Fixpoint number (base acc : N) (digits : string) : N :=
  match digits with
  | EmptyString => acc
  | String c digits' => number base (base * acc + hex_value c) digits'
  end.

Definition invalid_codepoint (num : N) : bool :=
  ((1 <=? num) && (num <=? 8) || (num =? 11) || (14 <=? num) && (num <=? 31)
   || (127 <=? num) && (num <=? 159)
   || (64976 <=? num) && (num <=? 65007)
   || (N.land num 65534 =? 65534) && (num <=? 1114111))%N.

(** The replacement of one numeric reference; [None] when the
    replacement is a code point above 255. *)
Definition numeric (num : N) : option string :=
  if (num =? 13)%N then Some (chars [13])
  else if existsb (N.eqb num) [129; 141; 143; 144; 157]%N
  then Some (chars [N.to_nat num])
  else if ((num =? 0) || (128 <=? num) && (num <=? 159))%N then None
  else if ((55296 <=? num) && (num <=? 57343) || (1114111 <? num))%N then None
  else if invalid_codepoint num then Some EmptyString
  else if (num <? 256)%N then Some (chars [N.to_nat num])
  else None.

(** The longest proper prefix [s[:x]], [x] from [len(s)-1] down to 2,
    that names an entity. *)
Fixpoint longest_prefix (x : nat) (s : string) : option string :=
  match x with
  | O | 1%nat => None
  | S x' =>
      match lookup (PyStr.take x s) html5 with
      | Some v => Some (v +:+ PyStr.drop x s)
      | None => longest_prefix x' s
      end
  end.

(** [_replace_charref], applied to group 1 of a match of [charref] *)
Definition replace_charref (s : string) : string :=
  match s with
  | String "#" rest =>
      let num :=
        match rest with
        | String x digits =>
            if PyStr.mem_char x "xX"
            then number 16 0 (PyStr.rstrip_chars ";" digits)
            else number 10 0 (PyStr.rstrip_chars ";" rest)
        | EmptyString => 0%N
        end in
      match numeric num with
      | Some v => v
      | None => String "&" s
      end
  | _ =>
      match lookup s html5 with
      | Some v => v
      | None =>
          match longest_prefix (String.length s - 1) s with
          | Some v => v
          | None => String "&" s
          end
      end
  end.

Definition unescape (s : string) : string :=
  if negb (PyStr.mem_char "&" s) then s
  else sub_with charref
         (fun m => match group m 1 with
                   | Some g => replace_charref g
                   | None => EmptyString
                   end) s.

End Html.

(** ** BeautifulSoup trees

    A parsed document is a tree of tags and text strings.  Attributes,
    comments and the parsing of markup itself are not represented: the
    parsers below only query names and text.  A [Text] is a string that
    [get_text] counts as text; the contents of [script], [style] and
    [template] tags, which it skips, are not represented either. *)

Module Dom.

#[local] Set Warnings "-register-all".
Inductive node : Type :=
| Text (s : string)
| Tag (name : string) (children : list node).

(** The nodes below [n], in document order. *)
Fixpoint descendants (n : node) : list node :=
  match n with
  | Text _ => []
  | Tag _ children => flat_map (fun c => c :: descendants c) children
  end.

Definition is_tag (name : string) (n : node) : bool :=
  match n with
  | Tag m _ => String.eqb m name
  | Text _ => false
  end.

(** [n.find_all(name)] and [n.find(name)] *)
Definition find_all (name : string) (n : node) : list node :=
  List.filter (is_tag name) (descendants n).

Definition find (name : string) (n : node) : option node :=
  List.hd_error (find_all name n).

(** The text strings below (or at) [n], in document order. *)
Fixpoint strings (n : node) : list string :=
  match n with
  | Text s => [s]
  | Tag _ children => flat_map strings children
  end.

(** [n.get_text()] *)
Definition get_text (n : node) : string :=
  String.concat EmptyString (strings n).

(** [n.get_text(strip=True)]: every string is stripped, the empty ones
    are skipped, the rest joined without separator. *)
Definition get_text_strip (n : node) : string :=
  String.concat EmptyString
    (List.filter PyStr.nonempty (List.map PyStr.strip (strings n))).

End Dom.

(** ** Truthiness filters of the [{key: value ... if value}] comprehensions

    A field of a definition is [None] when its key is left out. *)

Definition keep_str (value : string) : option string :=
  if PyStr.nonempty value then Some value else None.

Definition keep_opt (value : option string) : option string :=
  match value with
  | Some v => keep_str v
  | None => None
  end.

Definition keep_list (value : list string) : option (list string) :=
  match value with
  | [] => None
  | _ => Some value
  end.

(** ** [src/dictionaries/gcide/parser.py] *)

Module Gcide.
Import Dom.

Record definition : Type := Definition_ {
  description : option string;
  pos : option string;
  origin : option string;
  synonyms : option (list string);
  antonyms : option (list string);
  examples : option (list string);
  source_title : option string
}.

(** [{"word": word, "definitions": definitions}]; [word] is [None] when
    the paragraph has no [ent] node. *)
Record parsed_entry : Type := Entry {
  word : option string;
  definitions : list definition
}.

(** The text of a [def] node as [process_entry] reads it. *)
Definition def_text (d : node) : string :=
  Html.unescape (get_text_strip d).

(** The same on a node that holds the single string [text]: the string
    is stripped, then its character references are decoded. *)
Definition unescapeAndTrim (text : string) : string :=
  Html.unescape (PyStr.strip text).

(** [process_entry]: no operation in its body raises on a tree, so the
    [except] branch, the only one that returns [None], is never taken. *)
Definition process_entry (entry : node) : option parsed_entry :=
  let word :=
    match find "ent" entry with
    | Some word_xml => Some (get_text_strip word_xml)
    | None => None
    end in
  let pos_xml := find "pos" entry in
  let descriptions_xml := find_all "def" entry in
  let origin_xml := find "ety" entry in
  let synonyms_xml := find "syn" entry in
  let antonyms_xml := find "ant" entry in
  let sources_xml := find_all "source" entry in
  let example_xml :=
    match find "qex" entry with
    | Some _ => find "q" entry
    | None => None
    end in
  let pos := option_map get_text_strip pos_xml in
  let descriptions := List.map def_text descriptions_xml in
  let origin :=
    option_map (fun x => Html.unescape (PyStr.strip_chars " []" (get_text x)))
      origin_xml in
  let synonyms :=
    match synonyms_xml with
    | Some x =>
        List.map (fun word => PyStr.lower (PyStr.strip word))
          (PyStr.split_char ","
             (PyStr.replace "Syn. --" EmptyString (get_text_strip x)))
    | None => []
    end in
  let antonyms :=
    match antonyms_xml with
    | Some x =>
        List.map (fun word => PyStr.lower (PyStr.strip word))
          (PyStr.split_char ";" (get_text_strip x))
    | None => []
    end in
  let source :=
    match sources_xml with
    | x :: _ => get_text_strip x
    | [] => EmptyString
    end in
  let examples :=
    match example_xml with
    | Some x => [Html.unescape (get_text_strip x)]
    | None => []
    end in
  let definitions :=
    List.map
      (fun description =>
         {| description := keep_str description;
            pos := keep_opt pos;
            origin := keep_opt origin;
            synonyms := keep_list synonyms;
            antonyms := keep_list antonyms;
            examples := keep_list examples;
            source_title := keep_str source |})
      descriptions in
  Some {| word := word; definitions := definitions |}.

(** [new_entry.get("word")] is truthy: a headword is present. *)
Definition has_word (e : parsed_entry) : bool :=
  match word e with
  | Some w => PyStr.nonempty w
  | None => false
  end.

(** [data[-1]["definitions"].extend(more)] *)
Fixpoint extend_last (data : list parsed_entry) (more : list definition) : list parsed_entry :=
  match data with
  | [] => []
  | [e] => [{| word := word e; definitions := definitions e ++ more |}]
  | e :: data' => e :: extend_last data' more
  end.

(** The body of the loop of [process_letter], given what
    [process_entry] returned. *)
Definition merge_step (data : list parsed_entry) (new_entry : option parsed_entry) : list parsed_entry :=
  match new_entry with
  | None => data
  | Some new_entry =>
      if has_word new_entry then data ++ [new_entry]
      else if (1 <=? List.length data)%nat
      then extend_last data (definitions new_entry)
      else data
  end.

(** The Fragment Merger: the loop over the normalized results. *)
Definition merge (results : list (option parsed_entry)) : list parsed_entry :=
  fold_left merge_step results [].

(** [process_letter]: [document] is the parsed file of the letter, or
    [None] when the file cannot be read. *)
Definition process_letter (document : option node) : list parsed_entry :=
  match document with
  | None => []
  | Some soup =>
      fold_left (fun data entry => merge_step data (process_entry entry))
        (find_all "p" soup) []
  end.

(** [parse]: the results of the letters, in the order the pool yields
    them, are appended to [parsed_data]. *)
Definition parse (parsed_data : list parsed_entry) (documents : list (option node))
  : list parsed_entry :=
  parsed_data ++ flat_map process_letter documents.

(** *** Export *)

(** Code-point order of [str]. *)
Fixpoint str_leb (a b : string) : bool :=
  match a, b with
  | EmptyString, _ => true
  | String _ _, EmptyString => false
  | String c a', String d b' =>
      if (PyStr.ord c <? PyStr.ord d)%nat then true
      else if (PyStr.ord d <? PyStr.ord c)%nat then false
      else str_leb a' b'
  end.

(** [list.sort(key=...)] is stable: among equal keys the earlier element
    stays first.  Insertion from the right end computes that order. *)
Section StableSort.
Context {A : Type} (key : A -> string).

Fixpoint insert_sorted (x : A) (l : list A) : list A :=
  match l with
  | [] => [x]
  | y :: l' =>
      if str_leb (key x) (key y) then x :: l
      else y :: insert_sorted x l'
  end.

Definition sort_by (l : list A) : list A :=
  fold_right insert_sorted [] l.

(** The order the keys are compared in. *)
Definition key_le (a b : A) : Prop := str_leb (key a) (key b) = true.
End StableSort.

(** [entry["word"].lower()]; [None] when the entry has no word, where
    Python raises [AttributeError]. *)
Definition sort_key (e : parsed_entry) : option string :=
  option_map PyStr.lower (word e).

Definition key_or_empty (e : parsed_entry) : string :=
  match sort_key e with Some k => k | None => EmptyString end.

Record meta : Type := Meta {
  lang : string;
  definition_lang : string;
  total_entries : nat;
  meta_source_title : string;
  source_link : string
}.

Inductive exported : Type :=
| NoData                                        (* "No data to export." *)
| Written (m : meta) (entries : list parsed_entry).    (* the document handed to [json.dump] *)

(** [export_parsed_data], up to the call of [json.dump]. *)
Definition export_parsed_data (parsed_data : list parsed_entry) : exc exported :=
  match parsed_data with
  | [] => Ok NoData
  | _ =>
      if forallb (fun e => match sort_key e with Some _ => true | None => false end)
           parsed_data
      then
        let parsed_data := sort_by key_or_empty parsed_data in
        Ok (Written
              {| lang := "eng"; definition_lang := "eng";
                 total_entries := List.length parsed_data;
                 meta_source_title := "GCIDE";
                 source_link := "https://ibiblio.org/webster/" |}
              parsed_data)
      else Raise
  end.

End Gcide.

(** ** [src/dictionaries/pinoy_dictionary/parser.py] *)

Module Pinoy.
Import Dom.

(** A scraped record.  [word] is [None] when the key is missing;
    [definition] is the tree [BeautifulSoup(entry.get("definition", ""),
    "html.parser")] builds (no children for a missing or empty value);
    [source] is [entry.get("source", "")]. *)
Record raw_entry : Type := Raw {
  raw_word : option string;
  raw_definition : node;
  raw_source : string
}.

Record definition : Type := Definition_ {
  description : option string;
  pos : option string;
  inflections : option (list string);
  source_link : option string
}.

Record parsed_entry : Type := Entry {
  word : string;
  definitions : list definition
}.

(** Lines 75-78: asides in parentheses are removed from the word, and of
    a comma-separated list the first item is kept. *)
Definition clean_word (word : string) : exc string :=
  do word <- Re.re_sub "\(.+?\)" EmptyString word;
  let word := PyStr.strip word in
  if PyStr.mem_char "," word
  then Ok (PyStr.strip (List.hd EmptyString (PyStr.split_char "," word)))
  else Ok word.

(** Line 81: the word-prefix stripper.  The word is spliced into the
    pattern as it is. *)
Definition strip_word_prefix (word full_definition : string) : exc string :=
  do full_definition <- Re.re_sub ("^" +:+ word) EmptyString full_definition;
  Ok (PyStr.lstrip_chars " .,;:!?" full_definition).

(** Lines 85-95: the inflection extractor, returning the inflections and
    the remaining definition text. *)
Definition extract_inflections (full_definition : string)
  : exc (list string * string) :=
  do inflection_match <-
    Re.re_match "^\(([^\(\)]*(?:\(.+?\))?[^\(\)]*)\)" full_definition;
  match inflection_match with
  | Some m =>
      match Re.group m 1 with
      | Some g =>
          let inflections_str := PyStr.strip (PyStr.replace_char "." "," g) in
          let inflections :=
            List.map PyStr.strip (PyStr.split_char "," inflections_str) in
          Ok (inflections,
              PyStr.strip
                (PyStr.drop (String.length ("(" +:+ inflections_str +:+ ")"))
                   full_definition))
      | None => Raise
      end
  | None => Ok ([], full_definition)
  end.

(** Lines 99-102: the part-of-speech extractor. *)
Definition extract_pos (full_definition : string)
  : exc (option string * string) :=
  do pos_match <-
    Re.re_match "^((?:(?:\d\. )?[a-z]+\.,?;? ?)+)" full_definition;
  match pos_match with
  | Some m =>
      match Re.group m 1 with
      | Some g =>
          let pos := PyStr.strip g in
          Ok (Some pos,
              PyStr.strip (PyStr.drop (String.length pos) full_definition))
      | None => Raise
      end
  | None => Ok (None, full_definition)
  end.

(** The dictionary built for one sense (lines 108-117). *)
Definition make_definition (pos : option string) (inflections : list string)
    (source description : string) : definition :=
  {| description := keep_str (PyStr.strip_chars " ;" description);
     pos := keep_opt pos;
     inflections := keep_list inflections;
     source_link := keep_str source |}.

(** Lines 106-123: the definition-description splitter. *)
Definition split_definitions (pos : option string) (inflections : list string)
    (source full_definition : string) : exc (list definition) :=
  if PyStr.nonempty full_definition then
    do pieces <- Re.re_split "\d+(?:\.|\))\s*" full_definition;
    Ok (List.map (make_definition pos inflections source)
          (List.filter PyStr.nonempty pieces))
  else Ok [].

Definition process_entry (entry : raw_entry) : exc (option parsed_entry) :=
  try_except
    (match raw_word entry with
     | None => Ok None
     | Some word =>
         if negb (PyStr.nonempty word) || PyStr.isspace word then Ok None
         else
           let full_definition := get_text_strip (raw_definition entry) in
           let source := raw_source entry in
           do word <- clean_word word;
           do full_definition <- strip_word_prefix word full_definition;
           do '(inflections, full_definition) <- extract_inflections full_definition;
           do '(pos, full_definition) <- extract_pos full_definition;
           do definitions <- split_definitions pos inflections source full_definition;
           Ok (Some {| word := word; definitions := definitions |})
     end)
    None.

(** [parse]: every record that normalizes to an entry is appended. *)
Fixpoint parse (raw_data : list raw_entry) (parsed_data : list parsed_entry)
  : exc (list parsed_entry) :=
  match raw_data with
  | [] => Ok parsed_data
  | entry :: raw_data' =>
      do processed_entry <- process_entry entry;
      match processed_entry with
      | Some e => parse raw_data' (parsed_data ++ [e])
      | None => parse raw_data' parsed_data
      end
  end.

(** A record whose definition markup is the plain text [s]. *)
Definition record (word s source : string) : raw_entry :=
  {| raw_word := Some word;
     raw_definition := Tag "[document]" [Text s];
     raw_source := source |}.

End Pinoy.

(** ** [src/freqlists/generate_freqlists.py] *)

Module Freq.

(** One language's table and the table of all languages. *)
Abbreviation freq_table := (gmap string Z).
Abbreviation freq_tables := (gmap string (gmap string Z)).

(** Line 45-46: one line of a word list. *)
Definition count_line (table : freq_table) (line : string) : freq_table :=
  let word := PyStr.lower (PyStr.strip line) in
  if PyStr.nonempty word
  then <[word := (default 0 (table !! word) + 1)%Z]> table
  else table.

(** Lines 67-78: one row of the reference file, as [csv.reader] yields
    it, applied to the table of the language.  [None] stands for the
    [KeyError] of [freq_lists[lang]] on a language without table. *)
Definition apply_row (lang : string) (freq_lists : freq_tables)
    (row : list string) : option freq_tables :=
  if (List.length row <? 2)%nat then Some freq_lists
  else
    let word := PyStr.lower (List.nth 1 row EmptyString) in
    match PyStr.int (List.last row EmptyString) with
    | None => Some freq_lists
    | Some freq =>
        match freq_lists !! lang with
        | None => None
        | Some table =>
            match table !! word with
            | Some _ =>
                Some (<[lang := <[word := (default 0 (table !! word) + freq)%Z]> table]>
                        freq_lists)
            | None => Some freq_lists
            end
        end
    end.

Fixpoint apply_rows (lang : string) (freq_lists : freq_tables)
    (rows : list (list string)) : option freq_tables :=
  match rows with
  | [] => Some freq_lists
  | row :: rows' =>
      match apply_row lang freq_lists row with
      | Some freq_lists' => apply_rows lang freq_lists' rows'
      | None => None
      end
  end.

(** [apply_existing_freqlist]: [source_file] holds the rows of the first
    file matching [<lang>_*] in the reference directory, [None] when
    there is none.  The result is the updated table and the returned
    flag. *)
Definition apply_existing_freqlist (freq_lists : freq_tables) (lang : string)
    (source_file : option (list (list string))) : option (freq_tables * bool) :=
  match source_file with
  | None => Some (freq_lists, false)
  | Some rows =>
      match apply_rows lang freq_lists rows with
      | Some freq_lists' => Some (freq_lists', true)
      | None => None
      end
  end.

(** Lines 29-48 for one word-list file whose name yields [lang]:
    [lines] are its lines and [leipzig] finds the reference file. *)
Definition process_wordlist (leipzig : string -> option (list (list string)))
    (freq_lists : freq_tables) (lang : string) (lines : list string)
  : option freq_tables :=
  let freq_lists :=
    match freq_lists !! lang with
    | Some _ => freq_lists
    | None => <[lang := ∅]> freq_lists
    end in
  let table := fold_left count_line lines (default ∅ (freq_lists !! lang)) in
  let freq_lists := <[lang := table]> freq_lists in
  option_map fst (apply_existing_freqlist freq_lists lang (leipzig lang)).

(** [generate_freq_lists] over the word-list files, each given as its
    language and its lines. *)
Fixpoint generate_freq_lists (leipzig : string -> option (list (list string)))
    (files : list (string * list string)) (freq_lists : freq_tables)
  : option freq_tables :=
  match files with
  | [] => Some freq_lists
  | (lang, lines) :: files' =>
      match process_wordlist leipzig freq_lists lang lines with
      | Some freq_lists' => generate_freq_lists leipzig files' freq_lists'
      | None => None
      end
  end.

(** The count one row of the reference file carries for [word]: the
    rows the loop skips, and the rows of other words, carry none. *)
Definition row_count (word : string) (row : list string) : Z :=
  if (List.length row <? 2)%nat then 0%Z
  else
    match PyStr.int (List.last row EmptyString) with
    | Some freq =>
        if String.eqb (PyStr.lower (List.nth 1 row EmptyString)) word
        then freq else 0%Z
    | None => 0%Z
    end.

(** The total count the reference rows carry for [word]. *)
Definition reference_count (word : string) (rows : list (list string)) : Z :=
  fold_right (fun row total => (row_count word row + total)%Z) 0%Z rows.

End Freq.

(** ** Row order of [export_freq_lists]

    The rows of a language are written in the order of
    [sorted(words.items(), key=..., reverse=True)], which depends on the
    insertion order of the [dict].  Here a table is the list of its
    items in insertion order; [to_table] forgets the order. *)

Module FreqOrder.

(** [words.get(word)] *)
Fixpoint get (word : string) (words : list (string * Z)) : option Z :=
  match words with
  | [] => None
  | (k, v) :: words' => if String.eqb k word then Some v else get word words'
  end.

(** [words[word] = value]: a key the table has keeps its place, a new key
    goes to the end. *)
Fixpoint set (word : string) (value : Z) (words : list (string * Z))
  : list (string * Z) :=
  match words with
  | [] => [(word, value)]
  | (k, v) :: words' =>
      if String.eqb k word then (k, value) :: words'
      else (k, v) :: set word value words'
  end.

Definition to_table (words : list (string * Z)) : gmap string Z :=
  list_to_map words.

(** Lines 45-46, on the table of the language. *)
Definition count_line (words : list (string * Z)) (line : string)
  : list (string * Z) :=
  let word := PyStr.lower (PyStr.strip line) in
  if PyStr.nonempty word
  then set word (default 0 (get word words) + 1)%Z words
  else words.

(** Lines 67-78, on the table of the language. *)
Definition apply_row (words : list (string * Z)) (row : list string)
  : list (string * Z) :=
  if (List.length row <? 2)%nat then words
  else
    let word := PyStr.lower (List.nth 1 row EmptyString) in
    match PyStr.int (List.last row EmptyString) with
    | None => words
    | Some freq =>
        match get word words with
        | Some _ => set word (default 0 (get word words) + freq)%Z words
        | None => words
        end
    end.

(** [sorted(..., key=lambda item: item[1], reverse=True)]: descending by
    count; the sort is stable also when reversed, so items of equal count
    stay in insertion order. *)
Fixpoint insert_desc (x : string * Z) (l : list (string * Z)) : list (string * Z) :=
  match l with
  | [] => [x]
  | y :: l' => if (snd x <? snd y)%Z then y :: insert_desc x l' else x :: l
  end.

Definition sorted_words (words : list (string * Z)) : list (string * Z) :=
  fold_right insert_desc [] words.

(** The item [a] may stand before the item [b] in the sorted rows. *)
Definition count_ge (a b : string * Z) : Prop := (snd b <= snd a)%Z.

(** [export_freq_lists]: for every language the name of the file, inside
    the output directory, and the rows handed to [csv.writer]; [None]
    when there is nothing to export. *)
Definition export_freq_lists (freq_lists : list (string * list (string * Z)))
  : option (list (string * list (string * Z))) :=
  match freq_lists with
  | [] => None
  | _ =>
      Some (List.map
              (fun '(lang, words) =>
                 ("freqlist_" +:+ lang +:+ ".csv", sorted_words words))
              freq_lists)
  end.

End FreqOrder.

(** ** Text files

    What a file opened in text mode with the default [newline] holds
    after [write], and the lines an iteration over it yields when it is
    read back.  Written text is kept as it is (the line separator of
    POSIX); on reading, [\r\n] and a lone [\r] are turned into [\n], and
    a line ends after each [\n]. *)

Module TextFile.

Definition LF : ascii := "010"%char.
Definition CR : ascii := "013"%char.

(** ["\n".join(items)] *)
Definition join_lines (items : list string) : string :=
  String.concat (String LF EmptyString) items.

(** Universal newlines. *)
Fixpoint translate (text : string) : string :=
  match text with
  | EmptyString => EmptyString
  | String c text' =>
      if Ascii.eqb c CR then
        match text' with
        | String d text'' =>
            if Ascii.eqb d LF then String LF (translate text'')
            else String LF (translate text')
        | EmptyString => String LF EmptyString
        end
      else String c (translate text')
  end.

(** The lines of a translated text, each with its line end. *)
Fixpoint split_lines (text : string) : list string :=
  match text with
  | EmptyString => []
  | String c text' =>
      if Ascii.eqb c LF then String c EmptyString :: split_lines text'
      else match split_lines text' with
           | [] => [String c EmptyString]
           | line :: lines => String c line :: lines
           end
  end.

(** [for line in file] *)
Definition lines (text : string) : list string :=
  split_lines (translate text).

End TextFile.

(** ** File names *)

Module Path.

(** [s.rfind(c)] for a one-character [c]; [None] stands for -1. *)
Fixpoint rfind (c : ascii) (s : string) : option nat :=
  match s with
  | EmptyString => None
  | String d s' =>
      match rfind c s' with
      | Some i => Some (S i)
      | None => if Ascii.eqb d c then Some 0%nat else None
      end
  end.

(** [os.path.splitext(p)] of [posixpath]: the extension starts at the
    last dot of the last component, unless only dots stand before it in
    that component. *)
Definition splitext (p : string) : string * string :=
  match rfind "." p with
  | None => (p, EmptyString)
  | Some dotIndex =>
      let filenameIndex :=
        match rfind "/" p with
        | Some sepIndex => S sepIndex
        | None => 0%nat
        end in
      if (filenameIndex <=? dotIndex)%nat
         && negb (PyStr.all_chars (Ascii.eqb ".")
                    (PyStr.take (dotIndex - filenameIndex)
                       (PyStr.drop filenameIndex p)))
      then (PyStr.take dotIndex p, PyStr.drop dotIndex p)
      else (p, EmptyString)
  end.

(** [Path(name).stem] for the name of a file, without directory part. *)
Definition stem (name : string) : string :=
  match rfind "." name with
  | Some i =>
      if (0 <? i)%nat && (i <? String.length name - 1)%nat
      then PyStr.take i name else name
  | None => name
  end.

(** [str(n)] for a counter [n >= 0] *)
Definition str_of_nat (n : nat) : string :=
  NilEmpty.string_of_uint (Nat.to_uint n).

(** [f"{base}_{counter}{ext}"] *)
Definition numbered (base ext : string) (counter : nat) : string :=
  base +:+ "_" +:+ str_of_nat counter +:+ ext.

(** Lines "Append counter to duplicate file names" of the export
    functions: [exists_] is [os.path.exists]; the loop is run for at most
    [fuel] further candidates, [None] when it has not ended by then. *)
Fixpoint next_free (exists_ : string -> bool) (base ext : string)
    (fuel counter : nat) (output_path : string) : option string :=
  if exists_ output_path then
    match fuel with
    | O => None
    | S fuel' =>
        next_free exists_ base ext fuel' (S counter) (numbered base ext counter)
    end
  else Some output_path.

Definition unique_path (exists_ : string -> bool) (fuel : nat)
    (output_path : string) : option string :=
  let '(base, ext) := splitext output_path in
  next_free exists_ base ext fuel 2 output_path.

End Path.

(** ** [src/wordlists/generate_wordlists.py] *)

Module Wordlists.

(** Lines 34-37 for one parsed dictionary: [entries] holds, for every
    entry of the file, its [entry["word"]], or [None] where the entry has
    no such key; there the [KeyError] ends the run. *)
Fixpoint add_words (words : gset string) (entries : list (option string))
  : option (gset string) :=
  match entries with
  | [] => Some words
  | Some word :: entries' => add_words ({[ word ]} ∪ words) entries'
  | None :: _ => None
  end.

(** [generate_word_lists] over the parsed dictionaries, each given as its
    [data["meta"]["lang"]] and the words of its entries. *)
Fixpoint generate_word_lists (files : list (string * list (option string)))
    (word_lists : gmap string (gset string)) : option (gmap string (gset string)) :=
  match files with
  | [] => Some word_lists
  | (lang, entries) :: files' =>
      match add_words (default ∅ (word_lists !! lang)) entries with
      | Some words => generate_word_lists files' (<[lang := words]> word_lists)
      | None => None
      end
  end.

(** [sorted(words)]: the words in code-point order. *)
Definition sorted_words (words : gset string) : list string :=
  Gcide.sort_by (fun word => word) (elements words).

(** [export_word_lists]: for every language the name of the file, inside
    the output directory, and the text written to it; [None] when there
    is nothing to export. *)
Definition export_word_lists (word_lists : gmap string (gset string))
  : option (list (string * string)) :=
  match map_to_list word_lists with
  | [] => None
  | items =>
      Some (List.map
              (fun '(lang, words) =>
                 ("wordlist_" +:+ lang +:+ ".txt",
                  TextFile.join_lines (sorted_words words)))
              items)
  end.

End Wordlists.

(** ** The files [generate_freq_lists] reads *)

Module FreqFiles.

(** Lines 31-37: [file_path.stem.split("_")[1]]; [None] stands for the
    [IndexError] on which the file is skipped. *)
Definition lang_of_name (name : string) : option string :=
  List.nth_error (PyStr.split_char "_" (Path.stem name)) 1.

(** Lines 29-48 for one file of the word-list directory, given as its
    name and its text. *)
Definition process_file (leipzig : string -> option (list (list string)))
    (freq_lists : Freq.freq_tables) (name text : string) : option Freq.freq_tables :=
  match lang_of_name name with
  | Some lang => Freq.process_wordlist leipzig freq_lists lang (TextFile.lines text)
  | None => Some freq_lists
  end.

End FreqFiles.

(** ** [src/phrasebooks/wikivoyage/parser.py] *)

Module Phrasebook.
Import Dom.

(** A scraped entry: [raw_phrase] and [raw_translation] are the
    documents the parser builds from [entry.get("phrase", "")] and
    [entry.get("translation", "")], an empty document when the key is
    missing; the other two fields are [None] when their key is
    missing. *)
Record raw_entry : Type := Raw {
  raw_phrase : node;
  raw_translation : node;
  raw_category : option string;
  raw_source : option string
}.

(** The dict [process_entry] returns; a field is [None] when its key is
    left out.  A translation is given by its [content]. *)
Record parsed_entry : Type := Entry {
  phrase : option string;
  categories : option (list string);
  source_link : option string;
  translations : option (list string)
}.

(** [process_entry]: no operation in its body raises on such an entry,
    so the [except] branch is never taken. *)
Definition process_entry (entry : raw_entry) : option parsed_entry :=
  let phrase := get_text_strip (raw_phrase entry) in
  if negb (PyStr.nonempty phrase) || PyStr.isspace phrase then None
  else
    let full_translation := get_text_strip (raw_translation entry) in
    let category := PyStr.lower (default EmptyString (raw_category entry)) in
    let source := default EmptyString (raw_source entry) in
    let translations :=
      if PyStr.nonempty full_translation
      then [PyStr.strip full_translation] else [] in
    Some {| phrase := keep_str phrase;
            categories := keep_list [category];
            source_link := keep_str source;
            translations := keep_list translations |}.

(** [parse]: the entries appended to [parsed_data], and the returned
    flag.  A returned dict always holds a phrase, so it is truthy. *)
Definition parse (raw_data : list raw_entry) (parsed_data : list parsed_entry)
  : list parsed_entry * bool :=
  match raw_data with
  | [] => (parsed_data, false)
  | _ => (parsed_data ++ omap process_entry raw_data, true)
  end.

End Phrasebook.

(** ** Sample data *)

(** A definition that carries a description and nothing else. *)
Definition sense (text : string) : Gcide.definition :=
  {| Gcide.description := Some text; Gcide.pos := None; Gcide.origin := None;
     Gcide.synonyms := None; Gcide.antonyms := None; Gcide.examples := None;
     Gcide.source_title := None |}.

(** The definitions a normalized result carries. *)
Definition definitions_of (r : option Gcide.parsed_entry) : list Gcide.definition :=
  match r with
  | Some e => Gcide.definitions e
  | None => []
  end.

(** The number of lines of a word list that count for the key [word]. *)
Definition occurrences (word : string) (lines : list string) : nat :=
  List.length
    (List.filter
       (fun line => PyStr.nonempty word
                    && String.eqb (PyStr.lower (PyStr.strip line)) word)
       lines).

(** A reference row that reaches the lookup of the language's table. *)
Definition counted_row (row : list string) : bool :=
  negb (List.length row <? 2)%nat
  && match PyStr.int (List.last row EmptyString) with
     | Some _ => true
     | None => false
     end.

(** [text] begins with a character that satisfies [p]. *)
Definition starts_with (p : ascii -> bool) (text : string) : bool :=
  match text with
  | String c _ => p c
  | EmptyString => false
  end.

(** [text] holds no decimal digit. *)
Definition digit_free (text : string) : bool :=
  PyStr.all_chars (fun c => negb (PyStr.isdigit_char c)) text.

(** The document that holds nothing. *)
Definition empty_document : Dom.node := Dom.Tag "[document]" [].

(** [a] comes strictly before [b] in code-point order. *)
Definition str_lt (a b : string) : Prop :=
  Gcide.str_leb a b = true /\ a <> b.

(** [text] holds no line break. *)
Definition one_line (text : string) : bool :=
  PyStr.all_chars
    (fun c => negb (Ascii.eqb c TextFile.LF || Ascii.eqb c TextFile.CR)) text.

(** A string without leading and trailing whitespace. *)
Definition trimmed (text : string) : Prop := PyStr.strip text = text.

(** [a +:+ b] does not unfold under [simpl]: push it below the leading
    characters of [a]. *)
Ltac push_append :=
  repeat first
    [ progress change (String ?x ?y +:+ ?z) with (String x (y +:+ z))
    | progress change (EmptyString +:+ ?z) with z ].

(** * Properties *)

(** ** The Fragment Merger of [Gcide.process_letter] *)

Section FragmentMerger.
Import Gcide.

Lemma merge_snoc (results : list (option parsed_entry)) (r : option parsed_entry) :
  merge (results ++ [r]) = merge_step (merge results) r.
Proof. unfold merge. rewrite fold_left_app. reflexivity. Qed.

(** [process_letter] is the merger run over the normalized paragraphs. *)
Lemma process_letter_merge (soup : Dom.node) :
  process_letter (Some soup)
  = merge (List.map process_entry (Dom.find_all "p" soup)).
Proof.
  unfold process_letter, merge.
  generalize (@nil parsed_entry).
  induction (Dom.find_all "p" soup) as [|p ps IH]; intros data; simpl.
  - reflexivity.
  - apply IH.
Qed.

Lemma extend_last_snoc (init : list parsed_entry) (e : parsed_entry)
    (more : list definition) :
  extend_last (init ++ [e]) more
  = init ++ [{| word := word e; definitions := definitions e ++ more |}].
Proof.
  induction init as [|x init IH]; simpl.
  - reflexivity.
  - rewrite IH. destruct init; reflexivity.
Qed.

Lemma merge_step_headword (data : list parsed_entry) (e : parsed_entry) :
  has_word e = true -> merge_step data (Some e) = data ++ [e].
Proof. intros H. unfold merge_step. rewrite H. reflexivity. Qed.

Lemma merge_step_orphan (c : parsed_entry) :
  has_word c = false -> merge_step [] (Some c) = [].
Proof. intros H. unfold merge_step. rewrite H. reflexivity. Qed.

Lemma merge_step_continuation (init : list parsed_entry) (e c : parsed_entry) :
  has_word c = false ->
  merge_step (init ++ [e]) (Some c)
  = init ++ [{| word := word e; definitions := definitions e ++ definitions c |}].
Proof.
  intros H. unfold merge_step. rewrite H.
  rewrite length_app. simpl.
  destruct (List.length init + 1)%nat eqn:E; [lia|].
  apply extend_last_snoc.
Qed.

End FragmentMerger.

(** C2.  The merger is a left fold over the results in source order.  A
    result [h] whose headword is present (a non-empty [word]) is appended
    as a new entry to any output; a result [c] without headword met on an
    empty output is dropped.  So a stream that starts with [c] behaves as
    if [c] were not there, and the two records in the order [c], [h] give
    [h] alone, whereas the order [h], [c] gives [h] extended by the
    definitions of [c]. *)
Theorem fragment_merger_order_sensitive (h c : Gcide.parsed_entry) :
  Gcide.has_word h = true ->
  Gcide.has_word c = false ->
  (forall results r,
      Gcide.merge (results ++ [r]) = Gcide.merge_step (Gcide.merge results) r)
  /\ (forall soup,
         Gcide.process_letter (Some soup)
         = Gcide.merge (List.map Gcide.process_entry (Dom.find_all "p" soup)))
  /\ (forall data, Gcide.merge_step data (Some h) = data ++ [h])
  /\ (forall results, Gcide.merge (results ++ [Some h]) = Gcide.merge results ++ [h])
  /\ Gcide.merge_step [] (Some c) = []
  /\ (forall results, Gcide.merge (Some c :: results) = Gcide.merge results)
  /\ Gcide.merge [Some c; Some h] = [h]
  /\ Gcide.merge [Some h; Some c]
     = [{| Gcide.word := Gcide.word h;
           Gcide.definitions := Gcide.definitions h ++ Gcide.definitions c |}].
Proof.
  intros Hh Hc.
  assert (Hdrop : Gcide.merge_step [] (Some c) = [])
    by (apply merge_step_orphan; exact Hc).
  repeat split.
  - apply merge_snoc.
  - apply process_letter_merge.
  - intros data. apply merge_step_headword; exact Hh.
  - intros results. rewrite merge_snoc. apply merge_step_headword; exact Hh.
  - exact Hdrop.
  - intros results.
    change (Gcide.merge (Some c :: results))
      with (fold_left Gcide.merge_step results (Gcide.merge_step [] (Some c))).
    rewrite Hdrop. reflexivity.
  - change (Gcide.merge [Some c; Some h])
      with (Gcide.merge_step (Gcide.merge_step [] (Some c)) (Some h)).
    rewrite Hdrop. apply (merge_step_headword []); exact Hh.
  - change (Gcide.merge [Some h; Some c])
      with (Gcide.merge_step (Gcide.merge_step [] (Some h)) (Some c)).
    rewrite (merge_step_headword [] h Hh).
    apply (merge_step_continuation [] h c Hc).
Qed.

Lemma fragment_merger_order_sensitive_witness :
  let h := {| Gcide.word := Some "cat"; Gcide.definitions := [sense "a small animal"] |} in
  let c := {| Gcide.word := None; Gcide.definitions := [sense "a spiteful woman"] |} in
  Gcide.has_word h = true
  /\ Gcide.has_word c = false
  /\ Gcide.merge [Some c; Some h] = [h]
  /\ Gcide.merge [Some h; Some c]
     = [{| Gcide.word := Some "cat";
           Gcide.definitions := [sense "a small animal"; sense "a spiteful woman"] |}].
Proof.
  intros h c.
  destruct (fragment_merger_order_sensitive h c eq_refl eq_refl)
    as (_ & _ & _ & _ & _ & _ & Hrev & Hfwd).
  split; [reflexivity | split; [reflexivity | split; [exact Hrev | exact Hfwd]]].
Defined.

(** C4.  Folding a continuation [c] (no headword) into a non-empty output
    [init ++ [last]] changes the last entry only: its word is kept, its
    definitions keep their values and order and are followed by those of
    [c] in their own order, and the entries of [init] are unchanged. *)
Theorem continuation_extends_last_entry_only
    (init : list Gcide.parsed_entry) (last c : Gcide.parsed_entry) :
  Gcide.has_word c = false ->
  Gcide.merge_step (init ++ [last]) (Some c)
  = init ++ [{| Gcide.word := Gcide.word last;
                Gcide.definitions := Gcide.definitions last ++ Gcide.definitions c |}].
Proof. apply merge_step_continuation. Qed.

Lemma continuation_extends_last_entry_only_witness :
  let a := {| Gcide.word := Some "ant"; Gcide.definitions := [sense "an insect"] |} in
  let b := {| Gcide.word := Some "bat"; Gcide.definitions := [sense "a club"; sense "a mammal"] |} in
  let c := {| Gcide.word := None; Gcide.definitions := [sense "to strike"; sense "to wink"] |} in
  Gcide.has_word c = false
  /\ Gcide.merge_step ([a] ++ [b]) (Some c)
     = [a] ++ [{| Gcide.word := Some "bat";
                  Gcide.definitions :=
                    [sense "a club"; sense "a mammal"] ++ [sense "to strike"; sense "to wink"] |}].
Proof.
  intros a b c. split.
  - reflexivity.
  - exact (continuation_extends_last_entry_only [a] b c eq_refl).
Defined.

(** ** The export order of [Gcide.export_parsed_data] *)

Section ExportOrder.
Import Gcide.

Lemma str_leb_refl (a : string) : str_leb a a = true.
Proof.
  induction a as [|c a IH]; simpl.
  - reflexivity.
  - rewrite Nat.ltb_irrefl. exact IH.
Qed.

Lemma str_leb_total (a b : string) : str_leb a b = false -> str_leb b a = true.
Proof.
  revert b. induction a as [|c a IH]; intros [|d b]; simpl; try discriminate.
  - reflexivity.
  - destruct (PyStr.ord c <? PyStr.ord d)%nat eqn:Hcd; [discriminate|].
    destruct (PyStr.ord d <? PyStr.ord c)%nat eqn:Hdc; [reflexivity|].
    apply IH.
Qed.

Lemma str_leb_trans (a b c : string) :
  str_leb a b = true -> str_leb b c = true -> str_leb a c = true.
Proof.
  revert b c. induction a as [|x a IH]; intros [|y b] [|z c]; simpl;
    try reflexivity; try discriminate.
  destruct (PyStr.ord x <? PyStr.ord y)%nat eqn:Hxy;
    destruct (PyStr.ord y <? PyStr.ord x)%nat eqn:Hyx;
    destruct (PyStr.ord y <? PyStr.ord z)%nat eqn:Hyz;
    destruct (PyStr.ord z <? PyStr.ord y)%nat eqn:Hzy;
    destruct (PyStr.ord x <? PyStr.ord z)%nat eqn:Hxz;
    destruct (PyStr.ord z <? PyStr.ord x)%nat eqn:Hzx;
    try reflexivity; try discriminate;
    rewrite ?Nat.ltb_lt, ?Nat.ltb_ge in *; try lia.
  apply IH.
Qed.

Context {A : Type} (key : A -> string).

Lemma insert_sorted_perm (x : A) (l : list A) :
  Permutation (x :: l) (insert_sorted key x l).
Proof.
  induction l as [|y l IH]; simpl.
  - apply Permutation_refl.
  - destruct (str_leb (key x) (key y)).
    + apply Permutation_refl.
    + apply perm_trans with (y :: x :: l).
      * apply perm_swap.
      * apply perm_skip. exact IH.
Qed.

Lemma sort_by_perm (l : list A) : Permutation l (sort_by key l).
Proof.
  induction l as [|x l IH]; simpl.
  - apply perm_nil.
  - apply perm_trans with (x :: sort_by key l).
    + apply perm_skip. exact IH.
    + apply insert_sorted_perm.
Qed.

Lemma insert_sorted_hd (x y : A) (l : list A) :
  key_le key y x -> HdRel (key_le key) y l -> HdRel (key_le key) y (insert_sorted key x l).
Proof.
  intros Hyx Hl. destruct l as [|z l]; simpl.
  - constructor. exact Hyx.
  - destruct (str_leb (key x) (key z)); constructor.
    + exact Hyx.
    + inversion Hl; assumption.
Qed.

Lemma insert_sorted_sorted (x : A) (l : list A) :
  Sorted (key_le key) l -> Sorted (key_le key) (insert_sorted key x l).
Proof.
  induction 1 as [|y l Hs IH Hhd]; simpl.
  - repeat constructor.
  - destruct (str_leb (key x) (key y)) eqn:Hxy.
    + constructor; [constructor; assumption | constructor; exact Hxy].
    + constructor; [exact IH|].
      apply insert_sorted_hd; [|exact Hhd].
      apply str_leb_total. exact Hxy.
Qed.

Lemma sort_by_sorted (l : list A) : StronglySorted (key_le key) (sort_by key l).
Proof.
  apply Sorted_StronglySorted.
  - intros a b c. apply str_leb_trans.
  - induction l as [|x l IH]; simpl.
    + constructor.
    + apply insert_sorted_sorted. exact IH.
Qed.

(** Stability: the elements that share a key keep their relative
    order. *)
Lemma insert_sorted_filter (k : string) (x : A) (l : list A) :
  List.filter (fun e => String.eqb (key e) k) (insert_sorted key x l)
  = List.filter (fun e => String.eqb (key e) k) (x :: l).
Proof.
  induction l as [|y l IH]; simpl.
  - reflexivity.
  - destruct (str_leb (key x) (key y)) eqn:Hxy; simpl.
    + reflexivity.
    + rewrite IH. simpl.
      destruct (String.eqb (key x) k) eqn:Hx;
        destruct (String.eqb (key y) k) eqn:Hy; try reflexivity.
      apply String.eqb_eq in Hx, Hy.
      rewrite Hx, Hy, str_leb_refl in Hxy. discriminate.
Qed.

Lemma sort_by_stable (k : string) (l : list A) :
  List.filter (fun e => String.eqb (key e) k) (sort_by key l)
  = List.filter (fun e => String.eqb (key e) k) l.
Proof.
  induction l as [|x l IH]; simpl.
  - reflexivity.
  - rewrite insert_sorted_filter. simpl. rewrite IH. reflexivity.
Qed.

End ExportOrder.

(** C10.  Before serialization [export_parsed_data] sorts the entries by
    lower-cased headword, ascending in the code-point order of strings:
    for every non-empty collection whose entries all have a word, the
    entries written are a rearrangement of the collection, ordered by
    that key, with entries of equal key in their original order; the
    headwords Zebra, apple, Bee are written as apple, Bee, Zebra. *)
Theorem export_sorts_by_lowercase_headword :
  (forall parsed_data : list Gcide.parsed_entry,
      parsed_data <> [] ->
      Forall (fun e => Gcide.word e <> None) parsed_data ->
      exists m out,
        Gcide.export_parsed_data parsed_data = Ok (Gcide.Written m out)
        /\ Permutation parsed_data out
        /\ StronglySorted
             (fun a b =>
                exists wa wb,
                  Gcide.word a = Some wa /\ Gcide.word b = Some wb
                  /\ Gcide.str_leb (PyStr.lower wa) (PyStr.lower wb) = true)
             out
        /\ (forall k,
               List.filter (fun e => String.eqb (Gcide.key_or_empty e) k) out
               = List.filter (fun e => String.eqb (Gcide.key_or_empty e) k) parsed_data))
  /\ (forall dz da db,
         exists m,
           Gcide.export_parsed_data
             [ {| Gcide.word := Some "Zebra"; Gcide.definitions := dz |};
               {| Gcide.word := Some "apple"; Gcide.definitions := da |};
               {| Gcide.word := Some "Bee"; Gcide.definitions := db |} ]
           = Ok (Gcide.Written m
                   [ {| Gcide.word := Some "apple"; Gcide.definitions := da |};
                     {| Gcide.word := Some "Bee"; Gcide.definitions := db |};
                     {| Gcide.word := Some "Zebra"; Gcide.definitions := dz |} ])).
Proof.
  split.
  - intros parsed_data Hne Hall.
    assert (Hkeys : forallb (fun e => match Gcide.sort_key e with
                                      | Some _ => true | None => false end)
                      parsed_data = true).
    { apply forallb_forall. intros e He.
      rewrite Forall_forall in Hall. specialize (Hall e).
      unfold Gcide.sort_key. destruct (Gcide.word e); simpl.
      - reflexivity.
      - exfalso. apply Hall; [|reflexivity].
        apply list_elem_of_In. exact He. }
    unfold Gcide.export_parsed_data. rewrite Hkeys.
    destruct parsed_data as [|e0 rest]; [contradiction|].
    eexists. eexists. split; [reflexivity|].
    split; [apply sort_by_perm|].
    split; [|intros k; apply sort_by_stable].
    set (l := e0 :: rest) in *.
    assert (Hout : Forall (fun e => Gcide.word e <> None)
                     (Gcide.sort_by Gcide.key_or_empty l)).
    { rewrite Forall_forall in *. intros e He. apply Hall.
      apply list_elem_of_In. apply list_elem_of_In in He.
      eapply Permutation_in; [apply Permutation_sym, sort_by_perm | exact He]. }
    pose proof (sort_by_sorted Gcide.key_or_empty l) as Hs.
    induction Hs as [|a out Hs IH Ha].
    + constructor.
    + inversion Hout as [|? ? Hwa Hout']; subst.
      constructor; [apply IH; exact Hout'|].
      rewrite Forall_forall in *. intros b Hb.
      specialize (Ha b Hb). specialize (Hout' b Hb).
      unfold Gcide.key_le, Gcide.key_or_empty, Gcide.sort_key in Ha.
      destruct (Gcide.word a) as [wa|]; [|contradiction].
      destruct (Gcide.word b) as [wb|]; [|contradiction].
      exists wa, wb. repeat split. exact Ha.
  - intros dz da db. eexists. reflexivity.
Qed.

Lemma export_sorts_by_lowercase_headword_witness :
  let data := [ {| Gcide.word := Some "bee"; Gcide.definitions := [sense "an insect"] |};
                {| Gcide.word := Some "Ant"; Gcide.definitions := [] |};
                {| Gcide.word := Some "BEE"; Gcide.definitions := [] |} ] in
  data <> []
  /\ Forall (fun e => Gcide.word e <> None) data
  /\ exists m out,
       Gcide.export_parsed_data data = Ok (Gcide.Written m out)
       /\ Permutation data out
       /\ List.map Gcide.word out = [Some "Ant"; Some "bee"; Some "BEE"].
Proof.
  intros data.
  assert (Hne : data <> []) by discriminate.
  assert (Hall : Forall (fun e => Gcide.word e <> None) data)
    by (repeat constructor; discriminate).
  split; [exact Hne | split; [exact Hall|]].
  destruct (proj1 export_sorts_by_lowercase_headword data Hne Hall)
    as (m & out & Hexp & Hperm & _ & _).
  exists m, out. split; [exact Hexp | split; [exact Hperm|]].
  vm_compute in Hexp. injection Hexp as _ Hout. rewrite <- Hout. reflexivity.
Defined.

(** ** Stripping *)

Section Strip.
Variable p : ascii -> bool.

Lemma lstrip_by_idem (s : string) :
  PyStr.lstrip_by p (PyStr.lstrip_by p s) = PyStr.lstrip_by p s.
Proof.
  induction s as [|c s IH]; simpl.
  - reflexivity.
  - destruct (p c) eqn:Hc.
    + exact IH.
    + simpl. rewrite Hc. reflexivity.
Qed.

Lemma rstrip_by_idem (s : string) :
  PyStr.rstrip_by p (PyStr.rstrip_by p s) = PyStr.rstrip_by p s.
Proof.
  induction s as [|c s IH]; simpl.
  - reflexivity.
  - destruct (PyStr.rstrip_by p s) as [|d r] eqn:Hr.
    + destruct (p c) eqn:Hc; simpl.
      * reflexivity.
      * rewrite Hc. reflexivity.
    + change (PyStr.rstrip_by p (String c (String d r)))
        with (match PyStr.rstrip_by p (String d r) with
              | EmptyString => if p c then EmptyString else String c EmptyString
              | r' => String c r'
              end).
      rewrite IH. reflexivity.
Qed.

Lemma rstrip_lstrip_comm (s : string) :
  PyStr.rstrip_by p (PyStr.lstrip_by p s) = PyStr.lstrip_by p (PyStr.rstrip_by p s).
Proof.
  induction s as [|c s IH].
  - reflexivity.
  - simpl PyStr.lstrip_by at 1. destruct (p c) eqn:Hc.
    + rewrite IH. simpl.
      destruct (PyStr.rstrip_by p s) as [|d r].
      * rewrite Hc. reflexivity.
      * simpl. rewrite Hc. reflexivity.
    + clear IH. simpl.
      destruct (PyStr.rstrip_by p s) as [|d r]; rewrite ?Hc; simpl;
        rewrite Hc; reflexivity.
Qed.

Lemma strip_by_idem (s : string) :
  PyStr.strip_by p (PyStr.strip_by p s) = PyStr.strip_by p s.
Proof.
  unfold PyStr.strip_by.
  rewrite rstrip_lstrip_comm, lstrip_by_idem, rstrip_by_idem.
  reflexivity.
Qed.

(** Stripping only removes characters. *)
Lemma lstrip_by_mem (c : ascii) (s : string) :
  PyStr.mem_char c s = false -> PyStr.mem_char c (PyStr.lstrip_by p s) = false.
Proof.
  induction s as [|d s IH]; simpl; intros H.
  - reflexivity.
  - apply orb_false_iff in H as [Hd Hs].
    destruct (p d); simpl.
    + apply IH. exact Hs.
    + rewrite Hd, Hs. reflexivity.
Qed.

Lemma rstrip_by_mem (c : ascii) (s : string) :
  PyStr.mem_char c s = false -> PyStr.mem_char c (PyStr.rstrip_by p s) = false.
Proof.
  induction s as [|d s IH]; simpl; intros H.
  - reflexivity.
  - apply orb_false_iff in H as [Hd Hs]. specialize (IH Hs).
    destruct (PyStr.rstrip_by p s) as [|e r].
    + destruct (p d); simpl; [reflexivity|].
      rewrite Hd. reflexivity.
    + change (PyStr.mem_char c (String d (String e r)))
        with (Ascii.eqb c d || PyStr.mem_char c (String e r)).
      rewrite Hd, IH. reflexivity.
Qed.

Lemma strip_by_mem (c : ascii) (s : string) :
  PyStr.mem_char c s = false -> PyStr.mem_char c (PyStr.strip_by p s) = false.
Proof.
  intros H. unfold PyStr.strip_by. apply lstrip_by_mem, rstrip_by_mem, H.
Qed.

End Strip.

Lemma unescape_without_ampersand (s : string) :
  PyStr.mem_char "&" s = false -> Html.unescape s = s.
Proof. intros H. unfold Html.unescape. rewrite H. reflexivity. Qed.

Lemma get_text_strip_single (name s : string) :
  Dom.get_text_strip (Dom.Tag name [Dom.Text s]) = PyStr.strip s.
Proof.
  unfold Dom.get_text_strip. simpl.
  destruct (PyStr.strip s); reflexivity.
Qed.

(** C8, as the code has it.  [unescapeAndTrim] is the text of a node that
    holds one string.  It is the identity up to stripping, hence
    idempotent, on every string without an ampersand; more generally a
    second application changes nothing whenever the first result has no
    ampersand and no outer whitespace left. *)
Theorem unescape_and_trim_idempotent_without_references :
  (forall name s,
      Gcide.def_text (Dom.Tag name [Dom.Text s]) = Gcide.unescapeAndTrim s)
  /\ (forall s,
         PyStr.mem_char "&" s = false ->
         Gcide.unescapeAndTrim s = PyStr.strip s
         /\ Gcide.unescapeAndTrim (Gcide.unescapeAndTrim s) = Gcide.unescapeAndTrim s)
  /\ (forall s,
         PyStr.mem_char "&" (Gcide.unescapeAndTrim s) = false ->
         PyStr.strip (Gcide.unescapeAndTrim s) = Gcide.unescapeAndTrim s ->
         Gcide.unescapeAndTrim (Gcide.unescapeAndTrim s) = Gcide.unescapeAndTrim s).
Proof.
  split; [|split].
  - intros name s. unfold Gcide.def_text, Gcide.unescapeAndTrim.
    rewrite get_text_strip_single. reflexivity.
  - intros s H.
    assert (Hs : PyStr.mem_char "&" (PyStr.strip s) = false)
      by (apply strip_by_mem; exact H).
    assert (E : Gcide.unescapeAndTrim s = PyStr.strip s)
      by (apply unescape_without_ampersand; exact Hs).
    split; [exact E|].
    rewrite E. unfold Gcide.unescapeAndTrim, PyStr.strip.
    rewrite strip_by_idem. apply unescape_without_ampersand. exact Hs.
  - intros s Hamp Hstrip.
    unfold Gcide.unescapeAndTrim at 1. rewrite Hstrip.
    apply unescape_without_ampersand. exact Hamp.
Qed.

Lemma unescape_and_trim_idempotent_without_references_witness :
  PyStr.mem_char "&" "  a small animal " = false
  /\ Gcide.unescapeAndTrim "  a small animal " = "a small animal"
  /\ Gcide.unescapeAndTrim (Gcide.unescapeAndTrim "  a small animal ")
     = Gcide.unescapeAndTrim "  a small animal ".
Proof.
  split; [reflexivity|].
  destruct (proj1 (proj2 unescape_and_trim_idempotent_without_references)
              "  a small animal " eq_refl) as [E1 E2].
  split; [rewrite E1; reflexivity | exact E2].
Defined.

(** C8, as the specification states it, fails: a reference to an
    ampersand followed by [amp;] decodes to a text that is itself a
    reference. *)
Lemma unescape_and_trim_not_idempotent :
  Gcide.unescapeAndTrim "&amp;amp;" = "&amp;"
  /\ Gcide.unescapeAndTrim (Gcide.unescapeAndTrim "&amp;amp;") = "&"
  /\ Gcide.unescapeAndTrim (Gcide.unescapeAndTrim "&amp;amp;")
     <> Gcide.unescapeAndTrim "&amp;amp;".
Proof.
  split; [vm_compute; reflexivity|].
  split; [vm_compute; reflexivity|].
  intros H. vm_compute in H. discriminate H.
Qed.

(** ** Normalization *)

Section Normalize.

Lemma extend_last_nil (data : list Gcide.parsed_entry) :
  Gcide.extend_last data [] = data.
Proof.
  induction data as [|e data IH]; simpl.
  - reflexivity.
  - destruct data as [|e' data'].
    + rewrite app_nil_r. destruct e; reflexivity.
    + rewrite IH. reflexivity.
Qed.

(** One definition per [def] node, with the description left out exactly
    when the text of the node is empty. *)
Lemma gcide_descriptions (p : Dom.node) (e : Gcide.parsed_entry) :
  Gcide.process_entry p = Some e ->
  List.map Gcide.description (Gcide.definitions e)
  = List.map (fun d => keep_str (Gcide.def_text d)) (Dom.find_all "def" p).
Proof.
  unfold Gcide.process_entry. intros H. injection H as <-. simpl.
  rewrite !List.map_map. reflexivity.
Qed.

Lemma keep_str_some (x s : string) : keep_str x = Some s -> s = x /\ s <> EmptyString.
Proof.
  unfold keep_str. destruct x; simpl; intros H; [discriminate|].
  injection H as <-. split; [reflexivity | discriminate].
Qed.

(** What [Pinoy.process_entry] returns as definitions was built by
    [split_definitions]. *)
Lemma pinoy_definitions (r : Pinoy.raw_entry) (e : Pinoy.parsed_entry) :
  Pinoy.process_entry r = Ok (Some e) ->
  exists pos inflections full_definition,
    Pinoy.split_definitions pos inflections (Pinoy.raw_source r) full_definition
    = Ok (Pinoy.definitions e).
Proof.
  unfold Pinoy.process_entry.
  destruct (Pinoy.raw_word r) as [w|]; simpl; [|discriminate].
  destruct (negb (PyStr.nonempty w) || PyStr.isspace w); simpl; [discriminate|].
  destruct (Pinoy.clean_word w) as [w'| |]; simpl; try discriminate.
  destruct (Pinoy.strip_word_prefix w' _) as [fd1| |]; simpl; try discriminate.
  destruct (Pinoy.extract_inflections fd1) as [[infl fd2]| |]; simpl; try discriminate.
  destruct (Pinoy.extract_pos fd2) as [[pos fd3]| |]; simpl; try discriminate.
  destruct (Pinoy.split_definitions pos infl (Pinoy.raw_source r) fd3)
    as [defs| |] eqn:Hsplit; simpl; try discriminate.
  intros H. injection H as <-. simpl.
  exists pos, infl, fd3. exact Hsplit.
Qed.

Lemma split_definitions_made (pos : option string) (inflections : list string)
    (source full_definition : string) (defs : list Pinoy.definition) :
  Pinoy.split_definitions pos inflections source full_definition = Ok defs ->
  forall d, In d defs ->
    exists piece, piece <> EmptyString
                  /\ d = Pinoy.make_definition pos inflections source piece.
Proof.
  unfold Pinoy.split_definitions.
  destruct (PyStr.nonempty full_definition).
  - destruct (Re.re_split _ full_definition) as [pieces| |]; simpl; try discriminate.
    intros H. injection H as <-. intros d Hd.
    apply in_map_iff in Hd as (piece & <- & Hin).
    apply filter_In in Hin as [_ Hne].
    exists piece. split; [|reflexivity].
    destruct piece; [discriminate | discriminate].
  - intros H. injection H as <-. intros d [].
Qed.

End Normalize.

(** C3, as the code has it.  The scraped adapter returns absent for a
    record whose word is missing, empty or whitespace-only.  The GCIDE
    adapter returns, for a paragraph without [ent] node and without [def]
    nodes, an entry whose word is absent and whose definitions are empty
    (not absent), and the Fragment Merger leaves every output unchanged on
    that entry. *)
Theorem normalize_without_headword_or_definitions :
  (forall r : Pinoy.raw_entry,
      Pinoy.raw_word r = None
      \/ (exists w, Pinoy.raw_word r = Some w
                    /\ (w = EmptyString \/ PyStr.isspace w = true)) ->
      Pinoy.process_entry r = Ok None)
  /\ (forall p : Dom.node,
         Dom.find "ent" p = None ->
         Dom.find_all "def" p = [] ->
         Gcide.process_entry p
         = Some {| Gcide.word := None; Gcide.definitions := [] |}
         /\ forall data, Gcide.merge_step data (Gcide.process_entry p) = data).
Proof.
  split.
  - intros r [Hw | (w & Hw & Hblank)]; unfold Pinoy.process_entry; rewrite Hw.
    + reflexivity.
    + destruct Hblank as [-> | Hsp].
      * reflexivity.
      * rewrite Hsp, orb_true_r. reflexivity.
  - intros p Hent Hdef.
    assert (E : Gcide.process_entry p
                = Some {| Gcide.word := None; Gcide.definitions := [] |}).
    { unfold Gcide.process_entry. rewrite Hent, Hdef. reflexivity. }
    split; [exact E|].
    intros data. rewrite E. unfold Gcide.merge_step. simpl.
    destruct data as [|e data]; [reflexivity|].
    apply extend_last_nil.
Qed.

Lemma normalize_without_headword_or_definitions_witness :
  let r := {| Pinoy.raw_word := Some "   ";
              Pinoy.raw_definition := Dom.Tag "[document]" [Dom.Text "busy"];
              Pinoy.raw_source := "" |} in
  let p := Dom.Tag "p" [Dom.Tag "pos" [Dom.Text "n."]; Dom.Text "See above."] in
  (exists w, Pinoy.raw_word r = Some w /\ (w = EmptyString \/ PyStr.isspace w = true))
  /\ Pinoy.process_entry r = Ok None
  /\ Dom.find "ent" p = None
  /\ Dom.find_all "def" p = []
  /\ Gcide.process_entry p = Some {| Gcide.word := None; Gcide.definitions := [] |}.
Proof.
  intros r p.
  assert (Hr : exists w, Pinoy.raw_word r = Some w
                         /\ (w = EmptyString \/ PyStr.isspace w = true)).
  { exists "   ". split; [reflexivity | right; reflexivity]. }
  split; [exact Hr|].
  split; [exact (proj1 normalize_without_headword_or_definitions r (or_intror Hr))|].
  split; [reflexivity|]. split; [reflexivity|].
  exact (proj1 (proj2 normalize_without_headword_or_definitions p eq_refl eq_refl)).
Defined.

(** C3, as the specification states it, fails for the GCIDE adapter: a
    paragraph without headword node and without definition nodes is
    normalized to an entry, not to absent. *)
Lemma gcide_paragraph_without_headword_not_absent :
  let p := Dom.Tag "p" [Dom.Text "See above."] in
  Dom.find "ent" p = None
  /\ Dom.find_all "def" p = []
  /\ Gcide.process_entry p <> None.
Proof.
  intros p. split; [reflexivity|]. split; [reflexivity|].
  vm_compute. discriminate.
Qed.

(** C6, as the code has it.  In every entry either adapter emits, a
    description that is present is a non-empty string (for the scraped
    adapter also free of outer spaces and semicolons).  The GCIDE adapter
    builds one definition per [def] node and leaves the description out,
    keeping the definition, exactly when the text of the node is empty. *)
Theorem description_present_only_when_nonempty :
  (forall p e,
      Gcide.process_entry p = Some e ->
      List.map Gcide.description (Gcide.definitions e)
      = List.map (fun d => keep_str (Gcide.def_text d)) (Dom.find_all "def" p)
      /\ forall d s,
           In d (Gcide.definitions e) -> Gcide.description d = Some s ->
           s <> EmptyString)
  /\ (forall r e d s,
         Pinoy.process_entry r = Ok (Some e) ->
         In d (Pinoy.definitions e) -> Pinoy.description d = Some s ->
         s <> EmptyString /\ PyStr.strip_chars " ;" s = s).
Proof.
  split.
  - intros p e He.
    pose proof (gcide_descriptions p e He) as Hmap.
    split; [exact Hmap|].
    intros d s Hd Hs.
    assert (Hin : In (Some s) (List.map Gcide.description (Gcide.definitions e))).
    { rewrite <- Hs. apply in_map. exact Hd. }
    rewrite Hmap in Hin. apply in_map_iff in Hin as (x & Hx & _).
    apply keep_str_some in Hx. apply Hx.
  - intros r e d s He Hd Hs.
    destruct (pinoy_definitions r e He) as (pos & infl & fd & Hsplit).
    destruct (split_definitions_made _ _ _ _ _ Hsplit d Hd) as (piece & _ & ->).
    simpl in Hs. apply keep_str_some in Hs as [-> Hne].
    split; [exact Hne|].
    unfold PyStr.strip_chars. apply strip_by_idem.
Qed.

Lemma description_present_only_when_nonempty_witness :
  let p := Dom.Tag "p" [Dom.Tag "ent" [Dom.Text "cat"];
                        Dom.Tag "def" [Dom.Text " a small animal "];
                        Dom.Tag "def" [Dom.Text "  "]] in
  exists e,
    Gcide.process_entry p = Some e
    /\ List.map Gcide.description (Gcide.definitions e) = [Some "a small animal"; None].
Proof.
  intros p.
  destruct (Gcide.process_entry p) as [e|] eqn:He; [|discriminate He].
  exists e. split; [reflexivity|].
  rewrite (proj1 (proj1 description_present_only_when_nonempty p e He)).
  reflexivity.
Defined.

(** C6, as the specification states it, fails: the sense of a [def] node
    without text stays in the definitions, as a definition without
    description. *)
Lemma definition_without_description_is_kept :
  let p := Dom.Tag "p" [Dom.Tag "ent" [Dom.Text "cat"];
                        Dom.Tag "pos" [Dom.Text "n."];
                        Dom.Tag "def" [Dom.Text "  "]] in
  exists e d,
    Gcide.process_entry p = Some e
    /\ Gcide.definitions e = [d]
    /\ Gcide.description d = None
    /\ ~ Forall (fun d => exists s, Gcide.description d = Some s
                                    /\ PyStr.strip s <> EmptyString)
           (Gcide.definitions e).
Proof.
  intros p. eexists. eexists.
  split; [vm_compute; reflexivity|].
  split; [reflexivity|]. split; [reflexivity|].
  intros H. inversion H as [|? ? (s & Hs & _) _]. discriminate Hs.
Qed.

(** The scraped adapter filters the senses before it trims them: a sense
    made of separators only is kept, without description. *)
Lemma scraped_sense_of_separators_is_kept :
  Pinoy.process_entry (Pinoy.record "abala" "1. ; 2. busy" EmptyString)
  = Ok (Some
          {| Pinoy.word := "abala";
             Pinoy.definitions :=
               [ {| Pinoy.description := None; Pinoy.pos := None;
                    Pinoy.inflections := None; Pinoy.source_link := None |};
                 {| Pinoy.description := Some "busy"; Pinoy.pos := None;
                    Pinoy.inflections := None; Pinoy.source_link := None |} ] |}).
Proof. vm_compute. reflexivity. Qed.

(** ** The reference merge of [Freq.apply_existing_freqlist] *)

Section ReferenceMerge.
Import Freq.

Lemma fmap_add_zero (x : option Z) : (fun v => (v + 0)%Z) <$> x = x.
Proof. destruct x as [v|]; simpl; [f_equal; lia | reflexivity]. Qed.

Lemma apply_row_lookup (lang : string) (tables : gmap string (gmap string Z))
    (table : gmap string Z) (row : list string) :
  tables !! lang = Some table ->
  exists table',
    apply_row lang tables row = Some (<[lang := table']> tables)
    /\ forall w, table' !! w = (fun v => (v + row_count w row)%Z) <$> (table !! w).
Proof.
  intros Hlang. unfold apply_row, row_count.
  destruct (List.length row <? 2)%nat.
  { exists table. split; [rewrite insert_id by exact Hlang; reflexivity|].
    intros w. rewrite fmap_add_zero. reflexivity. }
  destruct (PyStr.int (List.last row EmptyString)) as [freq|].
  2:{ exists table. split; [rewrite insert_id by exact Hlang; reflexivity|].
      intros w. rewrite fmap_add_zero. reflexivity. }
  rewrite Hlang.
  set (word := PyStr.lower (List.nth 1 row EmptyString)).
  destruct (table !! word) as [v0|] eqn:Hword.
  - exists (<[word := (v0 + freq)%Z]> table). split; [reflexivity|].
    intros w. destruct (String.eqb word w) eqn:Hw.
    + apply String.eqb_eq in Hw. subst w.
      rewrite lookup_insert_eq, Hword. reflexivity.
    + apply String.eqb_neq in Hw.
      rewrite lookup_insert_ne by exact Hw.
      rewrite fmap_add_zero. reflexivity.
  - exists table. split; [rewrite insert_id by exact Hlang; reflexivity|].
    intros w. destruct (String.eqb word w) eqn:Hw.
    + apply String.eqb_eq in Hw. subst w. rewrite Hword. reflexivity.
    + rewrite fmap_add_zero. reflexivity.
Qed.

Lemma apply_rows_lookup (lang : string) (rows : list (list string)) :
  forall (tables : gmap string (gmap string Z)) (table : gmap string Z),
    tables !! lang = Some table ->
    exists table',
      apply_rows lang tables rows = Some (<[lang := table']> tables)
      /\ forall w,
           table' !! w = (fun v => (v + reference_count w rows)%Z) <$> (table !! w).
Proof.
  induction rows as [|row rows IH]; intros tables table Hlang; simpl.
  - exists table. split; [rewrite insert_id by exact Hlang; reflexivity|].
    intros w. rewrite fmap_add_zero. reflexivity.
  - destruct (apply_row_lookup lang tables table row Hlang) as (t1 & -> & H1).
    destruct (IH (<[lang := t1]> tables) t1 (lookup_insert_eq _ _ _))
      as (t2 & -> & H2).
    exists t2. split; [rewrite insert_insert_eq; reflexivity|].
    intros w. rewrite H2, H1.
    destruct (table !! w) as [v|]; simpl; [f_equal; lia | reflexivity].
Qed.

End ReferenceMerge.

(** C1.  For every language with a local table, applying the reference
    rows replaces that table by one with the same keys, in which every
    word has its former count plus the counts of the reference rows for
    that word (lower-cased); a word the local table does not have is not
    inserted, and the tables of other languages are untouched.  The local
    table cat: 2 with reference rows cat: 5 and dog: 9 becomes cat: 7,
    without dog. *)
Theorem reference_merge_additive_without_insertion :
  (forall (tables : gmap string (gmap string Z)) (lang : string)
          (table : gmap string Z) (rows : list (list string)),
      tables !! lang = Some table ->
      exists table',
        Freq.apply_existing_freqlist tables lang (Some rows)
        = Some (<[lang := table']> tables, true)
        /\ forall w,
             table' !! w
             = (fun v => (v + Freq.reference_count w rows)%Z) <$> (table !! w))
  /\ Freq.apply_existing_freqlist
       {[ "tgl" := {[ "cat" := 2%Z ]} ]} "tgl"
       (Some [["1"; "cat"; "5"]; ["2"; "dog"; "9"]])
     = Some ({[ "tgl" := {[ "cat" := 7%Z ]} ]}, true)
  /\ Freq.process_wordlist
       (fun _ => Some [["1"; "Cat"; "5"]; ["2"; "dog"; "9"]])
       ∅ "tgl" ["cat"; " Cat "]
     = Some {[ "tgl" := {[ "cat" := 7%Z ]} ]}.
Proof.
  split; [|split].
  - intros tables lang table rows Hlang.
    destruct (apply_rows_lookup lang rows tables table Hlang) as (t' & Happly & Hlook).
    exists t'. split; [|exact Hlook].
    unfold Freq.apply_existing_freqlist. rewrite Happly. reflexivity.
  - vm_compute. reflexivity.
  - vm_compute. reflexivity.
Qed.

Lemma reference_merge_additive_without_insertion_witness :
  let tables : gmap string (gmap string Z) :=
    {[ "tgl" := {[ "cat" := 2%Z; "aso" := 1%Z ]} ]} in
  let rows := [["1"; "Cat"; "5"]; ["2"; "dog"; "9"]; ["3"; "cat"; "x"]; ["4"; "cat"; "3"]] in
  tables !! "tgl" = Some {[ "cat" := 2%Z; "aso" := 1%Z ]}
  /\ exists table',
       Freq.apply_existing_freqlist tables "tgl" (Some rows)
       = Some (<["tgl" := table']> tables, true)
       /\ table' !! "cat" = Some 10%Z
       /\ table' !! "aso" = Some 1%Z
       /\ table' !! "dog" = None.
Proof.
  intros tables rows.
  assert (Hlang : tables !! "tgl" = Some {[ "cat" := 2%Z; "aso" := 1%Z ]})
    by reflexivity.
  split; [exact Hlang|].
  destruct (proj1 reference_merge_additive_without_insertion
              tables "tgl" _ rows Hlang) as (table' & Happly & Hlook).
  exists table'. split; [exact Happly|].
  rewrite !Hlook. repeat split.
Defined.

(** ** The extraction pipeline of [Pinoy.process_entry] *)

Section Pipeline.

(** The stages run in one order: cleaned word, prefix stripper,
    inflections, part of speech, sense splitting; each stage receives
    the text the stage before it left. *)
Lemma process_entry_stages (r : Pinoy.raw_entry) (w : string) :
  Pinoy.raw_word r = Some w ->
  negb (PyStr.nonempty w) || PyStr.isspace w = false ->
  Pinoy.process_entry r
  = try_except
      (do word <- Pinoy.clean_word w;
       do text1 <- Pinoy.strip_word_prefix word
                     (Dom.get_text_strip (Pinoy.raw_definition r));
       do '(inflections, text2) <- Pinoy.extract_inflections text1;
       do '(pos, text3) <- Pinoy.extract_pos text2;
       do definitions <-
         Pinoy.split_definitions pos inflections (Pinoy.raw_source r) text3;
       Ok (Some {| Pinoy.word := word; Pinoy.definitions := definitions |}))
      None.
Proof.
  intros Hw Hblank. unfold Pinoy.process_entry. rewrite Hw, Hblank.
  reflexivity.
Qed.

Lemma length_append (a b : string) :
  String.length (a +:+ b) = (String.length a + String.length b)%nat.
Proof. induction a as [|c a IH]; simpl; [reflexivity | rewrite IH; reflexivity]. Qed.

(** The inflection extractor and the part-of-speech extractor leave the
    text as it is, or drop a leading span of it and strip the rest. *)
Lemma extract_inflections_leading (text : string) (inflections : list string)
    (rest : string) :
  Pinoy.extract_inflections text = Ok (inflections, rest) ->
  (inflections = [] /\ rest = text)
  \/ exists n, (2 <= n)%nat /\ rest = PyStr.strip (PyStr.drop n text).
Proof.
  unfold Pinoy.extract_inflections, Re.re_match.
  destruct (Re.parse _) as [r| |]; cbn [exc_bind]; try discriminate.
  destruct (Re.match_at r text 0 text false) as [m|].
  - destruct (Re.group m 1) as [g|]; [|discriminate].
    intros H. injection H as _ <-. right.
    exists (String.length ("(" +:+ PyStr.strip (PyStr.replace_char "." "," g) +:+ ")")).
    split; [|reflexivity].
    cbn [String.append String.length]. rewrite !length_append. simpl. lia.
  - intros H. injection H as <- <-. left. split; reflexivity.
Qed.

Lemma extract_pos_leading (text : string) (pos : option string) (rest : string) :
  Pinoy.extract_pos text = Ok (pos, rest) ->
  (pos = None /\ rest = text)
  \/ exists p, pos = Some p
               /\ rest = PyStr.strip (PyStr.drop (String.length p) text).
Proof.
  unfold Pinoy.extract_pos, Re.re_match.
  destruct (Re.parse _) as [r| |]; cbn [exc_bind]; try discriminate.
  destruct (Re.match_at r text 0 text false) as [m|].
  - destruct (Re.group m 1) as [g|]; [|discriminate].
    intros H. injection H as <- <-. right.
    eexists. split; reflexivity.
  - intros H. injection H as <- <-. left. split; reflexivity.
Qed.

End Pipeline.

(** ** The word-prefix stripper on words without special characters *)

Section PlainWords.

Lemma parse_items_plain (word : string) :
  Re.plain word ->
  forall fuel gc acc,
    (String.length word < fuel)%nat ->
    Re.parse_items fuel gc acc word = Ok (rev acc ++ Re.literals word, gc, EmptyString).
Proof.
  induction word as [|c word IH]; intros Hplain fuel gc acc Hfuel.
  - destruct fuel; [inversion Hfuel|]. simpl. rewrite app_nil_r. reflexivity.
  - destruct fuel; [inversion Hfuel|].
    unfold Re.plain in Hplain, IH.
    simpl in Hplain. apply andb_true_iff in Hplain as [Hc Hword].
    apply negb_true_iff in Hc. unfold Re.special_char in Hc. simpl in Hc.
    repeat (apply orb_false_iff in Hc; destruct Hc as [? Hc]).
    assert (Hrep : PyStr.mem_char c "*+?" = false).
    { simpl. repeat (apply orb_false_iff; split); assumption. }
    cbn [Re.parse_items].
    repeat match goal with
           | H : Ascii.eqb c _ = false |- _ => rewrite H; clear H
           end.
    rewrite Hrep. cbn [orb].
    rewrite IH by (try assumption; simpl in Hfuel; lia).
    simpl. rewrite <- app_assoc. reflexivity.
Qed.

Lemma parse_items_caret (fuel gc : nat) (acc : list Re.regex) (rest : string) :
  Re.parse_items (S fuel) gc acc (String "^" rest)
  = Re.parse_items fuel gc (Re.Bol :: acc) rest.
Proof. reflexivity. Qed.

Lemma parse_anchored_plain (word : string) :
  Re.plain word ->
  Re.parse ("^" +:+ word) = Ok (Re.seq_of (Re.Bol :: Re.literals word)).
Proof.
  intros Hplain. unfold Re.parse.
  change ("^" +:+ word) with (String "^" word).
  remember (2 * String.length (String "^" word) + 3)%nat as fuel eqn:Hfuel.
  destruct fuel as [|[|fuel]]; [simpl in Hfuel; lia | simpl in Hfuel; lia |].
  cbn [Re.parse_sub]. rewrite parse_items_caret.
  rewrite (parse_items_plain word Hplain) by (simpl in Hfuel; lia).
  reflexivity.
Qed.

Lemma run_seq_cons (r : Re.regex) (rs : list Re.regex) (i : nat) (s : string)
    (g : Re.spans) (k : Re.cont) :
  Re.run (Re.seq_of (r :: rs)) i s g k
  = Re.run r i s g (fun i' s' g' => Re.run (Re.seq_of rs) i' s' g' k).
Proof. destruct rs; reflexivity. Qed.

Lemma run_literals (word : string) :
  forall (i : nat) (s : string) (g : Re.spans) (k : Re.cont),
    Re.run (Re.seq_of (Re.literals word)) i s g k
    = if String.prefix word s
      then k (i + String.length word)%nat (PyStr.drop (String.length word) s) g
      else None.
Proof.
  induction word as [|c word IH]; intros i s g k.
  - simpl. rewrite Nat.add_0_r. destruct s; reflexivity.
  - cbn [Re.literals]. rewrite run_seq_cons. cbn [Re.run].
    destruct s as [|d s]; [reflexivity|].
    cbn [String.prefix String.length PyStr.drop].
    destruct (Ascii.eqb d c) eqn:Hdc.
    + apply Ascii.eqb_eq in Hdc. subst d.
      destruct (ascii_dec c c) as [_|Hne]; [|contradiction].
      rewrite IH. rewrite Nat.add_succ_r. reflexivity.
    + apply Ascii.eqb_neq in Hdc.
      destruct (ascii_dec c d) as [->|_]; [contradiction | reflexivity].
Qed.

Lemma match_at_anchored (word whole s : string) (i : nat) (must_advance : bool) :
  Re.match_at (Re.seq_of (Re.Bol :: Re.literals word)) whole i s must_advance
  = if (i =? 0)%nat && String.prefix word s
       && negb (must_advance && (String.length word =? 0)%nat)
    then Some (Re.Match whole i (i + String.length word) [])
    else None.
Proof.
  unfold Re.match_at. rewrite run_seq_cons. cbn [Re.run].
  destruct (i =? 0)%nat eqn:Hi; [|reflexivity].
  rewrite run_literals.
  destruct (String.prefix word s); [|reflexivity].
  cbn [andb].
  replace (i + String.length word =? i)%nat with (String.length word =? 0)%nat.
  - destruct (must_advance && (String.length word =? 0)%nat); reflexivity.
  - destruct (String.length word) as [|n]; simpl.
    + rewrite Nat.add_0_r, Nat.eqb_refl. reflexivity.
    + symmetry. apply Nat.eqb_neq. lia.
Qed.

Lemma scan_anchored_later (word whole s : string) (i : nat) (must_advance : bool) :
  Re.scan (Re.seq_of (Re.Bol :: Re.literals word)) whole (S i) s must_advance = None.
Proof.
  revert i must_advance. induction s as [|c s IH]; intros i must_advance;
    cbn [Re.scan]; rewrite match_at_anchored; cbn [Nat.eqb andb].
  - reflexivity.
  - apply IH.
Qed.

Lemma scan_anchored_start (word whole s : string) (must_advance : bool) :
  Re.scan (Re.seq_of (Re.Bol :: Re.literals word)) whole 0 s must_advance
  = if String.prefix word s && negb (must_advance && (String.length word =? 0)%nat)
    then Some (Re.Match whole 0 (String.length word) [])
    else None.
Proof.
  destruct s as [|c s]; cbn [Re.scan]; rewrite match_at_anchored;
    cbn [Nat.eqb andb Nat.add];
    destruct (String.prefix word _ && negb _); try reflexivity.
  apply scan_anchored_later.
Qed.

Lemma all_matches_anchored (word text : string) :
  Re.all_matches (Re.seq_of (Re.Bol :: Re.literals word)) text
  = if String.prefix word text
    then [Re.Match text 0 (String.length word) []]
    else [].
Proof.
  unfold Re.all_matches.
  replace (2 * String.length text + 2)%nat
    with (S (S (2 * String.length text)))%nat by lia.
  cbn [Re.matches_from PyStr.drop].
  rewrite scan_anchored_start. cbn [andb negb].
  rewrite andb_true_r.
  destruct (String.prefix word text); [|reflexivity].
  cbn [Re.end_ Re.start_]. f_equal.
  destruct (String.length word) as [|n] eqn:Hlen.
  - cbn [PyStr.drop Nat.eqb]. rewrite scan_anchored_start.
    rewrite Hlen. cbn [Nat.eqb andb negb]. rewrite andb_false_r. reflexivity.
  - rewrite scan_anchored_later. reflexivity.
Qed.

(** On a word without special characters the stripper removes the
    literal prefix, when the text begins with it, and then the leading
    punctuation. *)
Lemma strip_word_prefix_plain (word text : string) :
  Re.plain word ->
  Pinoy.strip_word_prefix word text
  = Ok (PyStr.lstrip_chars " .,;:!?"
          (if String.prefix word text
           then PyStr.drop (String.length word) text
           else text)).
Proof.
  intros Hplain. unfold Pinoy.strip_word_prefix, Re.re_sub.
  rewrite (parse_anchored_plain word Hplain). cbn [exc_bind].
  unfold Re.sub_with. rewrite all_matches_anchored.
  destruct (String.prefix word text); reflexivity.
Qed.

End PlainWords.

(** What the stripper returns is the text without a leading span. *)
Lemma lstrip_by_drop (p : ascii -> bool) (s : string) :
  exists n, PyStr.lstrip_by p s = PyStr.drop n s.
Proof.
  induction s as [|c s [n IH]]; simpl.
  - exists 0%nat. reflexivity.
  - destruct (p c).
    + exists (S n). exact IH.
    + exists 0%nat. reflexivity.
Qed.

Lemma drop_drop (n m : nat) (s : string) :
  PyStr.drop n (PyStr.drop m s) = PyStr.drop (m + n) s.
Proof.
  revert s. induction m as [|m IH]; intros s; simpl.
  - reflexivity.
  - destruct s as [|c s]; [destruct n; reflexivity | apply IH].
Qed.

Lemma strip_word_prefix_leading (word text : string) :
  Re.plain word ->
  exists n,
    Pinoy.strip_word_prefix word text = Ok (PyStr.drop n text)
    /\ (String.prefix word text = true -> (String.length word <= n)%nat).
Proof.
  intros Hplain. rewrite (strip_word_prefix_plain word text Hplain).
  unfold PyStr.lstrip_chars.
  destruct (String.prefix word text).
  - destruct (lstrip_by_drop (fun c => PyStr.mem_char c " .,;:!?")
                (PyStr.drop (String.length word) text)) as [n Hn].
    exists (String.length word + n)%nat. split.
    + rewrite Hn, drop_drop. reflexivity.
    + intros _. lia.
  - destruct (lstrip_by_drop (fun c => PyStr.mem_char c " .,;:!?") text) as [n Hn].
    exists n. split; [rewrite Hn; reflexivity | discriminate].
Qed.

(** C5.  [process_entry] runs the prefix stripper, the inflection
    extractor, the part-of-speech extractor and the sense splitter in
    that order, each on the text the previous stage left, and each of the
    first three consumes a leading span: the stripper, for a headword
    without special characters, the headword the text begins with and
    the punctuation after it; the two extractors the span they read.
    On the text [(tense, form) v. 1. to run 2. to flee] the stages yield
    the inflections tense and form, the part of speech [v.] and the
    descriptions [to run] and [to flee], in that order.  The same entry
    comes out when the text begins with the headword, [takbo. (tense,
    form) v. 1. to run 2. to flee]: the stripper removes the headword
    first, and only then does the inflection extractor find the
    parenthesis, which it does not find on the text as it was. *)
Theorem extraction_pipeline_order :
  (forall r w,
      Pinoy.raw_word r = Some w ->
      negb (PyStr.nonempty w) || PyStr.isspace w = false ->
      Pinoy.process_entry r
      = try_except
          (do word <- Pinoy.clean_word w;
           do text1 <- Pinoy.strip_word_prefix word
                         (Dom.get_text_strip (Pinoy.raw_definition r));
           do '(inflections, text2) <- Pinoy.extract_inflections text1;
           do '(pos, text3) <- Pinoy.extract_pos text2;
           do definitions <-
             Pinoy.split_definitions pos inflections (Pinoy.raw_source r) text3;
           Ok (Some {| Pinoy.word := word; Pinoy.definitions := definitions |}))
          None)
  /\ (forall word text,
         Re.plain word ->
         Pinoy.strip_word_prefix word text
         = Ok (PyStr.lstrip_chars " .,;:!?"
                 (if String.prefix word text
                  then PyStr.drop (String.length word) text
                  else text))
         /\ exists n,
              Pinoy.strip_word_prefix word text = Ok (PyStr.drop n text)
              /\ (String.prefix word text = true -> (String.length word <= n)%nat))
  /\ (forall text inflections rest,
         Pinoy.extract_inflections text = Ok (inflections, rest) ->
         (inflections = [] /\ rest = text)
         \/ exists n, (2 <= n)%nat /\ rest = PyStr.strip (PyStr.drop n text))
  /\ (forall text pos rest,
         Pinoy.extract_pos text = Ok (pos, rest) ->
         (pos = None /\ rest = text)
         \/ exists p, pos = Some p
                      /\ rest = PyStr.strip (PyStr.drop (String.length p) text))
  /\ (forall source,
         let text := "(tense, form) v. 1. to run 2. to flee" in
         Pinoy.strip_word_prefix "takbo" text = Ok text
         /\ Pinoy.extract_inflections text
            = Ok (["tense"; "form"], "v. 1. to run 2. to flee")
         /\ Pinoy.extract_pos "v. 1. to run 2. to flee"
            = Ok (Some "v.", "1. to run 2. to flee")
         /\ Re.re_split "\d+(?:\.|\))\s*" "1. to run 2. to flee"
            = Ok [EmptyString; "to run "; "to flee"]
         /\ Pinoy.process_entry (Pinoy.record "takbo" text source)
            = Ok (Some
                    {| Pinoy.word := "takbo";
                       Pinoy.definitions :=
                         [ {| Pinoy.description := Some "to run";
                              Pinoy.pos := Some "v.";
                              Pinoy.inflections := Some ["tense"; "form"];
                              Pinoy.source_link := keep_str source |};
                           {| Pinoy.description := Some "to flee";
                              Pinoy.pos := Some "v.";
                              Pinoy.inflections := Some ["tense"; "form"];
                              Pinoy.source_link := keep_str source |} ] |}))
  /\ (forall source,
         let text := "takbo. (tense, form) v. 1. to run 2. to flee" in
         Pinoy.extract_inflections text = Ok ([], text)
         /\ Pinoy.strip_word_prefix "takbo" text
            = Ok "(tense, form) v. 1. to run 2. to flee"
         /\ Pinoy.process_entry (Pinoy.record "takbo" text source)
            = Pinoy.process_entry
                (Pinoy.record "takbo" "(tense, form) v. 1. to run 2. to flee" source)
         /\ Pinoy.process_entry (Pinoy.record "takbo" text source)
            = Ok (Some
                    {| Pinoy.word := "takbo";
                       Pinoy.definitions :=
                         [ {| Pinoy.description := Some "to run";
                              Pinoy.pos := Some "v.";
                              Pinoy.inflections := Some ["tense"; "form"];
                              Pinoy.source_link := keep_str source |};
                           {| Pinoy.description := Some "to flee";
                              Pinoy.pos := Some "v.";
                              Pinoy.inflections := Some ["tense"; "form"];
                              Pinoy.source_link := keep_str source |} ] |})).
Proof.
  split; [exact process_entry_stages|].
  split.
  { intros word text Hplain. split.
    - apply strip_word_prefix_plain, Hplain.
    - apply strip_word_prefix_leading, Hplain. }
  split; [exact extract_inflections_leading|].
  split; [exact extract_pos_leading|].
  split.
  - intros source text. repeat split; vm_compute; reflexivity.
  - intros source text. repeat split; vm_compute; reflexivity.
Qed.

Lemma extraction_pipeline_order_witness :
  let text := "takbo. (tense, form) v. 1. to run 2. to flee" in
  let r := Pinoy.record "takbo" text "" in
  Pinoy.raw_word r = Some "takbo"
  /\ negb (PyStr.nonempty "takbo") || PyStr.isspace "takbo" = false
  /\ Re.plain "takbo"
  /\ String.prefix "takbo" text = true
  /\ Pinoy.strip_word_prefix "takbo" text
     = Ok "(tense, form) v. 1. to run 2. to flee"
  /\ Pinoy.extract_inflections "(tense, form) v. 1. to run 2. to flee"
     = Ok (["tense"; "form"], "v. 1. to run 2. to flee")
  /\ exists e,
       Pinoy.process_entry r = Ok (Some e)
       /\ List.map Pinoy.description (Pinoy.definitions e)
          = [Some "to run"; Some "to flee"].
Proof.
  intros text r.
  assert (Hplain : Re.plain "takbo") by reflexivity.
  split; [reflexivity|]. split; [reflexivity|].
  split; [exact Hplain|]. split; [reflexivity|].
  split.
  { rewrite (proj1 (proj1 (proj2 extraction_pipeline_order) "takbo" text Hplain)).
    reflexivity. }
  split; [vm_compute; reflexivity|].
  rewrite (proj1 extraction_pipeline_order r "takbo" eq_refl eq_refl).
  eexists. split; vm_compute; reflexivity.
Defined.

(** C7 on the code.  For every headword without special characters the
    stripper removes the literal headword when the text begins with it
    (and then the leading punctuation), as on [abala].  The headword is
    spliced into the pattern without escaping, so a headword with a
    repeat character is not matched as a literal: the text
    [abaka* hemp plant] begins with the headword [abaka*], yet the
    stripper removes [abaka] only and the description keeps the
    asterisk; a headword that begins with an asterisk makes the pattern
    invalid and the record is dropped. *)
Theorem word_prefix_stripper_on_special_characters :
  (forall word text,
      Re.plain word ->
      String.prefix word text = true ->
      Pinoy.strip_word_prefix word text
      = Ok (PyStr.lstrip_chars " .,;:!?" (PyStr.drop (String.length word) text)))
  /\ (forall source,
         Pinoy.process_entry (Pinoy.record "abala" "abala busy;..." source)
         = Ok (Some
                 {| Pinoy.word := "abala";
                    Pinoy.definitions :=
                      [ {| Pinoy.description := Some "busy;...";
                           Pinoy.pos := None;
                           Pinoy.inflections := None;
                           Pinoy.source_link := keep_str source |} ] |}))
  /\ (String.prefix "abaka*" "abaka* hemp plant" = true
      /\ Pinoy.clean_word "abaka*" = Ok "abaka*"
      /\ Pinoy.strip_word_prefix "abaka*" "abaka* hemp plant" = Ok "* hemp plant"
      /\ forall source,
           Pinoy.process_entry (Pinoy.record "abaka*" "abaka* hemp plant" source)
           = Ok (Some
                   {| Pinoy.word := "abaka*";
                      Pinoy.definitions :=
                        [ {| Pinoy.description := Some "* hemp plant";
                             Pinoy.pos := None;
                             Pinoy.inflections := None;
                             Pinoy.source_link := keep_str source |} ] |}))
  /\ (Pinoy.strip_word_prefix "*abaka" "*abaka hemp plant" = Raise
      /\ forall source,
           Pinoy.process_entry (Pinoy.record "*abaka" "*abaka hemp plant" source)
           = Ok None).
Proof.
  split.
  - intros word text Hplain Hprefix.
    rewrite (strip_word_prefix_plain word text Hplain), Hprefix. reflexivity.
  - repeat split; try intros source; vm_compute; reflexivity.
Qed.

Lemma word_prefix_stripper_on_special_characters_witness :
  Re.plain "abala"
  /\ String.prefix "abala" "abala busy;..." = true
  /\ Pinoy.strip_word_prefix "abala" "abala busy;..." = Ok "busy;...".
Proof.
  split; [reflexivity|]. split; [reflexivity|].
  exact (proj1 word_prefix_stripper_on_special_characters
           "abala" "abala busy;..." eq_refl eq_refl).
Defined.

(** C9 on the code.  Whenever the pattern matches, the tokens are the
    content of the group with every [.] turned into [,], split on [,] and
    trimmed, as claimed; but the extractor drops as many characters as
    the stripped content of the group plus two, not the matched span.  On
    the text [(nag-, mag- ) v. to do] the match spans 13 characters and
    the group holds [nag-, mag- ] with its trailing space; only 12
    characters are dropped, so the remaining text begins with the closing
    parenthesis and no part of speech is found. *)
Theorem inflection_extractor_drops_stripped_length :
  (forall text m g,
      Re.re_match "^\(([^\(\)]*(?:\(.+?\))?[^\(\)]*)\)" text = Ok (Some m) ->
      Re.group m 1 = Some g ->
      let content := PyStr.strip (PyStr.replace_char "." "," g) in
      Pinoy.extract_inflections text
      = Ok (List.map PyStr.strip (PyStr.split_char "," content),
            PyStr.strip (PyStr.drop (2 + String.length content) text)))
  /\ (let text := "(nag-, mag- ) v. to do" in
      (exists m,
          Re.re_match "^\(([^\(\)]*(?:\(.+?\))?[^\(\)]*)\)" text = Ok (Some m)
          /\ Re.start_ m = 0%nat /\ Re.end_ m = 13%nat
          /\ Re.group m 1 = Some "nag-, mag- ")
      /\ PyStr.strip (PyStr.drop 13 text) = "v. to do"
      /\ Pinoy.extract_inflections text = Ok (["nag-"; "mag-"], ") v. to do")
      /\ forall source,
           Pinoy.process_entry (Pinoy.record "abain" text source)
           = Ok (Some
                   {| Pinoy.word := "abain";
                      Pinoy.definitions :=
                        [ {| Pinoy.description := Some ") v. to do";
                             Pinoy.pos := None;
                             Pinoy.inflections := Some ["nag-"; "mag-"];
                             Pinoy.source_link := keep_str source |} ] |})).
Proof.
  split.
  - intros text m g Hm Hg content.
    unfold Pinoy.extract_inflections. rewrite Hm. cbn [exc_bind].
    rewrite Hg. fold content.
    replace (String.length ("(" +:+ content +:+ ")"))
      with (2 + String.length content)%nat; [reflexivity|].
    cbn [String.append String.length]. rewrite !length_append. simpl. lia.
  - intros text. split.
    + eexists. split; [vm_compute; reflexivity|]. repeat split.
    + repeat split; try intros source; vm_compute; reflexivity.
Qed.

Lemma inflection_extractor_drops_stripped_length_witness :
  let text := "(tense, form) v. 1. to run 2. to flee" in
  exists m,
    Re.re_match "^\(([^\(\)]*(?:\(.+?\))?[^\(\)]*)\)" text = Ok (Some m)
    /\ Re.group m 1 = Some "tense, form"
    /\ Pinoy.extract_inflections text
       = Ok (["tense"; "form"], "v. 1. to run 2. to flee").
Proof.
  intros text.
  destruct (Re.re_match "^\(([^\(\)]*(?:\(.+?\))?[^\(\)]*)\)" text)
    as [[m|]| |] eqn:Hm; try (vm_compute in Hm; discriminate Hm).
  exists m. split; [reflexivity|].
  assert (Hg : Re.group m 1 = Some "tense, form").
  { vm_compute in Hm. injection Hm as <-. reflexivity. }
  split; [exact Hg|].
  rewrite (proj1 inflection_extractor_drops_stripped_length text m _ Hm Hg).
  reflexivity.
Defined.

(** * Further properties of the code *)

(** ** What the Fragment Merger keeps *)

Section MergerInvariants.
Import Gcide.

Lemma extend_last_has_word (data : list parsed_entry) (more : list definition) :
  Forall (fun e => has_word e = true) data ->
  Forall (fun e => has_word e = true) (extend_last data more).
Proof.
  induction data as [|e data IH]; intros H; simpl.
  - constructor.
  - inversion H as [|? ? He Hdata]; subst.
    destruct data as [|e' data'].
    + constructor; [exact He | constructor].
    + constructor; [exact He | apply IH; exact Hdata].
Qed.

Lemma merge_step_has_word (data : list parsed_entry) (r : option parsed_entry) :
  Forall (fun e => has_word e = true) data ->
  Forall (fun e => has_word e = true) (merge_step data r).
Proof.
  intros H. destruct r as [e|]; unfold merge_step; [|exact H].
  destruct (has_word e) eqn:He.
  - apply Forall_app. split; [exact H|]. constructor; [exact He | constructor].
  - destruct (1 <=? List.length data)%nat; [|exact H].
    apply extend_last_has_word. exact H.
Qed.

Lemma fold_merge_step_has_word (results : list (option parsed_entry)) :
  forall data,
    Forall (fun e => has_word e = true) data ->
    Forall (fun e => has_word e = true) (fold_left merge_step results data).
Proof.
  induction results as [|r results IH]; intros data H; simpl.
  - exact H.
  - apply IH, merge_step_has_word, H.
Qed.

Lemma process_letter_has_word (document : option Dom.node) :
  Forall (fun e => has_word e = true) (process_letter document).
Proof.
  destruct document as [soup|]; [|constructor].
  rewrite process_letter_merge. apply fold_merge_step_has_word. constructor.
Qed.

Lemma parse_has_word (documents : list (option Dom.node)) :
  Forall (fun e => has_word e = true) (parse [] documents).
Proof.
  unfold parse. simpl.
  induction documents as [|d documents IH]; simpl.
  - constructor.
  - apply Forall_app. split; [apply process_letter_has_word | exact IH].
Qed.

Lemma extend_last_words (data : list parsed_entry) (more : list definition) :
  List.map word (extend_last data more) = List.map word data.
Proof.
  induction data as [|e data IH]; simpl.
  - reflexivity.
  - destruct data as [|e' data'].
    + reflexivity.
    + simpl in *. rewrite IH. reflexivity.
Qed.

Lemma fold_merge_step_words (results : list (option parsed_entry)) :
  forall data,
    List.map word (fold_left merge_step results data)
    = List.map word data
      ++ List.map word (List.filter has_word (omap id results)).
Proof.
  induction results as [|r results IH]; intros data; simpl.
  - rewrite app_nil_r. reflexivity.
  - rewrite IH. destruct r as [e|]; [|reflexivity].
    unfold merge_step. cbn [omap list_omap id].
    destruct (has_word e) eqn:He.
    + cbn [List.filter]. rewrite He.
      rewrite List.map_app. simpl. rewrite <- app_assoc. reflexivity.
    + cbn [List.filter]. rewrite He.
      destruct (1 <=? List.length data)%nat; [|reflexivity].
      rewrite extend_last_words. reflexivity.
Qed.

Lemma extend_last_definitions (data : list parsed_entry) (more : list definition) :
  data <> [] ->
  List.concat (List.map definitions (extend_last data more))
  = List.concat (List.map definitions data) ++ more.
Proof.
  induction data as [|e data IH]; intros Hne; [contradiction|].
  destruct data as [|e' data'].
  - simpl. rewrite !app_nil_r. reflexivity.
  - change (extend_last (e :: e' :: data') more)
      with (e :: extend_last (e' :: data') more).
    cbn [List.map List.concat]. rewrite IH by discriminate.
    cbn [List.map List.concat]. rewrite <- !app_assoc. reflexivity.
Qed.

Lemma fold_merge_step_definitions (results : list (option parsed_entry)) :
  forall data,
    data <> [] ->
    List.concat (List.map definitions (fold_left merge_step results data))
    = List.concat (List.map definitions data)
      ++ List.concat (List.map definitions_of results).
Proof.
  induction results as [|r results IH]; intros data Hne; simpl.
  - rewrite app_nil_r. reflexivity.
  - destruct r as [e|]; [|apply IH; exact Hne].
    unfold merge_step. cbn [definitions_of].
    destruct (has_word e).
    + rewrite IH by (destruct data; discriminate).
      rewrite List.map_app, List.concat_app. simpl.
      rewrite app_nil_r, <- app_assoc. reflexivity.
    + destruct data as [|e0 data0]; [contradiction|].
      change (1 <=? List.length (e0 :: data0))%nat with true. cbn iota.
      rewrite IH.
      * rewrite extend_last_definitions by discriminate.
        rewrite <- app_assoc. reflexivity.
      * destruct data0; discriminate.
Qed.

End MergerInvariants.

(** X1.  Every entry the Fragment Merger puts out has a headword: a
    record without headword is folded into its owner or dropped, never
    emitted on its own.  This holds for the merger on any results, for
    [process_letter] on any file and for [parse] started on an empty
    collection. *)
Theorem merged_entries_have_headword :
  (forall results,
      Forall (fun e => Gcide.has_word e = true) (Gcide.merge results))
  /\ (forall document,
         Forall (fun e => Gcide.has_word e = true) (Gcide.process_letter document))
  /\ (forall documents,
         Forall (fun e => Gcide.has_word e = true) (Gcide.parse [] documents)).
Proof.
  split; [|split].
  - intros results. apply fold_merge_step_has_word. constructor.
  - apply process_letter_has_word.
  - apply parse_has_word.
Qed.

(** X3.  The headwords of the merged output are the present headwords of
    the results, in source order: the merger neither invents, drops nor
    reorders a headword. *)
Theorem merged_headwords_in_source_order (results : list (option Gcide.parsed_entry)) :
  List.map Gcide.word (Gcide.merge results)
  = List.map Gcide.word (List.filter Gcide.has_word (omap id results)).
Proof. unfold Gcide.merge. rewrite fold_merge_step_words. reflexivity. Qed.

(** X4.  Once a headword has been emitted no definition is lost or
    reordered: the definitions of the merged output, read entry by
    entry, are those of the results in source order. *)
Theorem merger_keeps_definitions_after_headword
    (h : Gcide.parsed_entry) (results : list (option Gcide.parsed_entry)) :
  Gcide.has_word h = true ->
  List.concat (List.map Gcide.definitions (Gcide.merge (Some h :: results)))
  = Gcide.definitions h ++ List.concat (List.map definitions_of results).
Proof.
  intros Hh.
  change (Gcide.merge (Some h :: results))
    with (fold_left Gcide.merge_step results (Gcide.merge_step [] (Some h))).
  rewrite (merge_step_headword [] h Hh).
  rewrite fold_merge_step_definitions by discriminate.
  simpl. rewrite app_nil_r. reflexivity.
Qed.

Lemma merger_keeps_definitions_after_headword_witness :
  let h := {| Gcide.word := Some "bat"; Gcide.definitions := [sense "a club"] |} in
  let c := {| Gcide.word := None; Gcide.definitions := [sense "a mammal"] |} in
  let k := {| Gcide.word := Some "cat"; Gcide.definitions := [sense "a feline"] |} in
  Gcide.has_word h = true
  /\ List.concat (List.map Gcide.definitions (Gcide.merge [Some h; Some c; None; Some k]))
     = [sense "a club"; sense "a mammal"; sense "a feline"].
Proof.
  intros h c k. split; [reflexivity|].
  rewrite (merger_keeps_definitions_after_headword h [Some c; None; Some k] eq_refl).
  reflexivity.
Defined.

Section ExportFacts.
Import Gcide.
Context {A : Type} (key : A -> string).

Lemma sort_by_sorted_id (l : list A) :
  Sorted (key_le key) l -> sort_by key l = l.
Proof.
  induction 1 as [|x l Hs IH Hhd]; simpl.
  - reflexivity.
  - rewrite IH. destruct Hhd as [|y l' Hxy]; simpl.
    + reflexivity.
    + unfold key_le in Hxy. rewrite Hxy. reflexivity.
Qed.

Lemma sort_by_idem (l : list A) : sort_by key (sort_by key l) = sort_by key l.
Proof.
  apply sort_by_sorted_id, StronglySorted_Sorted, sort_by_sorted.
Qed.

End ExportFacts.

Lemma forallb_sort_by (p : Gcide.parsed_entry -> bool) (l : list Gcide.parsed_entry) :
  forallb p (Gcide.sort_by Gcide.key_or_empty l) = forallb p l.
Proof.
  destruct (forallb p l) eqn:H.
  - apply forallb_forall. intros e He.
    rewrite forallb_forall in H. apply H.
    eapply Permutation_in; [apply Permutation_sym, sort_by_perm | exact He].
  - destruct (forallb p (Gcide.sort_by Gcide.key_or_empty l)) eqn:H'; [|reflexivity].
    rewrite <- H. symmetry. apply forallb_forall. intros e He.
    rewrite forallb_forall in H'. apply H'.
    eapply Permutation_in; [apply sort_by_perm | exact He].
Qed.

(** X2.  [export_parsed_data] never raises on what [parse] collected: the
    result is "no data" exactly when nothing was collected, and otherwise
    a document whose entries are a rearrangement of the collection and
    whose [total_entries] is their number. *)
Theorem export_after_parse_never_raises (documents : list (option Dom.node)) :
  let data := Gcide.parse [] documents in
  (data = [] /\ Gcide.export_parsed_data data = Ok Gcide.NoData)
  \/ (data <> []
      /\ exists m out,
           Gcide.export_parsed_data data = Ok (Gcide.Written m out)
           /\ Permutation data out
           /\ Gcide.total_entries m = List.length data).
Proof.
  intros data.
  assert (Hkeys : forallb (fun e => match Gcide.sort_key e with
                                    | Some _ => true | None => false end)
                    data = true).
  { apply forallb_forall. intros e He.
    pose proof (parse_has_word documents) as Hall.
    rewrite Forall_forall in Hall.
    assert (Hw : Gcide.has_word e = true)
      by (apply Hall, list_elem_of_In; exact He).
    unfold Gcide.has_word in Hw. unfold Gcide.sort_key.
    destruct (Gcide.word e); [reflexivity | discriminate]. }
  destruct data as [|e0 rest] eqn:Hdata.
  - left. split; reflexivity.
  - right. split; [discriminate|].
    unfold Gcide.export_parsed_data. rewrite Hkeys.
    eexists. eexists. split; [reflexivity|].
    split; [apply sort_by_perm|].
    exact (eq_sym (Permutation_length (sort_by_perm Gcide.key_or_empty (e0 :: rest)))).
Qed.

(** X5.  Exporting what an export wrote writes the same document again:
    the entries are already in order, so the second sort moves nothing,
    and the meta data are the same. *)
Theorem export_of_exported_is_unchanged
    (parsed_data out : list Gcide.parsed_entry) (m : Gcide.meta) :
  Gcide.export_parsed_data parsed_data = Ok (Gcide.Written m out) ->
  Gcide.export_parsed_data out = Ok (Gcide.Written m out).
Proof.
  intros H.
  assert (Hfacts :
            forallb (fun e => match Gcide.sort_key e with
                              | Some _ => true | None => false end) out = true
            /\ Gcide.sort_by Gcide.key_or_empty out = out
            /\ out <> []
            /\ m = {| Gcide.lang := "eng"; Gcide.definition_lang := "eng";
                      Gcide.total_entries := List.length out;
                      Gcide.meta_source_title := "GCIDE";
                      Gcide.source_link := "https://ibiblio.org/webster/" |}).
  { unfold Gcide.export_parsed_data in H.
    destruct parsed_data as [|e0 rest]; [discriminate|].
    set (l := e0 :: rest) in *.
    destruct (forallb _ l) eqn:Hkeys; [|discriminate].
    injection H as <- <-.
    split; [exact (eq_trans (forallb_sort_by _ l) Hkeys)|].
    split; [exact (sort_by_idem Gcide.key_or_empty l)|].
    split; [|reflexivity].
    intros Hnil.
    pose proof (Permutation_length (sort_by_perm Gcide.key_or_empty l)) as Hlen.
    change (Gcide.sort_by Gcide.key_or_empty l = []) in Hnil.
    rewrite Hnil in Hlen. discriminate Hlen. }
  destruct Hfacts as (Hkeys & Hsorted & Hne & ->).
  unfold Gcide.export_parsed_data.
  destruct out as [|o os]; [contradiction|].
  rewrite Hkeys, Hsorted. reflexivity.
Qed.

Lemma export_of_exported_is_unchanged_witness :
  let data := [ {| Gcide.word := Some "Zebra"; Gcide.definitions := [] |};
                {| Gcide.word := Some "apple"; Gcide.definitions := [] |} ] in
  exists m out,
    Gcide.export_parsed_data data = Ok (Gcide.Written m out)
    /\ List.map Gcide.word out = [Some "apple"; Some "Zebra"]
    /\ Gcide.export_parsed_data out = Ok (Gcide.Written m out).
Proof.
  intros data.
  destruct (Gcide.export_parsed_data data) as [[|m out]| |] eqn:H;
    try (vm_compute in H; discriminate H).
  exists m, out. split; [reflexivity|]. split.
  - vm_compute in H. injection H as _ <-. reflexivity.
  - exact (export_of_exported_is_unchanged data out m H).
Defined.

Lemma sort_keys_missing (l : list Gcide.parsed_entry) :
  forallb (fun e => match Gcide.sort_key e with
                    | Some _ => true | None => false end) l = false
  <-> Exists (fun e => Gcide.word e = None) l.
Proof.
  induction l as [|e l IH]; simpl.
  - split; [discriminate | intros H; inversion H].
  - unfold Gcide.sort_key at 1. destruct (Gcide.word e) as [w|] eqn:Hw; simpl.
    + rewrite IH. split.
      * intros H. apply Exists_cons_tl. exact H.
      * intros H. inversion H as [? ? Hnone|? ? Htl]; subst; [congruence | exact Htl].
    + split; [|reflexivity]. intros _. apply Exists_cons_hd. exact Hw.
Qed.

(** X6.  [export_parsed_data] raises exactly on a non-empty collection
    with an entry whose word is [None] (the sort key calls [lower] on
    it); an empty collection is reported as "no data" and nothing is
    written. *)
Theorem export_raises_exactly_without_word (parsed_data : list Gcide.parsed_entry) :
  (Gcide.export_parsed_data parsed_data = Raise
   <-> parsed_data <> [] /\ Exists (fun e => Gcide.word e = None) parsed_data)
  /\ (Gcide.export_parsed_data parsed_data = Ok Gcide.NoData <-> parsed_data = []).
Proof.
  destruct parsed_data as [|e0 rest].
  - split; split.
    + discriminate.
    + intros [Hne _]. contradiction.
    + reflexivity.
    + reflexivity.
  - pose proof (sort_keys_missing (e0 :: rest)) as Hmiss.
    unfold Gcide.export_parsed_data.
    destruct (forallb _ (e0 :: rest)) eqn:Hkeys.
    + split; split.
      * discriminate.
      * intros [_ Hex]. apply Hmiss in Hex. discriminate Hex.
      * discriminate.
      * discriminate.
    + split; split.
      * intros _. split; [discriminate|]. apply Hmiss. reflexivity.
      * reflexivity.
      * discriminate.
      * discriminate.
Qed.

(** ** Fields of the definitions [Gcide.process_entry] builds *)

Section GcideFields.

Lemma lower_char_idem (c : ascii) :
  PyStr.lower_char (PyStr.lower_char c) = PyStr.lower_char c.
Proof. destruct c as [[] [] [] [] [] [] [] []]; reflexivity. Qed.

Lemma lower_char_isspace (c : ascii) :
  PyStr.isspace_char (PyStr.lower_char c) = PyStr.isspace_char c.
Proof. destruct c as [[] [] [] [] [] [] [] []]; reflexivity. Qed.

Lemma lower_idem (s : string) : PyStr.lower (PyStr.lower s) = PyStr.lower s.
Proof.
  induction s as [|c s IH]; simpl; [reflexivity|].
  rewrite lower_char_idem, IH. reflexivity.
Qed.

Lemma lower_lstrip (s : string) :
  PyStr.lstrip_by PyStr.isspace_char (PyStr.lower s)
  = PyStr.lower (PyStr.lstrip_by PyStr.isspace_char s).
Proof.
  induction s as [|c s IH]; simpl; [reflexivity|].
  rewrite lower_char_isspace. destruct (PyStr.isspace_char c); [exact IH | reflexivity].
Qed.

Lemma lower_rstrip (s : string) :
  PyStr.rstrip_by PyStr.isspace_char (PyStr.lower s)
  = PyStr.lower (PyStr.rstrip_by PyStr.isspace_char s).
Proof.
  induction s as [|c s IH]; simpl; [reflexivity|].
  rewrite IH, lower_char_isspace.
  destruct (PyStr.rstrip_by PyStr.isspace_char s) as [|d r]; simpl.
  - destruct (PyStr.isspace_char c); reflexivity.
  - reflexivity.
Qed.

Lemma lower_strip (s : string) :
  PyStr.strip (PyStr.lower s) = PyStr.lower (PyStr.strip s).
Proof.
  unfold PyStr.strip, PyStr.strip_by. rewrite lower_rstrip, lower_lstrip.
  reflexivity.
Qed.

(** A token as the synonym and antonym lists hold it. *)
Lemma normalized_token (w : string) :
  let t := PyStr.lower (PyStr.strip w) in
  PyStr.lower t = t /\ PyStr.strip t = t.
Proof.
  split.
  - apply lower_idem.
  - rewrite lower_strip. unfold PyStr.strip. rewrite strip_by_idem. reflexivity.
Qed.

Lemma keep_list_some (l l' : list string) : keep_list l = Some l' -> l' = l /\ l <> [].
Proof.
  destruct l; simpl; intros H; [discriminate|].
  injection H as <-. split; [reflexivity | discriminate].
Qed.

Lemma keep_opt_some (o : option string) (s : string) :
  keep_opt o = Some s -> o = Some s /\ s <> EmptyString.
Proof.
  destruct o as [x|]; simpl; intros H; [|discriminate].
  apply keep_str_some in H as [-> Hne]. split; [reflexivity | exact Hne].
Qed.

End GcideFields.

(** X7.  All definitions of one GCIDE paragraph carry the same part of
    speech, origin, synonyms, antonyms, examples and source title: these
    are read once per paragraph and copied to every sense; only the
    description differs. *)
Theorem gcide_definitions_share_fields
    (p : Dom.node) (e : Gcide.parsed_entry) (d1 d2 : Gcide.definition) :
  Gcide.process_entry p = Some e ->
  In d1 (Gcide.definitions e) ->
  In d2 (Gcide.definitions e) ->
  Gcide.pos d1 = Gcide.pos d2
  /\ Gcide.origin d1 = Gcide.origin d2
  /\ Gcide.synonyms d1 = Gcide.synonyms d2
  /\ Gcide.antonyms d1 = Gcide.antonyms d2
  /\ Gcide.examples d1 = Gcide.examples d2
  /\ Gcide.source_title d1 = Gcide.source_title d2.
Proof.
  unfold Gcide.process_entry. intros H. injection H as <-. simpl.
  intros H1 H2.
  apply in_map_iff in H1 as (x1 & <- & _).
  apply in_map_iff in H2 as (x2 & <- & _).
  simpl. repeat split.
Qed.

Lemma gcide_definitions_share_fields_witness :
  let p := Dom.Tag "p" [Dom.Tag "ent" [Dom.Text "bat"];
                        Dom.Tag "pos" [Dom.Text "n."];
                        Dom.Tag "def" [Dom.Text "a club"];
                        Dom.Tag "def" [Dom.Text "a mammal"]] in
  exists e d1 d2,
    Gcide.process_entry p = Some e
    /\ Gcide.definitions e = [d1; d2]
    /\ Gcide.description d1 <> Gcide.description d2
    /\ Gcide.pos d1 = Gcide.pos d2.
Proof.
  intros p.
  destruct (Gcide.process_entry p) as [e|] eqn:He; [|discriminate He].
  assert (Hd : exists d1 d2, Gcide.definitions e = [d1; d2]
                             /\ Gcide.description d1 <> Gcide.description d2).
  { vm_compute in He. injection He as <-. eexists. eexists.
    split; [reflexivity | discriminate]. }
  destruct Hd as (d1 & d2 & Hdefs & Hdiff).
  exists e, d1, d2. split; [reflexivity|]. split; [exact Hdefs|].
  split; [exact Hdiff|].
  apply (gcide_definitions_share_fields p e d1 d2 He); rewrite Hdefs; simpl; auto.
Defined.

(** X8.  Omit-empty policy of the GCIDE adapter: in every definition it
    builds, a field that is present is not empty (no empty string, no
    empty list), and the examples, when present, hold exactly one
    quotation. *)
Theorem gcide_present_fields_are_nonempty
    (p : Dom.node) (e : Gcide.parsed_entry) (d : Gcide.definition) :
  Gcide.process_entry p = Some e ->
  In d (Gcide.definitions e) ->
  Gcide.description d <> Some EmptyString
  /\ Gcide.pos d <> Some EmptyString
  /\ Gcide.origin d <> Some EmptyString
  /\ Gcide.synonyms d <> Some []
  /\ Gcide.antonyms d <> Some []
  /\ Gcide.source_title d <> Some EmptyString
  /\ (forall ex, Gcide.examples d = Some ex -> List.length ex = 1%nat).
Proof.
  unfold Gcide.process_entry. intros H. injection H as <-. simpl.
  intros Hd. apply in_map_iff in Hd as (x & <- & _). simpl.
  repeat split.
  - intros H. apply keep_str_some in H as [_ H]. apply H. reflexivity.
  - intros H. apply keep_opt_some in H as [_ H]. apply H. reflexivity.
  - intros H. apply keep_opt_some in H as [_ H]. apply H. reflexivity.
  - intros H. apply keep_list_some in H as [H1 H2]. apply H2. symmetry. exact H1.
  - intros H. apply keep_list_some in H as [H1 H2]. apply H2. symmetry. exact H1.
  - intros H. apply keep_str_some in H as [_ H]. apply H. reflexivity.
  - intros ex H. apply keep_list_some in H as [-> Hne].
    destruct (Dom.find "qex" p); [|exfalso; apply Hne; reflexivity].
    destruct (Dom.find "q" p); [reflexivity | exfalso; apply Hne; reflexivity].
Qed.

Lemma gcide_present_fields_are_nonempty_witness :
  let p := Dom.Tag "p" [Dom.Tag "ent" [Dom.Text "bat"];
                        Dom.Tag "pos" [];
                        Dom.Tag "def" [Dom.Text "a club"];
                        Dom.Tag "q" [Dom.Text "He swung the bat."];
                        Dom.Tag "qex" [Dom.Text "bat"]] in
  exists e d,
    Gcide.process_entry p = Some e
    /\ Gcide.definitions e = [d]
    /\ Gcide.pos d = None
    /\ Gcide.examples d = Some ["He swung the bat."]
    /\ Gcide.pos d <> Some EmptyString.
Proof.
  intros p.
  destruct (Gcide.process_entry p) as [e|] eqn:He; [|discriminate He].
  assert (Hd : exists d, Gcide.definitions e = [d] /\ Gcide.pos d = None
                         /\ Gcide.examples d = Some ["He swung the bat."]).
  { vm_compute in He. injection He as <-. eexists. repeat split. }
  destruct Hd as (d & Hdefs & Hpos & Hex).
  exists e, d. split; [reflexivity|]. split; [exact Hdefs|].
  split; [exact Hpos|]. split; [exact Hex|].
  apply (gcide_present_fields_are_nonempty p e d He).
  rewrite Hdefs. left. reflexivity.
Defined.

(** X9.  Every synonym and every antonym the GCIDE adapter emits is
    trimmed and lower-case: lower-casing or stripping it again changes
    nothing. *)
Theorem gcide_synonyms_and_antonyms_normalized
    (p : Dom.node) (e : Gcide.parsed_entry) (d : Gcide.definition)
    (tokens : list string) (t : string) :
  Gcide.process_entry p = Some e ->
  In d (Gcide.definitions e) ->
  Gcide.synonyms d = Some tokens \/ Gcide.antonyms d = Some tokens ->
  In t tokens ->
  PyStr.lower t = t /\ PyStr.strip t = t.
Proof.
  unfold Gcide.process_entry. intros H. injection H as <-. simpl.
  intros Hd. apply in_map_iff in Hd as (x & <- & _). simpl.
  intros [H | H] Ht; apply keep_list_some in H as [-> _].
  - destruct (Dom.find "syn" p); [|destruct Ht].
    apply in_map_iff in Ht as (w & <- & _). apply normalized_token.
  - destruct (Dom.find "ant" p); [|destruct Ht].
    apply in_map_iff in Ht as (w & <- & _). apply normalized_token.
Qed.

Lemma gcide_synonyms_and_antonyms_normalized_witness :
  let p := Dom.Tag "p" [Dom.Tag "ent" [Dom.Text "Big"];
                        Dom.Tag "def" [Dom.Text "of great size"];
                        Dom.Tag "syn" [Dom.Text "Syn. -- Large , HUGE"]] in
  exists e d,
    Gcide.process_entry p = Some e
    /\ Gcide.definitions e = [d]
    /\ Gcide.synonyms d = Some ["large"; "huge"]
    /\ PyStr.lower "huge" = "huge" /\ PyStr.strip "huge" = "huge".
Proof.
  intros p.
  destruct (Gcide.process_entry p) as [e|] eqn:He; [|discriminate He].
  assert (Hd : exists d, Gcide.definitions e = [d]
                         /\ Gcide.synonyms d = Some ["large"; "huge"]).
  { vm_compute in He. injection He as <-. eexists. repeat split. }
  destruct Hd as (d & Hdefs & Hsyn).
  exists e, d. split; [reflexivity|]. split; [exact Hdefs|]. split; [exact Hsyn|].
  apply (gcide_synonyms_and_antonyms_normalized p e d ["large"; "huge"] "huge" He).
  - rewrite Hdefs. left. reflexivity.
  - left. exact Hsyn.
  - right. left. reflexivity.
Defined.

(** ** What [Pinoy.process_entry] returns *)

Section PinoyEntries.

(** The stages behind an entry that was returned. *)
Lemma pinoy_entry_stages (r : Pinoy.raw_entry) (e : Pinoy.parsed_entry) :
  Pinoy.process_entry r = Ok (Some e) ->
  exists w text1 inflections text2 pos text3,
    Pinoy.raw_word r = Some w
    /\ Pinoy.clean_word w = Ok (Pinoy.word e)
    /\ Pinoy.strip_word_prefix (Pinoy.word e)
         (Dom.get_text_strip (Pinoy.raw_definition r)) = Ok text1
    /\ Pinoy.extract_inflections text1 = Ok (inflections, text2)
    /\ Pinoy.extract_pos text2 = Ok (pos, text3)
    /\ Pinoy.split_definitions pos inflections (Pinoy.raw_source r) text3
       = Ok (Pinoy.definitions e).
Proof.
  unfold Pinoy.process_entry.
  destruct (Pinoy.raw_word r) as [w|]; simpl; [|discriminate].
  destruct (negb (PyStr.nonempty w) || PyStr.isspace w); simpl; [discriminate|].
  destruct (Pinoy.clean_word w) as [w'| |] eqn:Hw; simpl; try discriminate.
  destruct (Pinoy.strip_word_prefix w' _) as [fd1| |] eqn:H1; simpl; try discriminate.
  destruct (Pinoy.extract_inflections fd1) as [[infl fd2]| |] eqn:H2; simpl;
    try discriminate.
  destruct (Pinoy.extract_pos fd2) as [[pos fd3]| |] eqn:H3; simpl; try discriminate.
  destruct (Pinoy.split_definitions pos infl (Pinoy.raw_source r) fd3)
    as [defs| |] eqn:H4; simpl; try discriminate.
  intros H. injection H as <-. simpl.
  exists w, fd1, infl, fd2, pos, fd3. repeat split; assumption.
Qed.

Lemma split_char_hd_no_sep (sep : ascii) (s : string) :
  PyStr.mem_char sep (List.hd EmptyString (PyStr.split_char sep s)) = false.
Proof.
  induction s as [|c s IH]; simpl.
  - reflexivity.
  - destruct (Ascii.eqb c sep) eqn:Hc; simpl.
    + reflexivity.
    + destruct (PyStr.split_char sep s) as [|piece pieces]; simpl in *.
      * rewrite Ascii.eqb_sym, Hc. reflexivity.
      * rewrite Ascii.eqb_sym, Hc, IH. reflexivity.
Qed.

Lemma clean_word_normal (w w' : string) :
  Pinoy.clean_word w = Ok w' ->
  PyStr.mem_char "," w' = false /\ PyStr.strip w' = w'.
Proof.
  unfold Pinoy.clean_word.
  destruct (Re.re_sub _ _ w) as [x| |]; cbn [exc_bind]; try discriminate.
  destruct (PyStr.mem_char "," (PyStr.strip x)) eqn:Hcomma; intros H;
    injection H as <-.
  - split.
    + apply strip_by_mem, split_char_hd_no_sep.
    + unfold PyStr.strip. apply strip_by_idem.
  - split; [exact Hcomma|]. unfold PyStr.strip. apply strip_by_idem.
Qed.

Lemma extract_inflections_trimmed (text : string) (inflections : list string)
    (rest : string) :
  Pinoy.extract_inflections text = Ok (inflections, rest) ->
  Forall (fun i => PyStr.strip i = i) inflections.
Proof.
  unfold Pinoy.extract_inflections.
  destruct (Re.re_match _ text) as [[m|]| |]; cbn [exc_bind]; try discriminate.
  - destruct (Re.group m 1) as [g|]; [|discriminate].
    intros H. injection H as <- _.
    apply Forall_forall. intros i Hi.
    apply list_elem_of_In, in_map_iff in Hi as (x & <- & _).
    unfold PyStr.strip. apply strip_by_idem.
  - intros H. injection H as <- _. constructor.
Qed.

Lemma extract_pos_trimmed (text : string) (pos : option string) (rest : string) :
  Pinoy.extract_pos text = Ok (pos, rest) ->
  forall p, pos = Some p -> PyStr.strip p = p.
Proof.
  unfold Pinoy.extract_pos.
  destruct (Re.re_match _ text) as [[m|]| |]; cbn [exc_bind]; try discriminate.
  - destruct (Re.group m 1) as [g|]; [|discriminate].
    intros H. injection H as <- _. intros p Hp. injection Hp as <-.
    unfold PyStr.strip. apply strip_by_idem.
  - intros H. injection H as <- _. discriminate.
Qed.

End PinoyEntries.

(** X10.  The headword of every entry the scraped adapter returns is
    trimmed and contains no comma: of a comma-separated list of
    spellings only the first is kept. *)
Theorem scraped_headword_is_trimmed_and_without_comma
    (r : Pinoy.raw_entry) (e : Pinoy.parsed_entry) :
  Pinoy.process_entry r = Ok (Some e) ->
  PyStr.mem_char "," (Pinoy.word e) = false
  /\ PyStr.strip (Pinoy.word e) = Pinoy.word e.
Proof.
  intros H.
  destruct (pinoy_entry_stages r e H) as (w & _ & _ & _ & _ & _ & _ & Hw & _).
  exact (clean_word_normal w (Pinoy.word e) Hw).
Qed.

Lemma scraped_headword_is_trimmed_and_without_comma_witness :
  let r := Pinoy.record " adisyon, adisyon (mga) " "n. addition" "" in
  exists e,
    Pinoy.process_entry r = Ok (Some e)
    /\ Pinoy.word e = "adisyon"
    /\ PyStr.mem_char "," (Pinoy.word e) = false
    /\ PyStr.strip (Pinoy.word e) = Pinoy.word e.
Proof.
  intros r.
  destruct (Pinoy.process_entry r) as [[e|]| |] eqn:He;
    try (vm_compute in He; discriminate He).
  exists e. split; [reflexivity|]. split.
  - vm_compute in He. injection He as <-. reflexivity.
  - exact (scraped_headword_is_trimmed_and_without_comma r e He).
Defined.

(** X11.  All definitions of one scraped entry carry the same part of
    speech, inflections and source link; a field that is present is not
    empty; the part of speech and every inflection are trimmed. *)
Theorem scraped_definitions_share_fields
    (r : Pinoy.raw_entry) (e : Pinoy.parsed_entry) :
  Pinoy.process_entry r = Ok (Some e) ->
  exists pos inflections,
    (forall p, pos = Some p -> p <> EmptyString /\ PyStr.strip p = p)
    /\ (forall l, inflections = Some l ->
                  l <> [] /\ Forall (fun i => PyStr.strip i = i) l)
    /\ forall d, In d (Pinoy.definitions e) ->
         Pinoy.pos d = pos
         /\ Pinoy.inflections d = inflections
         /\ Pinoy.source_link d = keep_str (Pinoy.raw_source r)
         /\ Pinoy.description d <> Some EmptyString.
Proof.
  intros H.
  destruct (pinoy_entry_stages r e H)
    as (w & t1 & infl & t2 & pos & t3 & _ & _ & _ & Hinfl & Hpos & Hsplit).
  exists (keep_opt pos), (keep_list infl). split; [|split].
  - intros p Hp. apply keep_opt_some in Hp as [-> Hne].
    split; [exact Hne|]. exact (extract_pos_trimmed t2 (Some p) t3 Hpos p eq_refl).
  - intros l Hl. apply keep_list_some in Hl as [-> Hne].
    split; [exact Hne|]. exact (extract_inflections_trimmed t1 infl t2 Hinfl).
  - intros d Hd.
    destruct (split_definitions_made _ _ _ _ _ Hsplit d Hd) as (piece & _ & ->).
    simpl. repeat split.
    intros Hs. apply keep_str_some in Hs as [_ Hne]. apply Hne. reflexivity.
Qed.

Lemma scraped_definitions_share_fields_witness :
  let r := Pinoy.record "abay" "(umabay, abayan) n., v. 1) best man; 2) to escort" "" in
  exists e,
    Pinoy.process_entry r = Ok (Some e)
    /\ List.map Pinoy.description (Pinoy.definitions e)
       = [Some "best man"; Some "to escort"]
    /\ List.map Pinoy.pos (Pinoy.definitions e) = [Some "n., v."; Some "n., v."]
    /\ exists pos inflections,
         forall d, In d (Pinoy.definitions e) ->
           Pinoy.pos d = pos /\ Pinoy.inflections d = inflections.
Proof.
  intros r.
  destruct (Pinoy.process_entry r) as [[e|]| |] eqn:He;
    try (vm_compute in He; discriminate He).
  exists e. split; [reflexivity|].
  split; [vm_compute in He; injection He as <-; reflexivity|].
  split; [vm_compute in He; injection He as <-; reflexivity|].
  destruct (scraped_definitions_share_fields r e He) as (pos & infl & _ & _ & Hall).
  exists pos, infl. intros d Hd.
  destruct (Hall d Hd) as (Hp & Hi & _). split; assumption.
Defined.

(** ** Texts the extractors leave alone *)

Section Untouched.

Lemma extract_inflections_without_parenthesis (text : string) :
  starts_with (Ascii.eqb "(") text = false ->
  Pinoy.extract_inflections text = Ok ([], text).
Proof.
  intros Hstart. unfold Pinoy.extract_inflections, Re.re_match.
  destruct (Re.parse _) as [r| |] eqn:Hp; vm_compute in Hp; try discriminate Hp.
  injection Hp as <-. cbn [exc_bind].
  replace (Re.match_at _ text 0 text false) with (@None Re.mobj); [reflexivity|].
  unfold Re.match_at. cbn [Re.run Nat.eqb].
  destruct text as [|c s]; [reflexivity|].
  cbn [starts_with] in Hstart. rewrite Ascii.eqb_sym in Hstart.
  rewrite Hstart. reflexivity.
Qed.

Lemma extract_pos_without_letter (text : string) :
  starts_with (fun c => PyStr.isdigit_char c || PyStr.between 97 122 c) text = false ->
  Pinoy.extract_pos text = Ok (None, text).
Proof.
  intros Hstart. unfold Pinoy.extract_pos, Re.re_match.
  destruct (Re.parse _) as [r| |] eqn:Hp; vm_compute in Hp; try discriminate Hp.
  injection Hp as <-. cbn [exc_bind].
  replace (Re.match_at _ text 0 text false) with (@None Re.mobj); [reflexivity|].
  destruct text as [|c s]; [reflexivity|].
  cbn [starts_with] in Hstart.
  destruct c as [[] [] [] [] [] [] [] []];
    try discriminate Hstart; vm_compute; reflexivity.
Qed.

End Untouched.

(** X12.  The extractors leave alone what they do not apply to: a text
    that does not begin with an opening parenthesis has no inflections,
    and a text that begins with neither a digit nor a lower-case ASCII
    letter has no part of speech; in both cases the text is handed on as
    it is. *)
Theorem extractors_leave_other_texts_alone (text : string) :
  (starts_with (Ascii.eqb "(") text = false ->
   Pinoy.extract_inflections text = Ok ([], text))
  /\ (starts_with (fun c => PyStr.isdigit_char c || PyStr.between 97 122 c) text = false ->
      Pinoy.extract_pos text = Ok (None, text)).
Proof.
  split.
  - apply extract_inflections_without_parenthesis.
  - apply extract_pos_without_letter.
Qed.

Lemma extractors_leave_other_texts_alone_witness :
  starts_with (Ascii.eqb "(") "Busy (said of a person)" = false
  /\ Pinoy.extract_inflections "Busy (said of a person)"
     = Ok ([], "Busy (said of a person)")
  /\ starts_with (fun c => PyStr.isdigit_char c || PyStr.between 97 122 c)
       "Busy (said of a person)" = false
  /\ Pinoy.extract_pos "Busy (said of a person)"
     = Ok (None, "Busy (said of a person)").
Proof.
  split; [reflexivity|].
  split; [exact (proj1 (extractors_leave_other_texts_alone
                          "Busy (said of a person)") eq_refl)|].
  split; [reflexivity|].
  exact (proj2 (extractors_leave_other_texts_alone "Busy (said of a person)") eq_refl).
Defined.

(** ** Texts without digits are not split *)

Section DigitFree.

Variable p : ascii -> bool.

Lemma all_chars_append (a b : string) :
  PyStr.all_chars p (a +:+ b) = PyStr.all_chars p a && PyStr.all_chars p b.
Proof.
  induction a as [|c a IH]; simpl; [reflexivity|].
  rewrite IH, andb_assoc. reflexivity.
Qed.

Lemma all_chars_drop (n : nat) (s : string) :
  PyStr.all_chars p s = true -> PyStr.all_chars p (PyStr.drop n s) = true.
Proof.
  revert s. induction n as [|n IH]; intros [|c s] H; simpl; try assumption.
  apply IH. simpl in H. apply andb_true_iff in H. apply H.
Qed.

Lemma all_chars_take (n : nat) (s : string) :
  PyStr.all_chars p s = true -> PyStr.all_chars p (PyStr.take n s) = true.
Proof.
  revert s. induction n as [|n IH]; intros [|c s] H; simpl; try reflexivity.
  simpl in H. apply andb_true_iff in H as [Hc Hs].
  rewrite Hc. apply IH. exact Hs.
Qed.

Lemma all_chars_lstrip (q : ascii -> bool) (s : string) :
  PyStr.all_chars p s = true -> PyStr.all_chars p (PyStr.lstrip_by q s) = true.
Proof.
  induction s as [|c s IH]; intros H; simpl; [reflexivity|].
  destruct (q c); [|exact H].
  apply IH. simpl in H. apply andb_true_iff in H. apply H.
Qed.

Lemma all_chars_rstrip (q : ascii -> bool) (s : string) :
  PyStr.all_chars p s = true -> PyStr.all_chars p (PyStr.rstrip_by q s) = true.
Proof.
  induction s as [|c s IH]; intros H; simpl; [reflexivity|].
  simpl in H. apply andb_true_iff in H as [Hc Hs]. specialize (IH Hs).
  destruct (PyStr.rstrip_by q s) as [|d r].
  - destruct (q c); simpl; [reflexivity | rewrite Hc; reflexivity].
  - change (PyStr.all_chars p (String c (String d r)))
      with (p c && PyStr.all_chars p (String d r)).
    rewrite Hc, IH. reflexivity.
Qed.

Lemma all_chars_strip (q : ascii -> bool) (s : string) :
  PyStr.all_chars p s = true -> PyStr.all_chars p (PyStr.strip_by q s) = true.
Proof.
  intros H. unfold PyStr.strip_by. apply all_chars_lstrip, all_chars_rstrip, H.
Qed.

(** Removing matches only removes characters. *)
Lemma all_chars_sub_loop (whole : string) (ms : list Re.mobj) :
  PyStr.all_chars p whole = true ->
  forall from,
    PyStr.all_chars p (Re.sub_loop (fun _ => EmptyString) whole from ms) = true.
Proof.
  intros H. induction ms as [|m ms IH]; intros from; simpl.
  - apply all_chars_drop, H.
  - rewrite all_chars_append. apply andb_true_iff. split.
    + unfold Re.slice. apply all_chars_take, all_chars_drop, H.
    + apply IH.
Qed.

End DigitFree.

Section NoSplit.

Lemma scan_split_pattern_digit_free (r' : Re.regex) (whole s : string) :
  digit_free s = true ->
  forall i must_advance,
    Re.scan (Re.Seq (Re.Rep 1 None true (Re.Set_ false [Re.IDigit])) r')
      whole i s must_advance = None.
Proof.
  induction s as [|c s IH]; intros Hs i must_advance.
  - reflexivity.
  - unfold digit_free in Hs. simpl in Hs. apply andb_true_iff in Hs as [Hc Hs].
    apply negb_true_iff in Hc.
    cbn [Re.scan].
    replace (Re.match_at _ whole i (String c s) must_advance) with (@None Re.mobj).
    + apply IH. exact Hs.
    + unfold Re.match_at. cbn [Re.run String.length].
      unfold Re.set_mem. cbn [existsb Re.item_mem]. rewrite Hc. reflexivity.
Qed.

Lemma re_split_digit_free (text : string) :
  digit_free text = true ->
  Re.re_split "\d+(?:\.|\))\s*" text = Ok [text].
Proof.
  intros H. unfold Re.re_split.
  destruct (Re.parse _) as [r| |] eqn:Hp; vm_compute in Hp; try discriminate Hp.
  injection Hp as <-. cbn [exc_bind].
  unfold Re.split_with, Re.all_matches.
  replace (2 * String.length text + 2)%nat
    with (S (2 * String.length text + 1))%nat by lia.
  cbn [Re.matches_from PyStr.drop].
  rewrite scan_split_pattern_digit_free by exact H.
  reflexivity.
Qed.

Lemma split_definitions_digit_free (pos : option string) (inflections : list string)
    (source text : string) :
  digit_free text = true ->
  Pinoy.split_definitions pos inflections source text
  = Ok (if PyStr.nonempty text
        then [Pinoy.make_definition pos inflections source text]
        else []).
Proof.
  intros H. unfold Pinoy.split_definitions.
  destruct (PyStr.nonempty text) eqn:Hne; [|reflexivity].
  rewrite re_split_digit_free by exact H. cbn [exc_bind List.filter].
  rewrite Hne. reflexivity.
Qed.

Lemma strip_word_prefix_digit_free (word text text1 : string) :
  digit_free text = true ->
  Pinoy.strip_word_prefix word text = Ok text1 ->
  digit_free text1 = true.
Proof.
  intros H. unfold Pinoy.strip_word_prefix, Re.re_sub.
  destruct (Re.parse _) as [r| |]; cbn [exc_bind]; try discriminate.
  intros E. injection E as <-.
  unfold digit_free, PyStr.lstrip_chars. apply all_chars_lstrip.
  unfold Re.sub_with. apply all_chars_sub_loop. exact H.
Qed.

End NoSplit.

(** X13.  Senses are split at numbered markers only: a record whose
    definition text holds no digit yields at most one definition, and
    the splitter returns a digit-free text as one sense. *)
Theorem digit_free_definition_is_one_sense :
  (forall pos inflections source text,
      digit_free text = true ->
      Pinoy.split_definitions pos inflections source text
      = Ok (if PyStr.nonempty text
            then [Pinoy.make_definition pos inflections source text]
            else []))
  /\ (forall r e,
         digit_free (Dom.get_text_strip (Pinoy.raw_definition r)) = true ->
         Pinoy.process_entry r = Ok (Some e) ->
         (List.length (Pinoy.definitions e) <= 1)%nat).
Proof.
  split; [exact split_definitions_digit_free|].
  intros r e Hfree He.
  destruct (pinoy_entry_stages r e He)
    as (w & t1 & infl & t2 & pos & t3 & _ & _ & H1 & H2 & H3 & H4).
  assert (F1 : digit_free t1 = true)
    by (eapply strip_word_prefix_digit_free; eassumption).
  assert (F2 : digit_free t2 = true).
  { destruct (extract_inflections_leading t1 infl t2 H2) as [[_ ->] | (n & _ & ->)].
    - exact F1.
    - unfold digit_free, PyStr.strip. apply all_chars_strip, all_chars_drop, F1. }
  assert (F3 : digit_free t3 = true).
  { destruct (extract_pos_leading t2 pos t3 H3) as [[_ ->] | (q & _ & ->)].
    - exact F2.
    - unfold digit_free, PyStr.strip. apply all_chars_strip, all_chars_drop, F2. }
  rewrite (split_definitions_digit_free pos infl _ t3 F3) in H4.
  injection H4 as <-. destruct (PyStr.nonempty t3); simpl; lia.
Qed.

Lemma digit_free_definition_is_one_sense_witness :
  let r := Pinoy.record "abala" "abala adj. busy; occupied" "" in
  digit_free (Dom.get_text_strip (Pinoy.raw_definition r)) = true
  /\ exists e,
       Pinoy.process_entry r = Ok (Some e)
       /\ List.map Pinoy.description (Pinoy.definitions e) = [Some "busy; occupied"]
       /\ (List.length (Pinoy.definitions e) <= 1)%nat.
Proof.
  intros r. split; [reflexivity|].
  destruct (Pinoy.process_entry r) as [[e|]| |] eqn:He;
    try (vm_compute in He; discriminate He).
  exists e. split; [reflexivity|].
  split; [vm_compute in He; injection He as <-; reflexivity|].
  exact (proj2 digit_free_definition_is_one_sense r e eq_refl He).
Defined.

(** ** [Pinoy.parse] *)

Section PinoyParse.

Lemma process_entry_never_raises (r : Pinoy.raw_entry) :
  Pinoy.process_entry r <> Raise.
Proof.
  unfold Pinoy.process_entry, try_except.
  destruct (match Pinoy.raw_word r with Some _ => _ | None => _ end); discriminate.
Qed.

Lemma parse_results (raw_data : list Pinoy.raw_entry) :
  forall parsed_data out,
    Pinoy.parse raw_data parsed_data = Ok out ->
    exists results,
      Forall2 (fun r res => Pinoy.process_entry r = Ok res) raw_data results
      /\ out = parsed_data ++ omap id results.
Proof.
  induction raw_data as [|r raw_data IH]; intros parsed_data out; simpl.
  - intros H. injection H as <-. exists []. split; [constructor|].
    simpl. rewrite app_nil_r. reflexivity.
  - destruct (Pinoy.process_entry r) as [res| |] eqn:Hr; cbn [exc_bind];
      try discriminate.
    destruct res as [e|]; intros H; apply IH in H as (results & Hall & ->).
    + exists (Some e :: results). split; [constructor; assumption|].
      simpl. rewrite <- app_assoc. reflexivity.
    + exists (None :: results). split; [constructor; assumption|]. reflexivity.
Qed.

Lemma parse_never_raises (raw_data : list Pinoy.raw_entry) :
  forall parsed_data, Pinoy.parse raw_data parsed_data <> Raise.
Proof.
  induction raw_data as [|r raw_data IH]; intros parsed_data; simpl.
  - discriminate.
  - pose proof (process_entry_never_raises r) as Hr.
    destruct (Pinoy.process_entry r) as [[e|]| |]; cbn [exc_bind];
      try apply IH; try discriminate.
    contradiction.
Qed.

Lemma length_omap_id {A : Type} (l : list (option A)) :
  (List.length (omap id l) <= List.length l)%nat.
Proof.
  induction l as [|[x|] l IH]; cbn [omap list_omap id List.length] in *;
    simpl; lia.
Qed.

End PinoyParse.

(** X14.  [parse] of the scraped adapter keeps the entries it was given,
    in front and unchanged, and appends the entries the records
    normalize to, in the order of the records and at most one per
    record; a record that fails inside [process_entry] is skipped and
    never aborts the run. *)
Theorem scraped_parse_appends_in_order
    (raw_data : list Pinoy.raw_entry) (parsed_data : list Pinoy.parsed_entry) :
  Pinoy.parse raw_data parsed_data <> Raise
  /\ forall out,
       Pinoy.parse raw_data parsed_data = Ok out ->
       exists results,
         Forall2 (fun r res => Pinoy.process_entry r = Ok res) raw_data results
         /\ out = parsed_data ++ omap id results
         /\ (List.length out <= List.length parsed_data + List.length raw_data)%nat.
Proof.
  split; [apply parse_never_raises|].
  intros out H.
  destruct (parse_results raw_data parsed_data out H) as (results & Hall & ->).
  exists results. split; [exact Hall|]. split; [reflexivity|].
  rewrite length_app.
  pose proof (length_omap_id results) as Hlen.
  apply Forall2_length in Hall. lia.
Qed.

Lemma scraped_parse_appends_in_order_witness :
  let raw := [Pinoy.record "aba" "interj. oh" "";
              Pinoy.record "*" "bad pattern" "";
              Pinoy.record "  " "blank word" "";
              Pinoy.record "abay" "n. escort" ""] in
  exists out,
    Pinoy.parse raw [] = Ok out
    /\ List.map Pinoy.word out = ["aba"; "abay"]
    /\ (List.length out <= 0 + 4)%nat.
Proof.
  intros raw.
  destruct (Pinoy.parse raw []) as [out| |] eqn:H;
    try (vm_compute in H; discriminate H).
  exists out. split; [reflexivity|].
  split; [vm_compute in H; injection H as <-; reflexivity|].
  destruct (proj2 (scraped_parse_appends_in_order raw []) out H)
    as (results & _ & _ & Hlen).
  exact Hlen.
Defined.

(** ** Counting word lists in [Freq.generate_freq_lists] *)

Section Counting.
Import Freq.

Lemma count_line_lookup (table : gmap string Z) (line w : string) :
  count_line table line !! w
  = if PyStr.nonempty w && String.eqb (PyStr.lower (PyStr.strip line)) w
    then Some (default 0%Z (table !! w) + 1)%Z
    else table !! w.
Proof.
  unfold count_line.
  set (word := PyStr.lower (PyStr.strip line)).
  destruct (String.eqb word w) eqn:Hw.
  - apply String.eqb_eq in Hw. subst w.
    destruct (PyStr.nonempty word); simpl.
    + rewrite lookup_insert_eq. reflexivity.
    + reflexivity.
  - rewrite andb_false_r. apply String.eqb_neq in Hw.
    destruct (PyStr.nonempty word); [|reflexivity].
    rewrite lookup_insert_ne by exact Hw. reflexivity.
Qed.

Lemma count_lines_lookup (lines : list string) :
  forall (table : gmap string Z) (w : string),
    fold_left count_line lines table !! w
    = if (occurrences w lines =? 0)%nat then table !! w
      else Some (default 0%Z (table !! w) + Z.of_nat (occurrences w lines))%Z.
Proof.
  induction lines as [|line lines IH]; intros table w.
  - reflexivity.
  - cbn [fold_left]. rewrite IH, count_line_lookup.
    unfold occurrences. cbn [List.filter].
    destruct (PyStr.nonempty w && String.eqb (PyStr.lower (PyStr.strip line)) w).
    + cbn [List.length].
      generalize (List.length
                    (List.filter
                       (fun line0 => PyStr.nonempty w
                                     && String.eqb (PyStr.lower (PyStr.strip line0)) w)
                       lines)).
      intros n. destruct n as [|n]; cbn [Nat.eqb default];
        apply (f_equal Some); unfold id;
        generalize (default 0%Z (table !! w)); intros d; lia.
    + reflexivity.
Qed.

Lemma apply_rows_missing_table (lang : string) (rows : list (list string))
    (tables : gmap string (gmap string Z)) :
  tables !! lang = None ->
  apply_rows lang tables rows
  = if existsb counted_row rows then None else Some tables.
Proof.
  intros Hlang. induction rows as [|row rows IH]; simpl.
  - reflexivity.
  - unfold apply_row, counted_row.
    destruct (List.length row <? 2)%nat; simpl; [exact IH|].
    destruct (PyStr.int (List.last row EmptyString)); simpl; [|exact IH].
    rewrite Hlang. reflexivity.
Qed.

Lemma process_wordlist_some (leipzig : string -> option (list (list string)))
    (tables : gmap string (gmap string Z)) (lang : string) (lines : list string) :
  exists table',
    process_wordlist leipzig tables lang lines = Some (<[lang := table']> tables)
    /\ forall w,
         table' !! w
         = (fun v => (v + match leipzig lang with
                          | Some rows => reference_count w rows
                          | None => 0
                          end)%Z)
             <$> (fold_left count_line lines (default ∅ (tables !! lang)) !! w).
Proof.
  unfold process_wordlist.
  set (tables0 := match tables !! lang with
                  | Some _ => tables
                  | None => <[lang := ∅]> tables
                  end).
  assert (Hdef : default ∅ (tables0 !! lang) = default ∅ (tables !! lang)).
  { unfold tables0. destruct (tables !! lang) as [t|] eqn:Ht.
    - rewrite Ht. reflexivity.
    - rewrite lookup_insert_eq. reflexivity. }
  assert (Hins : forall t, <[lang := t]> tables0 = <[lang := t]> tables).
  { intros t. unfold tables0. destruct (tables !! lang).
    - reflexivity.
    - apply insert_insert_eq. }
  rewrite Hdef, Hins.
  set (counted := fold_left count_line lines (default ∅ (tables !! lang))).
  destruct (leipzig lang) as [rows|]; simpl.
  - destruct (apply_rows_lookup lang rows (<[lang := counted]> tables) counted
                (lookup_insert_eq _ _ _)) as (t' & -> & Hlook).
    exists t'. split; [|exact Hlook].
    simpl. rewrite insert_insert_eq. reflexivity.
  - exists counted. split; [reflexivity|].
    intros w. rewrite fmap_add_zero. reflexivity.
Qed.

End Counting.

(** X15.  Counting a word list: after the lines of a file are counted
    into a table, the count of a word is its former count plus the number
    of lines that, stripped and lower-cased, equal the word; a word no
    line equals keeps its former entry, or none; blank lines count for
    nothing.  Started on an empty table, every count is at least 1. *)
Theorem word_list_counts_occurrences :
  (forall lines table w,
      fold_left Freq.count_line lines table !! w
      = if (occurrences w lines =? 0)%nat then table !! w
        else Some (default 0%Z (table !! w) + Z.of_nat (occurrences w lines))%Z)
  /\ (forall lines, occurrences EmptyString lines = 0%nat)
  /\ (forall lines w n,
         fold_left Freq.count_line lines ∅ !! w = Some n ->
         n = Z.of_nat (occurrences w lines) /\ (1 <= n)%Z).
Proof.
  split; [exact count_lines_lookup|]. split.
  - intros lines. unfold occurrences. simpl.
    induction lines as [|l lines IH]; [reflexivity | exact IH].
  - intros lines w n. rewrite count_lines_lookup, lookup_empty.
    destruct (occurrences w lines) as [|k]; simpl; [discriminate|].
    intros H. injection H as <-. split; lia.
Qed.

Lemma word_list_counts_occurrences_witness :
  let lines := ["Aso"; " aso "; ""; "pusa"; "ASO"] in
  fold_left Freq.count_line lines ∅ !! "aso" = Some 3%Z
  /\ (1 <= 3)%Z.
Proof.
  intros lines.
  assert (H : fold_left Freq.count_line lines ∅ !! "aso" = Some 3%Z)
    by (vm_compute; reflexivity).
  split; [exact H|].
  exact (proj2 (proj2 (proj2 word_list_counts_occurrences) lines "aso" 3%Z H)).
Defined.

(** X16.  [generate_freq_lists] never fails on a missing table: it
    creates the table of a language before it reads the file, so the
    lookup in [apply_existing_freqlist] always finds it. *)
Theorem generate_freq_lists_finds_every_table
    (leipzig : string -> option (list (list string)))
    (files : list (string * list string)) (tables : gmap string (gmap string Z)) :
  exists tables', Freq.generate_freq_lists leipzig files tables = Some tables'.
Proof.
  revert tables. induction files as [|[lang lines] files IH]; intros tables; simpl.
  - exists tables. reflexivity.
  - destruct (process_wordlist_some leipzig tables lang lines) as (t' & -> & _).
    apply IH.
Qed.

(** X17.  Called for a language that has no table,
    [apply_existing_freqlist] fails with the key error exactly when some
    reference row has at least two columns and a last column that reads
    as an integer; otherwise it returns [True] and changes nothing.
    Without reference file it returns [False] and changes nothing. *)
Theorem reference_merge_without_table
    (tables : gmap string (gmap string Z)) (lang : string) :
  Freq.apply_existing_freqlist tables lang None = Some (tables, false)
  /\ (tables !! lang = None ->
      forall rows,
        Freq.apply_existing_freqlist tables lang (Some rows)
        = if existsb counted_row rows then None else Some (tables, true)).
Proof.
  split; [reflexivity|].
  intros Hlang rows. unfold Freq.apply_existing_freqlist.
  rewrite (apply_rows_missing_table lang rows tables Hlang).
  destruct (existsb counted_row rows); reflexivity.
Qed.

Lemma reference_merge_without_table_witness :
  let tables : gmap string (gmap string Z) := {[ "tgl" := {[ "aso" := 1%Z ]} ]} in
  tables !! "ceb" = None
  /\ Freq.apply_existing_freqlist tables "ceb" (Some [["1"; "aso"; "7"]]) = None
  /\ Freq.apply_existing_freqlist tables "ceb" (Some [["aso"]; ["1"; "aso"; "many"]])
     = Some (tables, true).
Proof.
  intros tables.
  assert (Hlang : tables !! "ceb" = None) by reflexivity.
  split; [exact Hlang|]. split.
  - rewrite (proj2 (reference_merge_without_table tables "ceb") Hlang). reflexivity.
  - rewrite (proj2 (reference_merge_without_table tables "ceb") Hlang). reflexivity.
Defined.

(** X18.  One word-list file of a language changes the table of that
    language only.  A word of the file gets its former count plus its
    occurrences in the file plus its reference count; a word the table
    had before gets its reference count added again, although the file
    does not mention it: the reference is applied once per file, not once
    per language. *)
Theorem word_list_file_applies_reference_again
    (leipzig : string -> option (list (list string)))
    (tables : gmap string (gmap string Z)) (lang : string)
    (lines : list string) (rows : list (list string)) :
  leipzig lang = Some rows ->
  exists table',
    Freq.process_wordlist leipzig tables lang lines = Some (<[lang := table']> tables)
    /\ forall w,
         table' !! w
         = if (occurrences w lines =? 0)%nat
           then (fun v => (v + Freq.reference_count w rows)%Z)
                  <$> (default ∅ (tables !! lang) !! w)
           else Some (default 0%Z (default ∅ (tables !! lang) !! w)
                      + Z.of_nat (occurrences w lines)
                      + Freq.reference_count w rows)%Z.
Proof.
  intros Hrows.
  destruct (process_wordlist_some leipzig tables lang lines) as (t' & Hproc & Hlook).
  exists t'. split; [exact Hproc|].
  intros w. rewrite Hlook, Hrows, count_lines_lookup.
  destruct (occurrences w lines =? 0)%nat; reflexivity.
Qed.

Lemma word_list_file_applies_reference_again_witness :
  let leipzig := fun _ : string => Some [["1"; "aso"; "10"]] in
  let once := Freq.generate_freq_lists leipzig [("tgl", ["aso"])] ∅ in
  let twice := Freq.generate_freq_lists leipzig [("tgl", ["aso"]); ("tgl", ["pusa"])] ∅ in
  leipzig "tgl" = Some [["1"; "aso"; "10"]]
  /\ once = Some {[ "tgl" := {[ "aso" := 11%Z ]} ]}
  /\ twice = Some {[ "tgl" := {[ "aso" := 21%Z; "pusa" := 1%Z ]} ]}
  /\ exists table',
       Freq.process_wordlist leipzig {[ "tgl" := {[ "aso" := 11%Z ]} ]} "tgl" ["pusa"]
       = Some (<["tgl" := table']> {[ "tgl" := {[ "aso" := 11%Z ]} ]})
       /\ table' !! "aso" = Some 21%Z.
Proof.
  intros leipzig once twice.
  split; [reflexivity|].
  split; [vm_compute; reflexivity|].
  split; [vm_compute; reflexivity|].
  destruct (word_list_file_applies_reference_again leipzig
              {[ "tgl" := {[ "aso" := 11%Z ]} ]} "tgl" ["pusa"]
              [["1"; "aso"; "10"]] eq_refl) as (t' & Hproc & Hlook).
  exists t'. split; [exact Hproc|].
  rewrite Hlook. reflexivity.
Defined.

(** ** The rows [export_freq_lists] writes *)

Section FreqRows.
Import FreqOrder.

Lemma get_to_table (word : string) (words : list (string * Z)) :
  to_table words !! word = get word words.
Proof.
  unfold to_table. induction words as [|[k v] words IH]; simpl.
  - apply lookup_empty.
  - destruct (String.eqb k word) eqn:Hk.
    + apply String.eqb_eq in Hk. subst k. apply lookup_insert_eq.
    + apply String.eqb_neq in Hk. rewrite lookup_insert_ne by exact Hk. exact IH.
Qed.

Lemma set_to_table (word : string) (value : Z) (words : list (string * Z)) :
  to_table (set word value words) = <[word := value]> (to_table words).
Proof.
  unfold to_table. induction words as [|[k v] words IH]; simpl.
  - reflexivity.
  - destruct (String.eqb k word) eqn:Hk; simpl.
    + apply String.eqb_eq in Hk. subst k. rewrite insert_insert_eq. reflexivity.
    + apply String.eqb_neq in Hk. rewrite IH.
      apply insert_insert_ne. exact Hk.
Qed.

Lemma set_keys (word : string) (value : Z) (words : list (string * Z)) :
  List.map fst (set word value words)
  = match get word words with
    | Some _ => List.map fst words
    | None => List.map fst words ++ [word]
    end.
Proof.
  induction words as [|[k v] words IH]; simpl.
  - reflexivity.
  - destruct (String.eqb k word) eqn:Hk; simpl.
    + reflexivity.
    + rewrite IH. destruct (get word words); reflexivity.
Qed.

Lemma get_none_not_key (word : string) (words : list (string * Z)) :
  get word words = None -> ~ In word (List.map fst words).
Proof.
  induction words as [|[k v] words IH]; simpl; intros H.
  - intros [].
  - destruct (String.eqb k word) eqn:Hk; [discriminate|].
    apply String.eqb_neq in Hk. intros [E | Hin]; [contradiction|].
    apply (IH H Hin).
Qed.

Lemma set_nodup (word : string) (value : Z) (words : list (string * Z)) :
  List.NoDup (List.map fst words) -> List.NoDup (List.map fst (set word value words)).
Proof.
  intros H. rewrite set_keys.
  destruct (get word words) eqn:Hg; [exact H|].
  apply NoDup_ListNoDup. apply NoDup_app. split; [apply NoDup_ListNoDup; exact H|].
  split.
  - intros x Hx Hw. apply list_elem_of_In in Hx.
    apply list_elem_of_In in Hw. destruct Hw as [<-|[]].
    exact (get_none_not_key word words Hg Hx).
  - apply NoDup_singleton.
Qed.

Lemma count_line_refines (words : list (string * Z)) (line : string) :
  to_table (count_line words line) = Freq.count_line (to_table words) line.
Proof.
  unfold count_line, Freq.count_line.
  destruct (PyStr.nonempty _); [|reflexivity].
  rewrite set_to_table, get_to_table. reflexivity.
Qed.

Lemma apply_row_refines (lang : string) (tables : gmap string (gmap string Z))
    (words : list (string * Z)) (row : list string) :
  tables !! lang = Some (to_table words) ->
  Freq.apply_row lang tables row
  = Some (<[lang := to_table (apply_row words row)]> tables).
Proof.
  intros Hlang. unfold apply_row, Freq.apply_row.
  destruct (List.length row <? 2)%nat;
    [rewrite insert_id by exact Hlang; reflexivity|].
  destruct (PyStr.int _) as [freq|];
    [|rewrite insert_id by exact Hlang; reflexivity].
  rewrite Hlang, get_to_table.
  destruct (get _ words) eqn:Hg.
  - rewrite set_to_table. reflexivity.
  - rewrite insert_id by exact Hlang. reflexivity.
Qed.

Lemma count_line_nodup (words : list (string * Z)) (line : string) :
  List.NoDup (List.map fst words) ->
  List.NoDup (List.map fst (count_line words line)).
Proof.
  intros H. unfold count_line.
  destruct (PyStr.nonempty _); [apply set_nodup; exact H | exact H].
Qed.

Lemma apply_row_nodup (words : list (string * Z)) (row : list string) :
  List.NoDup (List.map fst words) ->
  List.NoDup (List.map fst (apply_row words row)).
Proof.
  intros H. unfold apply_row.
  destruct (List.length row <? 2)%nat; [exact H|].
  destruct (PyStr.int _); [|exact H].
  destruct (get _ words); [apply set_nodup; exact H | exact H].
Qed.

Lemma insert_desc_perm (x : string * Z) (l : list (string * Z)) :
  Permutation (x :: l) (insert_desc x l).
Proof.
  induction l as [|y l IH]; simpl.
  - apply Permutation_refl.
  - destruct (snd x <? snd y)%Z.
    + apply perm_trans with (y :: x :: l); [apply perm_swap|].
      apply perm_skip. exact IH.
    + apply Permutation_refl.
Qed.

Lemma sorted_words_perm (words : list (string * Z)) :
  Permutation words (sorted_words words).
Proof.
  induction words as [|x words IH]; simpl.
  - apply perm_nil.
  - apply perm_trans with (x :: sorted_words words).
    + apply perm_skip. exact IH.
    + apply insert_desc_perm.
Qed.

Lemma insert_desc_sorted (x : string * Z) (l : list (string * Z)) :
  Sorted count_ge l -> Sorted count_ge (insert_desc x l).
Proof.
  induction 1 as [|y l Hs IH Hhd]; simpl.
  - repeat constructor.
  - destruct (snd x <? snd y)%Z eqn:Hxy.
    + constructor; [exact IH|].
      apply Z.ltb_lt in Hxy.
      destruct l as [|z l]; simpl.
      * constructor. unfold count_ge. lia.
      * destruct (snd x <? snd z)%Z; constructor.
        -- inversion Hhd; assumption.
        -- unfold count_ge. lia.
    + apply Z.ltb_ge in Hxy.
      constructor; [constructor; assumption|].
      constructor. unfold count_ge. lia.
Qed.

Lemma sorted_words_sorted (words : list (string * Z)) :
  StronglySorted count_ge (sorted_words words).
Proof.
  apply Sorted_StronglySorted.
  - intros a b c. unfold count_ge. lia.
  - induction words as [|x words IH]; simpl.
    + constructor.
    + apply insert_desc_sorted. exact IH.
Qed.

Lemma insert_desc_filter (n : Z) (x : string * Z) (l : list (string * Z)) :
  List.filter (fun item => (snd item =? n)%Z) (insert_desc x l)
  = List.filter (fun item => (snd item =? n)%Z) (x :: l).
Proof.
  induction l as [|y l IH]; simpl.
  - reflexivity.
  - destruct (snd x <? snd y)%Z eqn:Hxy; simpl.
    + rewrite IH. simpl.
      destruct (snd x =? n)%Z eqn:Hx; destruct (snd y =? n)%Z eqn:Hy;
        try reflexivity.
      apply Z.ltb_lt in Hxy. apply Z.eqb_eq in Hx, Hy. lia.
    + reflexivity.
Qed.

Lemma sorted_words_stable (n : Z) (words : list (string * Z)) :
  List.filter (fun item => (snd item =? n)%Z) (sorted_words words)
  = List.filter (fun item => (snd item =? n)%Z) words.
Proof.
  induction words as [|x words IH]; simpl.
  - reflexivity.
  - rewrite insert_desc_filter. simpl. rewrite IH. reflexivity.
Qed.

Lemma in_get (word : string) (n : Z) (words : list (string * Z)) :
  List.NoDup (List.map fst words) ->
  (In (word, n) words <-> get word words = Some n).
Proof.
  induction words as [|[k v] words IH]; simpl; intros Hnd.
  - split; [intros [] | discriminate].
  - inversion Hnd as [|? ? Hk Hnd']; subst.
    destruct (String.eqb k word) eqn:Hkw.
    + apply String.eqb_eq in Hkw. subst k. split.
      * intros [E | Hin]; [injection E as ->; reflexivity|].
        exfalso. apply Hk. apply in_map_iff. exists (word, n). split; [reflexivity | exact Hin].
      * intros E. injection E as ->. left. reflexivity.
    + apply String.eqb_neq in Hkw. rewrite <- (IH Hnd'). split.
      * intros [E | Hin]; [injection E as -> _; contradiction | exact Hin].
      * intros Hin. right. exact Hin.
Qed.

End FreqRows.

Section OrderedBuild.
Import FreqOrder.

Lemma fold_count_line_refines (lines : list string) :
  forall words,
    List.NoDup (List.map fst words) ->
    List.NoDup (List.map fst (fold_left count_line lines words))
    /\ to_table (fold_left count_line lines words)
       = fold_left Freq.count_line lines (to_table words).
Proof.
  induction lines as [|line lines IH]; intros words Hnd; simpl.
  - split; [exact Hnd | reflexivity].
  - destruct (IH (count_line words line) (count_line_nodup words line Hnd))
      as [Hnd' Heq].
    split; [exact Hnd'|]. rewrite Heq, count_line_refines. reflexivity.
Qed.

Lemma fold_apply_row_refines (lang : string) (rows : list (list string)) :
  forall words tables,
    List.NoDup (List.map fst words) ->
    tables !! lang = Some (to_table words) ->
    List.NoDup (List.map fst (fold_left apply_row rows words))
    /\ Freq.apply_rows lang tables rows
       = Some (<[lang := to_table (fold_left apply_row rows words)]> tables).
Proof.
  induction rows as [|row rows IH]; intros words tables Hnd Hlang; simpl.
  - split; [exact Hnd|]. rewrite insert_id by exact Hlang. reflexivity.
  - rewrite (apply_row_refines lang tables words row Hlang).
    destruct (IH (apply_row words row)
                (<[lang := to_table (apply_row words row)]> tables)
                (apply_row_nodup words row Hnd) (lookup_insert_eq _ _ _))
      as [Hnd' Heq].
    split; [exact Hnd'|]. rewrite Heq, insert_insert_eq. reflexivity.
Qed.

End OrderedBuild.

(** X19.  The table kept in insertion order and the table as a finite map
    describe the same counts: after the same word-list lines and
    reference rows the ordered table has the lookups of the map, and no
    word occurs in it twice. *)
Theorem ordered_table_agrees_with_table
    (lang : string) (lines : list string) (rows : list (list string))
    (words : list (string * Z)) (tables : gmap string (gmap string Z)) :
  List.NoDup (List.map fst words) ->
  tables !! lang
  = Some (fold_left Freq.count_line lines (FreqOrder.to_table words)) ->
  let built :=
    fold_left FreqOrder.apply_row rows (fold_left FreqOrder.count_line lines words) in
  List.NoDup (List.map fst built)
  /\ Freq.apply_existing_freqlist tables lang (Some rows)
     = Some (<[lang := FreqOrder.to_table built]> tables, true)
  /\ forall w, FreqOrder.get w built = FreqOrder.to_table built !! w.
Proof.
  intros Hnd Hlang built.
  destruct (fold_count_line_refines lines words Hnd) as [Hnd1 Heq1].
  rewrite <- Heq1 in Hlang.
  destruct (fold_apply_row_refines lang rows _ tables Hnd1 Hlang) as [Hnd2 Heq2].
  split; [exact Hnd2|]. split.
  - unfold Freq.apply_existing_freqlist. fold built in Heq2. rewrite Heq2.
    reflexivity.
  - intros w. symmetry. apply get_to_table.
Qed.

Lemma ordered_table_agrees_with_table_witness :
  let lines := ["pusa"; "aso"; "Pusa"] in
  let rows := [["1"; "aso"; "5"]; ["2"; "ibon"; "9"]] in
  let tables : gmap string (gmap string Z) :=
    {[ "tgl" := fold_left Freq.count_line lines ∅ ]} in
  List.NoDup (List.map fst (@nil (string * Z)))
  /\ fold_left FreqOrder.apply_row rows (fold_left FreqOrder.count_line lines [])
     = [("pusa", 2%Z); ("aso", 6%Z)]
  /\ Freq.apply_existing_freqlist tables "tgl" (Some rows)
     = Some (<["tgl" := FreqOrder.to_table [("pusa", 2%Z); ("aso", 6%Z)]]> tables, true).
Proof.
  intros lines rows tables.
  assert (Hnd : List.NoDup (List.map fst (@nil (string * Z)))) by constructor.
  split; [exact Hnd|].
  assert (Hbuilt : fold_left FreqOrder.apply_row rows
                     (fold_left FreqOrder.count_line lines [])
                   = [("pusa", 2%Z); ("aso", 6%Z)]) by (vm_compute; reflexivity).
  split; [exact Hbuilt|].
  destruct (ordered_table_agrees_with_table "tgl" lines rows [] tables Hnd eq_refl)
    as (_ & Heq & _).
  rewrite Hbuilt in Heq. exact Heq.
Defined.

(** X20.  [export_freq_lists] writes nothing for an empty collection, and
    otherwise one file per language, named after it.  The rows of a
    language are its items, each word once, ordered by count descending,
    words of equal count in the order they entered the table. *)
Theorem frequency_rows_by_count_descending
    (freq_lists : list (string * list (string * Z))) :
  (FreqOrder.export_freq_lists freq_lists = None <-> freq_lists = [])
  /\ forall lang words,
       In (lang, words) freq_lists ->
       List.NoDup (List.map fst words) ->
       exists files rows,
         FreqOrder.export_freq_lists freq_lists = Some files
         /\ In ("freqlist_" +:+ lang +:+ ".csv", rows) files
         /\ Permutation words rows
         /\ StronglySorted FreqOrder.count_ge rows
         /\ (forall n,
                List.filter (fun item => (snd item =? n)%Z) rows
                = List.filter (fun item => (snd item =? n)%Z) words)
         /\ List.NoDup (List.map fst rows)
         /\ (forall w n, In (w, n) rows <-> FreqOrder.get w words = Some n).
Proof.
  split.
  - destruct freq_lists; simpl; split; try reflexivity; discriminate.
  - intros lang words Hin Hnd.
    destruct freq_lists as [|f0 rest] eqn:Hfl; [destruct Hin|].
    rewrite <- Hfl in *.
    exists (List.map (fun '(lang, words) =>
                        ("freqlist_" +:+ lang +:+ ".csv", FreqOrder.sorted_words words))
              freq_lists),
           (FreqOrder.sorted_words words).
    split; [rewrite Hfl; reflexivity|].
    split.
    { apply in_map_iff. exists (lang, words). split; [reflexivity | exact Hin]. }
    split; [apply sorted_words_perm|].
    split; [apply sorted_words_sorted|].
    split; [intros n; apply sorted_words_stable|].
    assert (Hnd' : List.NoDup (List.map fst (FreqOrder.sorted_words words))).
    { apply (Stdlib.Sorting.Permutation.Permutation_NoDup
               (l := List.map fst words)); [|exact Hnd].
      apply Permutation_map, sorted_words_perm. }
    split; [exact Hnd'|].
    intros w n. rewrite <- (in_get w n words Hnd). split; intros H.
    + eapply Permutation_in; [apply Permutation_sym, sorted_words_perm | exact H].
    + eapply Permutation_in; [apply sorted_words_perm | exact H].
Qed.

Lemma frequency_rows_by_count_descending_witness :
  let words := [("pusa", 2%Z); ("aso", 6%Z); ("ibon", 2%Z); ("daga", 7%Z)] in
  In ("tgl", words) [("tgl", words)]
  /\ List.NoDup (List.map fst words)
  /\ FreqOrder.export_freq_lists [("tgl", words)]
     = Some [("freqlist_tgl.csv",
              [("daga", 7%Z); ("aso", 6%Z); ("pusa", 2%Z); ("ibon", 2%Z)])]
  /\ exists files rows,
       FreqOrder.export_freq_lists [("tgl", words)] = Some files
       /\ In ("freqlist_tgl.csv", rows) files
       /\ StronglySorted FreqOrder.count_ge rows.
Proof.
  intros words.
  assert (Hin : In ("tgl", words) [("tgl", words)]) by (left; reflexivity).
  assert (Hnd : List.NoDup (List.map fst words)).
  { repeat (constructor; [simpl; intuition discriminate|]). constructor. }
  split; [exact Hin|]. split; [exact Hnd|]. split; [reflexivity|].
  destruct (proj2 (frequency_rows_by_count_descending [("tgl", words)])
              "tgl" words Hin Hnd) as (files & rows & Hexp & Hfile & _ & Hs & _).
  exists files, rows. split; [exact Hexp|]. split; [exact Hfile | exact Hs].
Defined.

(** ** Word lists: [generate_word_lists] and [export_word_lists] *)

Section WordOrder.
Import Gcide.

Lemma ord_inj (c d : ascii) : PyStr.ord c = PyStr.ord d -> c = d.
Proof.
  unfold PyStr.ord. intros H.
  rewrite <- (ascii_nat_embedding c), <- (ascii_nat_embedding d), H. reflexivity.
Qed.

Lemma str_leb_antisym (a b : string) :
  str_leb a b = true -> str_leb b a = true -> a = b.
Proof.
  revert b. induction a as [|c a IH]; intros [|d b]; simpl;
    try reflexivity; try discriminate.
  destruct (PyStr.ord c <? PyStr.ord d)%nat eqn:Hcd;
    destruct (PyStr.ord d <? PyStr.ord c)%nat eqn:Hdc;
    try discriminate.
  - apply Nat.ltb_lt in Hcd, Hdc. lia.
  - intros Hab Hba. apply Nat.ltb_ge in Hcd, Hdc.
    rewrite (ord_inj c d) by lia. rewrite (IH b Hab Hba). reflexivity.
Qed.

Lemma sorted_perm_unique (l1 : list string) :
  forall l2,
    StronglySorted (key_le (fun w => w)) l1 ->
    StronglySorted (key_le (fun w => w)) l2 ->
    Permutation l1 l2 -> l1 = l2.
Proof.
  induction l1 as [|x l1 IH]; intros l2 H1 H2 Hp.
  - apply Permutation_nil in Hp. symmetry. exact Hp.
  - destruct l2 as [|y l2].
    + apply Permutation_sym, Permutation_nil in Hp. discriminate.
    + inversion H1 as [|? ? Hs1 Hall1]; subst.
      inversion H2 as [|? ? Hs2 Hall2]; subst.
      assert (Hxy : x = y).
      { assert (Hx : In x (y :: l2)).
        { eapply Permutation_in; [exact Hp | left; reflexivity]. }
        assert (Hy : In y (x :: l1)).
        { eapply Permutation_in; [apply Permutation_sym; exact Hp | left; reflexivity]. }
        destruct Hx as [Hx | Hx]; [symmetry; exact Hx|].
        destruct Hy as [Hy | Hy]; [exact Hy|].
        rewrite List.Forall_forall in Hall1, Hall2.
        apply str_leb_antisym; [apply Hall1, Hy | apply Hall2, Hx]. }
      subst y. f_equal. apply IH; [exact Hs1 | exact Hs2|].
      eapply Permutation_cons_inv. exact Hp.
Qed.

Lemma sorted_nodup_strict (l : list string) :
  StronglySorted (key_le (fun w => w)) l -> List.NoDup l ->
  StronglySorted str_lt l.
Proof.
  induction 1 as [|x l Hs IH Hall]; intros Hnd.
  - constructor.
  - inversion Hnd as [|? ? Hx Hnd']; subst.
    constructor; [apply IH; exact Hnd'|].
    rewrite List.Forall_forall in *. intros y Hy. split.
    + apply Hall, Hy.
    + intros ->. apply Hx, Hy.
Qed.

End WordOrder.

Section WordSets.
Import Wordlists.

Lemma word_set_sorted_perm (words : gset string) :
  Permutation (elements words) (sorted_words words).
Proof. apply sort_by_perm. Qed.

Lemma word_set_sorted_in (words : gset string) (w : string) :
  In w (sorted_words words) <-> w ∈ words.
Proof.
  split; intros H.
  - apply elem_of_elements, list_elem_of_In.
    eapply Permutation_in; [apply Permutation_sym, word_set_sorted_perm | exact H].
  - apply elem_of_elements, list_elem_of_In in H.
    eapply Permutation_in; [apply word_set_sorted_perm | exact H].
Qed.

Lemma word_set_sorted_nodup (words : gset string) :
  List.NoDup (sorted_words words).
Proof.
  apply (Stdlib.Sorting.Permutation.Permutation_NoDup (l := elements words)).
  - apply word_set_sorted_perm.
  - apply NoDup_ListNoDup, NoDup_elements.
Qed.

Lemma word_set_sorted_strict (words : gset string) :
  StronglySorted str_lt (sorted_words words).
Proof.
  apply sorted_nodup_strict; [apply sort_by_sorted | apply word_set_sorted_nodup].
Qed.

Lemma word_set_sorted_any_order (words : gset string) (l : list string) :
  List.NoDup l -> (forall w, In w l <-> w ∈ words) ->
  Gcide.sort_by (fun w => w) l = sorted_words words.
Proof.
  intros Hnd Hin.
  apply sorted_perm_unique; try apply sort_by_sorted.
  apply perm_trans with l; [apply Permutation_sym, sort_by_perm|].
  apply perm_trans with (elements words); [|apply word_set_sorted_perm].
  apply NoDup_Permutation.
  - apply NoDup_ListNoDup. exact Hnd.
  - apply NoDup_elements.
  - intros w. rewrite elem_of_elements, list_elem_of_In. apply Hin.
Qed.

Lemma add_words_spec (entries : list (option string)) :
  forall words,
    add_words words entries
    = if forallb (fun e => match e with Some _ => true | None => false end) entries
      then Some (words ∪ list_to_set (omap id entries))
      else None.
Proof.
  induction entries as [|[w|] entries IH]; intros words; simpl.
  - rewrite union_empty_r_L. reflexivity.
  - rewrite IH. destruct (forallb _ entries); [|reflexivity].
    cbn [omap list_omap id]. simpl.
    rewrite (union_comm_L {[w]} words), <- union_assoc_L. reflexivity.
  - reflexivity.
Qed.

Lemma add_words_none (words : gset string) (entries : list (option string)) :
  add_words words entries = None <-> In None entries.
Proof.
  revert words. induction entries as [|[w|] entries IH]; intros words; simpl.
  - split; [discriminate | intros []].
  - rewrite IH. split; [intros H; right; exact H | intros [H | H]; [discriminate | exact H]].
  - split; [intros _; left; reflexivity | reflexivity].
Qed.

Lemma add_words_some (entries : list (option string)) :
  forall words words',
    add_words words entries = Some words' ->
    forall w, w ∈ words' <-> w ∈ words \/ In (Some w) entries.
Proof.
  induction entries as [|[x|] entries IH]; intros words words' H w; simpl in H.
  - injection H as <-. simpl. tauto.
  - rewrite (IH _ _ H w), elem_of_union, elem_of_singleton. simpl. split.
    + intros [[-> | Hw] | Hin]; [right; left; reflexivity | left; exact Hw | right; right; exact Hin].
    + intros [Hw | [E | Hin]]; [left; right; exact Hw | injection E as ->; left; left; reflexivity | right; exact Hin].
  - discriminate.
Qed.

Lemma generate_word_lists_none (files : list (string * list (option string))) :
  forall word_lists,
    generate_word_lists files word_lists = None
    <-> exists lang entries, In (lang, entries) files /\ In None entries.
Proof.
  induction files as [|[lang entries] files IH]; intros word_lists; simpl.
  - split; [discriminate | intros (? & ? & [] & _)].
  - destruct (add_words _ entries) as [words|] eqn:Hadd.
    + rewrite IH. split.
      * intros (l & e & Hin & Hnone). exists l, e. split; [right; exact Hin | exact Hnone].
      * intros (l & e & [E | Hin] & Hnone).
        -- injection E as <- <-.
           apply (add_words_none (default ∅ (word_lists !! lang))) in Hnone.
           rewrite Hnone in Hadd. discriminate.
        -- exists l, e. split; [exact Hin | exact Hnone].
    + split; [|reflexivity]. intros _. exists lang, entries.
      split; [left; reflexivity | apply add_words_none in Hadd; exact Hadd].
Qed.

Lemma generate_word_lists_some (files : list (string * list (option string))) :
  forall word_lists word_lists',
    generate_word_lists files word_lists = Some word_lists' ->
    forall lang,
      (is_Some (word_lists' !! lang)
       <-> is_Some (word_lists !! lang) \/ exists entries, In (lang, entries) files)
      /\ forall w,
           w ∈ default ∅ (word_lists' !! lang)
           <-> w ∈ default ∅ (word_lists !! lang)
               \/ exists entries, In (lang, entries) files /\ In (Some w) entries.
Proof.
  induction files as [|[l entries] files IH]; intros word_lists word_lists' H lang;
    simpl in H.
  - injection H as <-. split.
    + split; [intros Hs; left; exact Hs | intros [Hs | (? & [])]; exact Hs].
    + intros w. split; [intros Hw; left; exact Hw | intros [Hw | (? & [] & _)]; exact Hw].
  - destruct (add_words _ entries) as [words|] eqn:Hadd; [|discriminate].
    destruct (IH _ _ H lang) as [IHs IHw]. clear IH.
    destruct (String.eqb l lang) eqn:Hl.
    + apply String.eqb_eq in Hl. subst l.
      rewrite lookup_insert_eq in IHs, IHw. split.
      * rewrite IHs. split.
        -- intros _. right. exists entries. left. reflexivity.
        -- intros _. left. eexists. reflexivity.
      * intros w. rewrite IHw. cbn [default].
        rewrite (add_words_some _ _ _ Hadd w). split.
        -- intros [[Hw | Hin] | (e & Hf & Hin)].
           ++ left. exact Hw.
           ++ right. exists entries. split; [left; reflexivity | exact Hin].
           ++ right. exists e. split; [right; exact Hf | exact Hin].
        -- intros [Hw | (e & [E | Hf] & Hin)].
           ++ left. left. exact Hw.
           ++ injection E as <-. left. right. exact Hin.
           ++ right. exists e. split; [exact Hf | exact Hin].
    + apply String.eqb_neq in Hl.
      rewrite lookup_insert_ne in IHs, IHw by exact Hl. split.
      * rewrite IHs. split.
        -- intros [Hs | (e & Hf)]; [left; exact Hs | right; exists e; right; exact Hf].
        -- intros [Hs | (e & [E | Hf])];
             [left; exact Hs | injection E as E _; contradiction | right; exists e; exact Hf].
      * intros w. rewrite IHw. split.
        -- intros [Hw | (e & Hf & Hin)];
             [left; exact Hw | right; exists e; split; [right; exact Hf | exact Hin]].
        -- intros [Hw | (e & [E | Hf] & Hin)];
             [left; exact Hw | injection E as E _; contradiction
             | right; exists e; split; [exact Hf | exact Hin]].
Qed.

End WordSets.

(** X21.  [export_word_lists] writes nothing for an empty collection, and
    otherwise one file per language, named after it.  The file of a
    language holds the words of its set joined by line breaks, each word
    once, in strictly ascending code-point order; the order in which the
    set yields its words does not matter. *)
Theorem word_list_file_sorted_without_duplicates
    (word_lists : gmap string (gset string)) :
  (Wordlists.export_word_lists word_lists = None <-> word_lists = ∅)
  /\ forall lang words,
       word_lists !! lang = Some words ->
       exists files,
         Wordlists.export_word_lists word_lists = Some files
         /\ List.length files = size word_lists
         /\ In ("wordlist_" +:+ lang +:+ ".txt",
                TextFile.join_lines (Wordlists.sorted_words words)) files
         /\ StronglySorted str_lt (Wordlists.sorted_words words)
         /\ (forall w, In w (Wordlists.sorted_words words) <-> w ∈ words)
         /\ forall l,
              List.NoDup l -> (forall w, In w l <-> w ∈ words) ->
              Gcide.sort_by (fun w => w) l = Wordlists.sorted_words words.
Proof.
  unfold Wordlists.export_word_lists. split.
  - rewrite <- (map_to_list_empty_iff word_lists).
    destruct (map_to_list word_lists); split; try reflexivity; discriminate.
  - intros lang words Hlang.
    assert (Hin : In (lang, words) (map_to_list word_lists)).
    { apply list_elem_of_In, elem_of_map_to_list. exact Hlang. }
    pose proof (length_map_to_list word_lists) as Hlen.
    destruct (map_to_list word_lists) as [|item items] eqn:Hitems; [destruct Hin|].
    eexists. split; [reflexivity|].
    split; [rewrite length_map; exact Hlen|].
    split.
    { apply in_map_iff. exists (lang, words). split; [reflexivity | exact Hin]. }
    split; [apply word_set_sorted_strict|].
    split; [apply word_set_sorted_in|].
    apply word_set_sorted_any_order.
Qed.

Lemma word_list_file_sorted_without_duplicates_witness :
  let words : gset string := {[ "pusa"; "aso"; "Pusa" ]} in
  let word_lists : gmap string (gset string) := {[ "tgl" := words ]} in
  word_lists !! "tgl" = Some words
  /\ Wordlists.sorted_words words = ["Pusa"; "aso"; "pusa"]
  /\ exists files,
       Wordlists.export_word_lists word_lists = Some files
       /\ In ("wordlist_tgl.txt", TextFile.join_lines ["Pusa"; "aso"; "pusa"]) files.
Proof.
  intros words word_lists.
  assert (Hlang : word_lists !! "tgl" = Some words) by reflexivity.
  assert (Hsorted : Wordlists.sorted_words words = ["Pusa"; "aso"; "pusa"])
    by (vm_compute; reflexivity).
  split; [exact Hlang|]. split; [exact Hsorted|].
  destruct (proj2 (word_list_file_sorted_without_duplicates word_lists)
              "tgl" words Hlang) as (files & Hexp & _ & Hin & _).
  exists files. split; [exact Hexp|].
  rewrite Hsorted in Hin. exact Hin.
Defined.

(** X22.  [generate_word_lists] fails, with the key error, exactly when
    some entry of some dictionary has no word.  Otherwise a language has
    a word list when it had one before or some dictionary is in that
    language, also a dictionary without entries; and a word is in the
    list of a language exactly when it was there before or is the word of
    an entry of a dictionary in that language. *)
Theorem word_lists_collect_entry_words
    (files : list (string * list (option string)))
    (word_lists : gmap string (gset string)) :
  (Wordlists.generate_word_lists files word_lists = None
   <-> exists lang entries, In (lang, entries) files /\ In None entries)
  /\ forall word_lists',
       Wordlists.generate_word_lists files word_lists = Some word_lists' ->
       forall lang,
         (is_Some (word_lists' !! lang)
          <-> is_Some (word_lists !! lang) \/ exists entries, In (lang, entries) files)
         /\ forall w,
              w ∈ default ∅ (word_lists' !! lang)
              <-> w ∈ default ∅ (word_lists !! lang)
                  \/ exists entries, In (lang, entries) files /\ In (Some w) entries.
Proof.
  split.
  - apply generate_word_lists_none.
  - apply generate_word_lists_some.
Qed.

Lemma word_lists_collect_entry_words_witness :
  let files := [("tgl", [Some "aso"; Some "pusa"]); ("ceb", []); ("tgl", [Some "aso"])] in
  let result : gmap string (gset string) :=
    {[ "tgl" := {[ "aso"; "pusa" ]}; "ceb" := ∅ ]} in
  Wordlists.generate_word_lists files ∅ = Some result
  /\ is_Some (result !! "ceb")
  /\ ("pusa" ∈ default ∅ (result !! "tgl")
      <-> "pusa" ∈ default (∅ : gset string) ((∅ : gmap string (gset string)) !! "tgl")
          \/ exists entries, In ("tgl", entries) files /\ In (Some "pusa") entries).
Proof.
  intros files result.
  assert (Hgen : Wordlists.generate_word_lists files ∅ = Some result)
    by (vm_compute; reflexivity).
  split; [exact Hgen|].
  destruct (proj2 (word_lists_collect_entry_words files ∅) result Hgen "ceb")
    as [Hs _].
  destruct (proj2 (word_lists_collect_entry_words files ∅) result Hgen "tgl")
    as [_ Hw].
  split.
  - apply Hs. right. exists []. right. left. reflexivity.
  - exact (Hw "pusa").
Defined.

(** X23.  The document [Gcide.export_parsed_data] writes can always be
    read by [generate_word_lists]: every entry has its word.  The word
    list it gives is that of the language eng, its words are the headwords
    of the exported entries, and the file written for it is
    wordlist_eng.txt. *)
Theorem gcide_export_feeds_word_list
    (parsed_data out : list Gcide.parsed_entry) (m : Gcide.meta) :
  Gcide.export_parsed_data parsed_data = Ok (Gcide.Written m out) ->
  exists words,
    Wordlists.generate_word_lists [(Gcide.lang m, List.map Gcide.word out)] ∅
    = Some {[ "eng" := words ]}
    /\ (forall w, w ∈ words <-> exists e, In e parsed_data /\ Gcide.word e = Some w)
    /\ Wordlists.export_word_lists {[ "eng" := words ]}
       = Some [("wordlist_eng.txt", TextFile.join_lines (Wordlists.sorted_words words))].
Proof.
  intros H.
  assert (Hfacts :
            forallb (fun e => match Gcide.sort_key e with
                              | Some _ => true | None => false end)
              parsed_data = true
            /\ out = Gcide.sort_by Gcide.key_or_empty parsed_data
            /\ Gcide.lang m = "eng").
  { unfold Gcide.export_parsed_data in H.
    destruct parsed_data as [|e0 rest]; [discriminate|].
    destruct (forallb _ (e0 :: rest)) eqn:Hkeys; [|discriminate].
    injection H as <- <-. repeat split; reflexivity. }
  destruct Hfacts as (Hkeys & -> & ->). clear H.
  set (data := parsed_data) in *. clearbody data.
  set (sorted := Gcide.sort_by Gcide.key_or_empty data).
  cbn [Wordlists.generate_word_lists].
  rewrite lookup_empty. cbn [default].
  destruct (Wordlists.add_words ∅ (List.map Gcide.word sorted)) as [words|] eqn:Hadd.
  - exists words. split; [reflexivity|]. split.
    + intros w. rewrite (add_words_some _ _ _ Hadd w), in_map_iff. split.
      * intros [Hw | (e & He & Hin)]; [apply elem_of_empty in Hw; destruct Hw|].
        exists e. split; [|exact He].
        eapply Permutation_in; [apply Permutation_sym, sort_by_perm | exact Hin].
      * intros (e & Hin & He). right. exists e. split; [exact He|].
        eapply Permutation_in; [apply sort_by_perm | exact Hin].
    + unfold Wordlists.export_word_lists. rewrite map_to_list_singleton. reflexivity.
  - exfalso. apply add_words_none, in_map_iff in Hadd as (e & He & Hin).
    assert (Hin' : In e data).
    { eapply Permutation_in; [apply Permutation_sym, sort_by_perm | exact Hin]. }
    rewrite forallb_forall in Hkeys. specialize (Hkeys e Hin').
    unfold Gcide.sort_key in Hkeys. rewrite He in Hkeys. discriminate.
Qed.

Lemma gcide_export_feeds_word_list_witness :
  let entry := fun w => {| Gcide.word := Some w; Gcide.definitions := [] |} in
  let data := [entry "Zebra"; entry "apple"; entry "Bee"; entry "apple"] in
  let out := [entry "apple"; entry "apple"; entry "Bee"; entry "Zebra"] in
  let m := {| Gcide.lang := "eng"; Gcide.definition_lang := "eng";
              Gcide.total_entries := 4;
              Gcide.meta_source_title := "GCIDE";
              Gcide.source_link := "https://ibiblio.org/webster/" |} in
  Gcide.export_parsed_data data = Ok (Gcide.Written m out)
  /\ exists words,
       Wordlists.generate_word_lists [(Gcide.lang m, List.map Gcide.word out)] ∅
       = Some {[ "eng" := words ]}
       /\ "Bee" ∈ words
       /\ Wordlists.export_word_lists {[ "eng" := words ]}
          = Some [("wordlist_eng.txt",
                   TextFile.join_lines (Wordlists.sorted_words words))].
Proof.
  intros entry data out m.
  assert (Hexp : Gcide.export_parsed_data data = Ok (Gcide.Written m out))
    by (vm_compute; reflexivity).
  split; [exact Hexp|].
  destruct (gcide_export_feeds_word_list data out m Hexp) as (words & Hgen & Hw & Hfile).
  exists words. split; [exact Hgen|]. split; [|exact Hfile].
  apply Hw. exists (entry "Bee"). split; [|reflexivity].
  right. right. left. reflexivity.
Defined.

(** ** Reading a word list back in [generate_freq_lists] *)

Section ReadBack.
Import TextFile.

Lemma rstrip_by_snoc (p : ascii -> bool) (c : ascii) (w : string) :
  p c = true ->
  PyStr.rstrip_by p (w +:+ String c EmptyString) = PyStr.rstrip_by p w.
Proof.
  intros Hc. induction w as [|d w IH].
  - simpl. rewrite Hc. reflexivity.
  - change (PyStr.rstrip_by p (String d w +:+ String c EmptyString))
      with (match PyStr.rstrip_by p (w +:+ String c EmptyString) with
            | EmptyString => if p d then EmptyString else String d EmptyString
            | r => String d r
            end).
    rewrite IH. reflexivity.
Qed.

Lemma strip_line_end (w : string) :
  PyStr.strip (w +:+ String LF EmptyString) = PyStr.strip w.
Proof.
  unfold PyStr.strip, PyStr.strip_by.
  rewrite rstrip_by_snoc by reflexivity. reflexivity.
Qed.

Lemma count_line_line_end (table : gmap string Z) (w : string) :
  Freq.count_line table (w +:+ String LF EmptyString) = Freq.count_line table w.
Proof. unfold Freq.count_line. rewrite strip_line_end. reflexivity. Qed.

Lemma translate_one_line (w rest : string) :
  one_line w = true -> translate (w +:+ rest) = w +:+ translate rest.
Proof.
  induction w as [|c w IH]; intros H.
  - reflexivity.
  - unfold one_line in H. cbn [PyStr.all_chars] in H.
    apply andb_true_iff in H as [Hc Hw].
    apply negb_true_iff, orb_false_iff in Hc as [_ Hcr].
    change (String c w +:+ rest) with (String c (w +:+ rest)).
    change (String c w +:+ translate rest) with (String c (w +:+ translate rest)).
    cbn [translate]. rewrite Hcr, (IH Hw). reflexivity.
Qed.

Lemma translate_line_end (rest : string) :
  translate (String LF rest) = String LF (translate rest).
Proof. reflexivity. Qed.

Lemma split_lines_one_line (w rest : string) :
  one_line w = true ->
  split_lines (w +:+ String LF rest) = (w +:+ String LF EmptyString) :: split_lines rest.
Proof.
  induction w as [|c w IH]; intros H.
  - reflexivity.
  - unfold one_line in H. cbn [PyStr.all_chars] in H.
    apply andb_true_iff in H as [Hc Hw].
    apply negb_true_iff, orb_false_iff in Hc as [Hlf _].
    change (String c w +:+ String LF rest) with (String c (w +:+ String LF rest)).
    cbn [split_lines]. rewrite Hlf, (IH Hw). reflexivity.
Qed.

Lemma split_lines_last (w : string) :
  one_line w = true ->
  split_lines w = if PyStr.nonempty w then [w] else [].
Proof.
  induction w as [|c w IH]; intros H.
  - reflexivity.
  - unfold one_line in H. cbn [PyStr.all_chars] in H.
    apply andb_true_iff in H as [Hc Hw].
    apply negb_true_iff, orb_false_iff in Hc as [Hlf _].
    cbn [split_lines PyStr.nonempty]. rewrite Hlf, (IH Hw).
    destruct w; reflexivity.
Qed.

Lemma append_empty (w : string) : w +:+ EmptyString = w.
Proof.
  induction w as [|c w IH]; [reflexivity|].
  change (String c w +:+ EmptyString) with (String c (w +:+ EmptyString)).
  rewrite IH. reflexivity.
Qed.

Lemma lines_join (w : string) (ws : list string) :
  one_line w = true ->
  lines (join_lines (w :: ws))
  = match ws with
    | [] => if PyStr.nonempty w then [w] else []
    | _ => (w +:+ String LF EmptyString) :: lines (join_lines ws)
    end.
Proof.
  intros H. unfold lines, join_lines. destruct ws as [|w' ws].
  - cbn [String.concat].
    assert (E : translate w = w).
    { pose proof (translate_one_line w EmptyString H) as E.
      rewrite append_empty in E. rewrite E. apply append_empty. }
    rewrite E. apply split_lines_last, H.
  - change (String.concat (String LF EmptyString) (w :: w' :: ws))
      with (w +:+ String LF (String.concat (String LF EmptyString) (w' :: ws))).
    rewrite (translate_one_line _ _ H), translate_line_end.
    apply split_lines_one_line, H.
Qed.

Lemma count_lines_join (ws : list string) :
  forall table,
    forallb one_line ws = true ->
    fold_left Freq.count_line (lines (join_lines ws)) table
    = fold_left Freq.count_line ws table.
Proof.
  induction ws as [|w ws IH]; intros table H.
  - reflexivity.
  - cbn [forallb] in H. apply andb_true_iff in H as [Hw Hws].
    rewrite (lines_join w ws Hw). destruct ws as [|w' ws].
    + destruct w; reflexivity.
    + cbn [fold_left]. rewrite count_line_line_end. apply IH, Hws.
Qed.

End ReadBack.

Section FileNames.
Import Path.

Lemma rfind_append (c : ascii) (a b : string) :
  rfind c (a +:+ b)
  = match rfind c b with
    | Some i => Some (String.length a + i)%nat
    | None => rfind c a
    end.
Proof.
  induction a as [|d a IH]; push_append.
  - destruct (rfind c b); reflexivity.
  - cbn [rfind String.length]. rewrite IH. destruct (rfind c b); reflexivity.
Qed.

Lemma take_append (a b : string) : PyStr.take (String.length a) (a +:+ b) = a.
Proof.
  induction a as [|c a IH]; push_append; simpl;
    [destruct b; reflexivity | rewrite IH; reflexivity].
Qed.

Lemma drop_append (a b : string) : PyStr.drop (String.length a) (a +:+ b) = b.
Proof. induction a as [|c a IH]; push_append; simpl; [reflexivity | exact IH]. Qed.

Lemma take_drop (n : nat) (s : string) : PyStr.take n s +:+ PyStr.drop n s = s.
Proof.
  revert s. induction n as [|n IH]; intros [|c s]; simpl; push_append;
    try reflexivity.
  rewrite IH. reflexivity.
Qed.

Lemma stem_of_txt (s : string) : stem (String "w" s +:+ ".txt") = String "w" s.
Proof.
  unfold stem. rewrite rfind_append.
  change (rfind "." ".txt") with (Some 0%nat). cbv beta iota.
  rewrite Nat.add_0_r, length_append.
  replace (0 <? String.length (String "w" s))%nat with true
    by (symmetry; apply Nat.ltb_lt; simpl; lia).
  replace (String.length (String "w" s) <? String.length (String "w" s) + String.length ".txt" - 1)%nat
    with true by (symmetry; apply Nat.ltb_lt; simpl; lia).
  cbn [andb]. apply take_append.
Qed.

Lemma split_char_no_sep (sep : ascii) (s : string) :
  PyStr.mem_char sep s = false -> PyStr.split_char sep s = [s].
Proof.
  induction s as [|c s IH]; simpl; intros H.
  - reflexivity.
  - apply orb_false_iff in H as [Hc Hs]. rewrite Ascii.eqb_sym, Hc, (IH Hs).
    reflexivity.
Qed.

Lemma split_char_nonempty (sep : ascii) (s : string) :
  PyStr.split_char sep s
  = List.hd EmptyString (PyStr.split_char sep s) :: List.tl (PyStr.split_char sep s).
Proof.
  destruct s as [|c s]; simpl; [reflexivity|].
  destruct (Ascii.eqb c sep); [reflexivity|].
  destruct (PyStr.split_char sep s); reflexivity.
Qed.

Lemma lang_of_exported_name (lang : string) :
  FreqFiles.lang_of_name ("wordlist_" +:+ lang +:+ ".txt")
  = Some (List.hd EmptyString (PyStr.split_char "_" lang)).
Proof.
  unfold FreqFiles.lang_of_name.
  change ("wordlist_" +:+ lang +:+ ".txt")
    with (String "w" ("ordlist_" +:+ lang) +:+ ".txt").
  rewrite stem_of_txt.
  assert (E : PyStr.split_char "_" (String "w" ("ordlist_" +:+ lang))
              = "wordlist" :: PyStr.split_char "_" lang).
  { push_append. reflexivity. }
  rewrite E, (split_char_nonempty "_" lang). reflexivity.
Qed.

Lemma lang_of_exported_name_exact (lang : string) :
  FreqFiles.lang_of_name ("wordlist_" +:+ lang +:+ ".txt") = Some lang
  <-> PyStr.mem_char "_" lang = false.
Proof.
  rewrite lang_of_exported_name. split.
  - intros H. injection H as H. rewrite <- H at 1. apply split_char_hd_no_sep.
  - intros H. rewrite (split_char_no_sep _ _ H). reflexivity.
Qed.

End FileNames.

(** X24.  The language [generate_freq_lists] reads from the name of a
    file that [export_word_lists] wrote is the part of the language code
    before its first underscore: it is the language itself exactly when
    the code holds no underscore.  A file whose name, without extension,
    holds no underscore is skipped and changes nothing. *)
Theorem exported_word_list_name_gives_language :
  (forall lang,
      FreqFiles.lang_of_name ("wordlist_" +:+ lang +:+ ".txt")
      = Some (List.hd EmptyString (PyStr.split_char "_" lang)))
  /\ (forall lang,
         FreqFiles.lang_of_name ("wordlist_" +:+ lang +:+ ".txt") = Some lang
         <-> PyStr.mem_char "_" lang = false)
  /\ (forall leipzig freq_lists name text,
         PyStr.mem_char "_" (Path.stem name) = false ->
         FreqFiles.process_file leipzig freq_lists name text = Some freq_lists).
Proof.
  split; [exact lang_of_exported_name|].
  split; [exact lang_of_exported_name_exact|].
  intros leipzig freq_lists name text H.
  unfold FreqFiles.process_file, FreqFiles.lang_of_name.
  rewrite (split_char_no_sep _ _ H). reflexivity.
Qed.

Lemma exported_word_list_name_gives_language_witness :
  PyStr.mem_char "_" (Path.stem "words.txt") = false
  /\ FreqFiles.process_file (fun _ => None) ∅ "words.txt" "aso" = Some ∅
  /\ FreqFiles.lang_of_name "wordlist_tgl.txt" = Some "tgl"
  /\ FreqFiles.lang_of_name "wordlist_zh_tw.txt" = Some "zh".
Proof.
  assert (H : PyStr.mem_char "_" (Path.stem "words.txt") = false) by reflexivity.
  split; [exact H|]. split.
  - exact (proj2 (proj2 exported_word_list_name_gives_language)
             (fun _ => None) ∅ "words.txt" "aso" H).
  - split; reflexivity.
Defined.

(** X25.  Reading back a word list: when the language code holds no
    underscore and no word holds a line break, the file
    [export_word_lists] wrote is counted by [generate_freq_lists] as the
    list of its words: the count of a key grows by the number of words of
    the list that, stripped and lower-cased, equal the key. *)
Theorem word_list_read_back
    (leipzig : string -> option (list (list string)))
    (freq_lists : gmap string (gmap string Z)) (lang : string) (words : gset string) :
  PyStr.mem_char "_" lang = false ->
  (forall w, w ∈ words -> one_line w = true) ->
  let name := "wordlist_" +:+ lang +:+ ".txt" in
  let text := TextFile.join_lines (Wordlists.sorted_words words) in
  FreqFiles.process_file leipzig freq_lists name text
  = Freq.process_wordlist leipzig freq_lists lang (Wordlists.sorted_words words)
  /\ forall table k,
       fold_left Freq.count_line (TextFile.lines text) table !! k
       = if (occurrences k (Wordlists.sorted_words words) =? 0)%nat then table !! k
         else Some (default 0%Z (table !! k)
                    + Z.of_nat (occurrences k (Wordlists.sorted_words words)))%Z.
Proof.
  intros Hlang Hwords name text.
  assert (Hlines : forallb one_line (Wordlists.sorted_words words) = true).
  { apply forallb_forall. intros w Hw. apply Hwords, word_set_sorted_in, Hw. }
  split.
  - unfold FreqFiles.process_file, name.
    rewrite (proj2 (lang_of_exported_name_exact lang) Hlang).
    unfold Freq.process_wordlist, text.
    rewrite (count_lines_join _ _ Hlines). reflexivity.
  - intros table k. unfold text.
    rewrite (count_lines_join _ _ Hlines). apply count_lines_lookup.
Qed.

Lemma word_list_read_back_witness :
  let words : gset string := {[ "pusa"; "aso"; "Pusa"; " aso" ]} in
  let text := TextFile.join_lines (Wordlists.sorted_words words) in
  PyStr.mem_char "_" "tgl" = false
  /\ (forall w, w ∈ words -> one_line w = true)
  /\ FreqFiles.process_file (fun _ => None) ∅ "wordlist_tgl.txt" text
     = Some {[ "tgl" := {[ "aso" := 2%Z; "pusa" := 2%Z ]} ]}.
Proof.
  intros words text.
  assert (Hlang : PyStr.mem_char "_" "tgl" = false) by reflexivity.
  assert (Hwords : forall w, w ∈ words -> one_line w = true).
  { intros w Hw. apply word_set_sorted_in in Hw.
    assert (Hall : forallb one_line (Wordlists.sorted_words words) = true)
      by (vm_compute; reflexivity).
    rewrite forallb_forall in Hall. apply Hall, Hw. }
  split; [exact Hlang|]. split; [exact Hwords|].
  rewrite (proj1 (word_list_read_back (fun _ => None) ∅ "tgl" words Hlang Hwords)).
  vm_compute. reflexivity.
Defined.

(** ** [Phrasebook.process_entry] *)

Section Trimmed.
Variable p : ascii -> bool.

Lemma lstrip_by_length (s : string) :
  (String.length (PyStr.lstrip_by p s) <= String.length s)%nat.
Proof.
  induction s as [|c s IH]; simpl; [lia|].
  destruct (p c); simpl; lia.
Qed.

Lemma lstrip_by_fixed_head (c : ascii) (s : string) :
  PyStr.lstrip_by p (String c s) = String c s -> p c = false.
Proof.
  simpl. destruct (p c); [|reflexivity].
  intros H. pose proof (lstrip_by_length s) as Hlen.
  rewrite H in Hlen. simpl in Hlen. lia.
Qed.

Lemma lstrip_by_append (a b : string) :
  a <> EmptyString -> PyStr.lstrip_by p a = a ->
  PyStr.lstrip_by p (a +:+ b) = a +:+ b.
Proof.
  destruct a as [|c a]; [contradiction|]. intros _ H.
  apply lstrip_by_fixed_head in H. push_append. simpl. rewrite H. reflexivity.
Qed.

Lemma rstrip_by_append (a b : string) :
  b <> EmptyString -> PyStr.rstrip_by p b = b ->
  PyStr.rstrip_by p (a +:+ b) = a +:+ b.
Proof.
  intros Hb H. induction a as [|c a IH]; push_append; [exact H|].
  cbn [PyStr.rstrip_by]. rewrite IH.
  destruct (a +:+ b) eqn:E; [|reflexivity].
  destruct a; [|discriminate E]. contradiction.
Qed.

Lemma strip_by_fixed (s : string) :
  PyStr.strip_by p s = s ->
  PyStr.lstrip_by p s = s /\ PyStr.rstrip_by p s = s.
Proof.
  unfold PyStr.strip_by. intros H. split.
  - rewrite <- H at 1. rewrite lstrip_by_idem. exact H.
  - rewrite <- H at 1. rewrite rstrip_lstrip_comm, rstrip_by_idem. exact H.
Qed.

Lemma strip_by_append (a b : string) :
  a <> EmptyString -> b <> EmptyString ->
  PyStr.strip_by p a = a -> PyStr.strip_by p b = b ->
  PyStr.strip_by p (a +:+ b) = a +:+ b.
Proof.
  intros Ha Hb Hsa Hsb.
  apply strip_by_fixed in Hsa as [Hla _]. apply strip_by_fixed in Hsb as [_ Hrb].
  unfold PyStr.strip_by.
  rewrite (rstrip_by_append a b Hb Hrb). apply lstrip_by_append; assumption.
Qed.

Lemma concat_pieces (pieces : list string) :
  Forall (fun piece => piece <> EmptyString /\ PyStr.strip_by p piece = piece) pieces ->
  PyStr.strip_by p (String.concat EmptyString pieces) = String.concat EmptyString pieces
  /\ (pieces <> [] -> String.concat EmptyString pieces <> EmptyString).
Proof.
  induction 1 as [|piece pieces [Hne Hs] Hall [IHs IHne]].
  - split; [reflexivity | intros H; contradiction].
  - destruct pieces as [|piece' pieces].
    + split; [exact Hs | intros _; exact Hne].
    + change (String.concat EmptyString (piece :: piece' :: pieces))
        with (piece +:+ String.concat EmptyString (piece' :: pieces)).
      split.
      * apply strip_by_append; [exact Hne | apply IHne; discriminate | exact Hs | exact IHs].
      * intros _ E. destruct piece; [contradiction | discriminate E].
Qed.

End Trimmed.

Section Texts.
Import Dom.

Lemma text_pieces (n : node) :
  Forall (fun piece => piece <> EmptyString /\ PyStr.strip piece = piece)
    (List.filter PyStr.nonempty (List.map PyStr.strip (strings n))).
Proof.
  apply List.Forall_forall. intros piece Hin.
  apply filter_In in Hin as [Hin Hne]. apply in_map_iff in Hin as (s & <- & _).
  split.
  - intros E. rewrite E in Hne. discriminate.
  - unfold PyStr.strip. apply strip_by_idem.
Qed.

Lemma get_text_strip_trimmed (n : node) :
  trimmed (get_text_strip n).
Proof. exact (proj1 (concat_pieces _ _ (text_pieces n))). Qed.

Lemma get_text_strip_empty (n : node) :
  get_text_strip n = EmptyString
  <-> forallb (fun s => negb (PyStr.nonempty (PyStr.strip s))) (strings n) = true.
Proof.
  unfold get_text_strip. split.
  - intros E. apply forallb_forall. intros s Hs.
    destruct (PyStr.nonempty (PyStr.strip s)) eqn:Hne; [|reflexivity].
    exfalso.
    apply (proj2 (concat_pieces _ _ (text_pieces n))); [|exact E].
    intros Hnil.
    assert (Hin : In (PyStr.strip s)
                    (List.filter PyStr.nonempty (List.map PyStr.strip (strings n)))).
    { apply filter_In. split; [apply in_map; exact Hs | exact Hne]. }
    rewrite Hnil in Hin. destruct Hin.
  - intros H. rewrite forallb_forall in H.
    assert (Hnil : List.filter PyStr.nonempty (List.map PyStr.strip (strings n)) = []).
    { induction (strings n) as [|s l IH]; [reflexivity|].
      cbn [List.map List.filter].
      pose proof (H s (or_introl eq_refl)) as Hs. apply negb_true_iff in Hs.
      rewrite Hs. apply IH. intros x Hx. apply H. right. exact Hx. }
    rewrite Hnil. reflexivity.
Qed.

Lemma trimmed_not_space (s : string) :
  trimmed s -> PyStr.isspace s = false.
Proof.
  unfold trimmed, PyStr.strip, PyStr.isspace. intros H.
  destruct s as [|c s]; [reflexivity|].
  apply strip_by_fixed in H as [H _]. apply lstrip_by_fixed_head in H.
  cbn [PyStr.nonempty PyStr.all_chars andb]. rewrite H. reflexivity.
Qed.

End Texts.

(** X26.  [Phrasebook.process_entry] returns nothing exactly when the
    phrase holds no text but whitespace; the test with [isspace] never
    decides.  [parse] returns [False] exactly on an empty input, keeps the
    entries it was given and appends one entry for every record whose
    phrase holds text. *)
Theorem phrase_entry_absent_exactly_without_text (entry : Phrasebook.raw_entry) :
  (Phrasebook.process_entry entry = None
   <-> forallb (fun s => negb (PyStr.nonempty (PyStr.strip s)))
         (Dom.strings (Phrasebook.raw_phrase entry)) = true)
  /\ (forall raw_data parsed_data,
         snd (Phrasebook.parse raw_data parsed_data) = false <-> raw_data = [])
  /\ (forall raw_data parsed_data,
         exists added,
           fst (Phrasebook.parse raw_data parsed_data) = parsed_data ++ added
           /\ List.length added
              = List.length
                  (List.filter
                     (fun e => PyStr.nonempty (Dom.get_text_strip (Phrasebook.raw_phrase e)))
                     raw_data)).
Proof.
  assert (Hnone : forall e,
             Phrasebook.process_entry e = None
             <-> Dom.get_text_strip (Phrasebook.raw_phrase e) = EmptyString).
  { intros e. unfold Phrasebook.process_entry.
    rewrite (trimmed_not_space _ (get_text_strip_trimmed (Phrasebook.raw_phrase e))).
    destruct (Dom.get_text_strip (Phrasebook.raw_phrase e)); simpl.
    - split; reflexivity.
    - split; discriminate. }
  split; [rewrite Hnone; apply get_text_strip_empty|]. split.
  - intros raw_data parsed_data. destruct raw_data; simpl; split;
      try reflexivity; discriminate.
  - intros raw_data parsed_data.
    assert (Hlen : forall l,
               List.length (omap Phrasebook.process_entry l)
               = List.length
                   (List.filter
                      (fun e => PyStr.nonempty
                                  (Dom.get_text_strip (Phrasebook.raw_phrase e))) l)).
    { induction l as [|e l IH]; [reflexivity|].
      cbn [omap list_omap List.filter].
      destruct (Phrasebook.process_entry e) as [r|] eqn:He.
      - destruct (Dom.get_text_strip (Phrasebook.raw_phrase e)) eqn:Ht.
        + apply Hnone in Ht. rewrite Ht in He. discriminate.
        + cbn [PyStr.nonempty List.length]. f_equal. exact IH.
      - apply Hnone in He. rewrite He. exact IH. }
    destruct raw_data as [|e l].
    + exists []. split; [simpl; rewrite app_nil_r; reflexivity | reflexivity].
    + exists (omap Phrasebook.process_entry (e :: l)).
      split; [reflexivity | apply Hlen].
Qed.

(** X27.  An entry [Phrasebook.process_entry] returns always has a phrase,
    non-empty and without leading or trailing whitespace, and always has
    categories: the one lower-cased category of the record, the empty
    string when the record has none.  Its translations are left out when
    the translation holds no text, and are otherwise the one text of the
    translation, which the further [strip] leaves as it is. *)
Theorem phrase_entry_fields
    (entry : Phrasebook.raw_entry) (r : Phrasebook.parsed_entry) :
  Phrasebook.process_entry entry = Some r ->
  let text := Dom.get_text_strip (Phrasebook.raw_phrase entry) in
  let full_translation := Dom.get_text_strip (Phrasebook.raw_translation entry) in
  Phrasebook.phrase r = Some text
  /\ text <> EmptyString /\ trimmed text
  /\ Phrasebook.categories r
     = Some [PyStr.lower (default EmptyString (Phrasebook.raw_category entry))]
  /\ Phrasebook.source_link r
     = keep_str (default EmptyString (Phrasebook.raw_source entry))
  /\ Phrasebook.translations r
     = (if PyStr.nonempty full_translation then Some [full_translation] else None)
  /\ trimmed full_translation.
Proof.
  intros H text full_translation. unfold Phrasebook.process_entry in H.
  fold text in H. fold full_translation in H.
  pose proof (get_text_strip_trimmed (Phrasebook.raw_phrase entry)) as Ht.
  pose proof (get_text_strip_trimmed (Phrasebook.raw_translation entry)) as Hf.
  fold text in Ht. fold full_translation in Hf.
  rewrite (trimmed_not_space _ Ht), orb_false_r in H.
  destruct (PyStr.nonempty text) eqn:Hne; [|discriminate].
  cbn [negb] in H. injection H as <-. cbn.
  split.
  { unfold keep_str. rewrite Hne. reflexivity. }
  split.
  { intros E. rewrite E in Hne. discriminate. }
  split; [exact Ht|].
  split; [reflexivity|].
  split; [reflexivity|].
  split; [|exact Hf].
  destruct (PyStr.nonempty full_translation); [|reflexivity].
  cbn. unfold trimmed in Hf. rewrite Hf. reflexivity.
Qed.

Lemma phrase_entry_fields_witness :
  let entry :=
    {| Phrasebook.raw_phrase :=
         Dom.Tag "[document]" [Dom.Tag "dt" [Dom.Text " Good "; Dom.Tag "b" [Dom.Text "day. "]]];
       Phrasebook.raw_translation := empty_document;
       Phrasebook.raw_category := None;
       Phrasebook.raw_source := None |} in
  let r :=
    {| Phrasebook.phrase := Some "Goodday.";
       Phrasebook.categories := Some [EmptyString];
       Phrasebook.source_link := None;
       Phrasebook.translations := None |} in
  Phrasebook.process_entry entry = Some r
  /\ Phrasebook.categories r = Some [EmptyString]
  /\ Phrasebook.translations r = None.
Proof.
  intros entry r.
  assert (H : Phrasebook.process_entry entry = Some r) by (vm_compute; reflexivity).
  split; [exact H|].
  destruct (phrase_entry_fields entry r H) as (_ & _ & _ & Hc & _ & Ht & _).
  split; [exact Hc | exact Ht].
Defined.

(** ** The output path of the export functions *)

Section OutputPath.
Import Path.

Lemma splitext_append (p : string) :
  fst (splitext p) +:+ snd (splitext p) = p.
Proof.
  unfold splitext. destruct (rfind "." p) as [dotIndex|]; [|apply append_empty].
  destruct (_ && _); [apply take_drop | apply append_empty].
Qed.

Lemma append_inv_head (a b c : string) : a +:+ b = a +:+ c -> b = c.
Proof.
  induction a as [|x a IH]; push_append; intros H; [exact H|].
  injection H as H. apply IH, H.
Qed.

Lemma append_inv_tail (a : string) :
  forall b c, a +:+ c = b +:+ c -> a = b.
Proof.
  induction a as [|x a IH]; intros [|y b] c; push_append; intros H.
  - reflexivity.
  - apply (f_equal String.length) in H. simpl in H. rewrite length_append in H. lia.
  - apply (f_equal String.length) in H. simpl in H. rewrite length_append in H. lia.
  - injection H as -> H. rewrite (IH b c H). reflexivity.
Qed.

Lemma str_of_nat_inj (n n' : nat) : str_of_nat n = str_of_nat n' -> n = n'.
Proof.
  unfold str_of_nat. intros H.
  apply (f_equal NilEmpty.uint_of_string) in H. rewrite !NilEmpty.usu in H.
  injection H as H. apply Unsigned.to_uint_inj, H.
Qed.

Lemma numbered_inj (base ext : string) (n n' : nat) :
  numbered base ext n = numbered base ext n' -> n = n'.
Proof.
  unfold numbered. intros H.
  apply append_inv_head in H. apply (append_inv_head "_") in H.
  apply append_inv_tail in H. apply str_of_nat_inj, H.
Qed.

Lemma numbered_longer (base ext : string) (n : nat) :
  numbered base ext n <> base +:+ ext.
Proof.
  unfold numbered. intros H. apply (f_equal String.length) in H.
  rewrite !length_append in H. simpl in H. lia.
Qed.

Variable exists_ : string -> bool.
Variables base ext : string.

Lemma next_free_free (fuel counter : nat) (path : string) :
  exists_ path = false -> next_free exists_ base ext fuel counter path = Some path.
Proof. intros H. destruct fuel; simpl; rewrite H; reflexivity. Qed.

Lemma next_free_run (d : nat) :
  forall fuel counter path,
    exists_ path = true ->
    (forall j, (j < d)%nat -> exists_ (numbered base ext (counter + j)) = true) ->
    exists_ (numbered base ext (counter + d)) = false ->
    (d < fuel)%nat ->
    next_free exists_ base ext fuel counter path
    = Some (numbered base ext (counter + d)).
Proof.
  induction d as [|d IH]; intros fuel counter path Hpath Hbelow Hfree Hfuel;
    (destruct fuel as [|fuel]; [lia|]); cbn [next_free]; rewrite Hpath.
  - rewrite Nat.add_0_r in *. apply next_free_free, Hfree.
  - rewrite Nat.add_succ_r, <- Nat.add_succ_l in *.
    apply IH.
    + specialize (Hbelow 0%nat ltac:(lia)). rewrite Nat.add_0_r in Hbelow. exact Hbelow.
    + intros j Hj. specialize (Hbelow (S j) ltac:(lia)).
      rewrite Nat.add_succ_r in Hbelow. exact Hbelow.
    + exact Hfree.
    + lia.
Qed.

Lemma first_false (f : nat -> bool) (n : nat) :
  forall start,
    (exists j, (j < n)%nat /\ f (start + j)%nat = false) ->
    exists d, (d < n)%nat /\ f (start + d)%nat = false
              /\ forall j, (j < d)%nat -> f (start + j)%nat = true.
Proof.
  induction n as [|n IH]; intros start (j & Hj & Hf); [lia|].
  destruct (f (start + 0)%nat) eqn:H0.
  - destruct j as [|j]; [rewrite Hf in H0; discriminate|].
    destruct (IH (S start)) as (d & Hd & Hfd & Hbelow).
    { exists j. split; [lia|]. rewrite Nat.add_succ_l, <- Nat.add_succ_r. exact Hf. }
    exists (S d). split; [lia|]. split.
    + rewrite Nat.add_succ_r, <- Nat.add_succ_l. exact Hfd.
    + intros [|i] Hi; [exact H0|].
      rewrite Nat.add_succ_r, <- Nat.add_succ_l. apply Hbelow. lia.
  - exists 0%nat. split; [lia|]. split; [exact H0|]. intros i Hi. lia.
Qed.

Lemma some_number_free (existing : list string) :
  (forall p, exists_ p = true -> In p existing) ->
  exists_ (base +:+ ext) = true ->
  exists j, (j < List.length existing)%nat
            /\ exists_ (numbered base ext (2 + j)) = false.
Proof.
  intros Hall Hout.
  set (n := List.length existing).
  destruct (existsb (fun k => negb (exists_ (numbered base ext k))) (List.seq 2 n))
    eqn:Hex.
  - apply existsb_exists in Hex as (k & Hin & Hk).
    apply in_seq in Hin. apply negb_true_iff in Hk.
    exists (k - 2)%nat. split; [lia|].
    replace (2 + (k - 2))%nat with k by lia. exact Hk.
  - exfalso.
    assert (Hincl : incl ((base +:+ ext) :: List.map (numbered base ext) (List.seq 2 n))
                      existing).
    { intros p [<- | Hp]; [apply Hall, Hout|].
      apply in_map_iff in Hp as (k & <- & Hk). apply Hall.
      destruct (exists_ (numbered base ext k)) eqn:E; [reflexivity|].
      assert (Hc : existsb (fun k => negb (exists_ (numbered base ext k))) (List.seq 2 n)
                   = true).
      { apply existsb_exists. exists k. split; [exact Hk | rewrite E; reflexivity]. }
      rewrite Hc in Hex. discriminate. }
    apply NoDup_incl_length in Hincl.
    + cbn [List.length] in Hincl. rewrite length_map, length_seq in Hincl.
      unfold n in Hincl. lia.
    + constructor.
      * intros Hin. apply in_map_iff in Hin as (k & Hk & _).
        exact (numbered_longer base ext k Hk).
      * apply NoDup_map_NoDup_ForallPairs; [|apply seq_NoDup].
        intros a b _ _. apply numbered_inj.
Qed.

End OutputPath.

(** X28.  The output path of the export functions: when finitely many
    paths exist, the loop ends, after at most as many further candidates
    as there are existing paths.  The path it ends with does not exist,
    so no file is overwritten; it is the first path itself when that is
    free, and otherwise the numbered path with the least counter from 2
    on that is free.  Base and extension put together give the first
    path. *)
Theorem output_path_is_first_free
    (exists_ : string -> bool) (existing : list string) (output_path : string) :
  (forall p, exists_ p = true -> In p existing) ->
  let base := fst (Path.splitext output_path) in
  let ext := snd (Path.splitext output_path) in
  base +:+ ext = output_path
  /\ exists p,
       (forall fuel, (List.length existing <= fuel)%nat ->
                     Path.unique_path exists_ fuel output_path = Some p)
       /\ exists_ p = false
       /\ (exists_ output_path = false -> p = output_path)
       /\ (exists_ output_path = true ->
           exists counter,
             (2 <= counter <= List.length existing + 1)%nat
             /\ p = Path.numbered base ext counter
             /\ forall k, (2 <= k < counter)%nat ->
                          exists_ (Path.numbered base ext k) = true).
Proof.
  intros Hall base ext.
  pose proof (splitext_append output_path) as Hsplit. fold base ext in Hsplit.
  split; [exact Hsplit|].
  assert (Hunique : forall fuel,
             Path.unique_path exists_ fuel output_path
             = Path.next_free exists_ base ext fuel 2 output_path).
  { intros fuel. unfold Path.unique_path, base, ext.
    destruct (Path.splitext output_path); reflexivity. }
  destruct (exists_ output_path) eqn:Hout.
  - rewrite <- Hsplit in Hout.
    destruct (some_number_free exists_ base ext existing Hall Hout) as (j & Hj & Hfree).
    destruct (first_false (fun k => exists_ (Path.numbered base ext k))
                (List.length existing) 2 (ex_intro _ j (conj Hj Hfree)))
      as (d & Hd & Hfd & Hbelow).
    rewrite Hsplit in Hout.
    exists (Path.numbered base ext (2 + d)). split.
    + intros fuel Hfuel. rewrite Hunique.
      apply next_free_run; [exact Hout | exact Hbelow | exact Hfd | lia].
    + split; [exact Hfd|]. split; [discriminate|].
      intros _. exists (2 + d)%nat. split; [lia|]. split; [reflexivity|].
      intros k Hk. replace k with (2 + (k - 2))%nat by lia. apply Hbelow. lia.
  - exists output_path. split.
    + intros fuel _. rewrite Hunique. apply next_free_free, Hout.
    + split; [exact Hout|]. split; [reflexivity | discriminate].
Qed.

Lemma output_path_is_first_free_witness :
  let existing := ["parsed/dictionary_eng_eng_3.json";
                   "parsed/dictionary_eng_eng_3_2.json"] in
  let exists_ := fun p => existsb (String.eqb p) existing in
  (forall p, exists_ p = true -> In p existing)
  /\ Path.unique_path exists_ 2 "parsed/dictionary_eng_eng_3.json"
     = Some "parsed/dictionary_eng_eng_3_3.json"
  /\ exists p,
       (forall fuel, (2 <= fuel)%nat ->
                     Path.unique_path exists_ fuel "parsed/dictionary_eng_eng_3.json"
                     = Some p)
       /\ exists_ p = false.
Proof.
  intros existing exists_.
  assert (Hall : forall p, exists_ p = true -> In p existing).
  { intros p Hp. apply existsb_exists in Hp as (q & Hq & E).
    apply String.eqb_eq in E. subst q. exact Hq. }
  split; [exact Hall|]. split; [vm_compute; reflexivity|].
  destruct (output_path_is_first_free exists_ existing
              "parsed/dictionary_eng_eng_3.json" Hall) as (_ & p & Hp & Hfree & _).
  exists p. split; [exact Hp | exact Hfree].
Defined.
